(** * epdoptimize: a shallow embedding of the dithering library

    The Python package [epdoptimize] quantises an RGBA raster to a small
    palette.  This development embeds its modules one by one

    - [color_helpers.py]      (hex colour parser),
    - [find_closest_color.py] (palette matcher),
    - [bayer_matrix.py]       (threshold matrix),
    - [diffusion_maps.py]     (kernel catalogue),
    - [dither.py]             (the raster pass),
    - [__init__.py]           (palette lookup by name),
    - [replace_colors.py]     (exact colour substitution),

    and proves properties of the embedded functions.  The image library is
    outside the embedding: an image is its size and its RGBA samples.  The
    palette table [data/default_palettes.json] is a parameter.

    Conventions of the embedding.

    - Python [int] is [Z].  Python [float] is an exact rational [Q]: the
      embedding idealises binary64 rounding away.  [math.sqrt] is kept
      symbolic (type [root]); two roots are compared through their
      radicands, which is what [<] on exact square roots of non-negative
      numbers does (lemma [root_ltb_real]).  The only radicands the source
      forms are sums of squares.
    - A Python exception is a value of [exn]; a function that can raise
      returns a [result].
    - A Python [str] is a [string] of bytes; only ASCII matters to the
      regular expressions that are modelled.
    - The numpy sample array is a [list Q] read and written by index. *)

From Stdlib Require Import ZArith QArith Qround Qreals Reals Ascii String.
From stdpp Require Import base option list sorting gmap strings.

Local Open Scope Z_scope.

(** ** Python runtime: exceptions *)

Inductive exn : Set :=
| TypeError
| IndexError
| ValueError
| KeyError
| ZeroDivisionError
| OverflowError.

Inductive result (A : Type) : Type :=
| Ok (a : A)
| Raise (e : exn).
Arguments Ok {A} a.
Arguments Raise {A} e.

(** Sequencing: the first exception ends the computation.  The instance
    gives [result] the monad notation [x ← m; k]. *)
#[global] Instance result_bind : MBind result := fun A B k m =>
  match m with
  | Ok a => k a
  | Raise e => Raise e
  end.

(** [for x in xs: st = body(st, x)], stopping at the first exception. *)
Fixpoint for_each {S X} (body : S -> X -> result S) (xs : list X) (st : S)
  : result S :=
  match xs with
  | [] => Ok st
  | x :: xs' => st' ← body st x; for_each body xs' st'
  end.

(** [[f(x) for x in xs]] *)
Fixpoint list_comp {X Y} (f : X -> result Y) (xs : list X) : result (list Y) :=
  match xs with
  | [] => Ok []
  | x :: xs' => y ← f x; ys ← list_comp f xs'; Ok (y :: ys)
  end.

(** [xs[i]] on a Python list or a numpy vector: a negative index counts
    from the end, anything outside raises [IndexError]. *)
Definition py_index {A} (xs : list A) (i : Z) : result A :=
  let n := Z.of_nat (length xs) in
  let j := if i <? 0 then i + n else i in
  if (j <? 0) || (n <=? j) then Raise IndexError
  else match xs !! Z.to_nat j with
       | Some a => Ok a
       | None => Raise IndexError
       end.

(** [xs[i] = v] *)
Definition py_store {A} (xs : list A) (i : Z) (v : A) : result (list A) :=
  let n := Z.of_nat (length xs) in
  let j := if i <? 0 then i + n else i in
  if (j <? 0) || (n <=? j) then Raise IndexError
  else Ok (<[Z.to_nat j := v]> xs).

(** [range(n)] *)
Definition py_range (n : Z) : list Z := Z.of_nat <$> seq 0 (Z.to_nat n).

(** [range(0, n, 4)] *)
Definition py_range4 (n : Z) : list Z :=
  (fun k => 4 * Z.of_nat k) <$> seq 0 (Z.to_nat ((n + 3) / 4)).

(** ** Numbers *)

Definition Qltb (x y : Q) : bool :=
  match (x ?= y)%Q with Lt => true | _ => false end.

(** The value of [math.sqrt(radicand)], kept symbolic. *)
Record root : Set := math_sqrt { radicand : Q }.

Definition root_ltb (a b : root) : bool := Qltb (radicand a) (radicand b).

(** The real number a [root] stands for. *)
Definition root_R (a : root) : R := sqrt (Q2R (radicand a)).

(** ** color_helpers.py *)

Module ColorHelpers.

(** The class [[a-f\d]] under [re.IGNORECASE], on ASCII. *)
Definition hex_digit (c : ascii) : option Z :=
  let n := Z.of_nat (nat_of_ascii c) in
  if (48 <=? n) && (n <=? 57) then Some (n - 48)
  else if (97 <=? n) && (n <=? 102) then Some (n - 87)
  else if (65 <=? n) && (n <=? 70) then Some (n - 55)
  else None.

Definition is_hex (c : ascii) : bool := bool_decide (is_Some (hex_digit c)).

(** [#?] at the start of a pattern whose next item is a hex digit: the
    hash is consumed when it is there. *)
Definition skip_hash (s : string) : string :=
  match s with
  | String "#" s' => s'
  | _ => s
  end.

(** [$] without [re.MULTILINE] matches at the end of the text and also
    just before a newline that ends the text. *)
Definition at_end (s : string) : bool :=
  match s with
  | EmptyString => true
  | String c EmptyString => bool_decide (c = "010"%char)
  | _ => false
  end.

(** [^#?([a-f\d])([a-f\d])([a-f\d])$]: the three groups of a match. *)
Definition shorthand_regex (s : string) : option (ascii * ascii * ascii) :=
  match skip_hash s with
  | String r (String g (String b rest)) =>
      if is_hex r && is_hex g && is_hex b && at_end rest
      then Some (r, g, b) else None
  | _ => None
  end.

(** [^#?([a-f\d]{2})([a-f\d]{2})([a-f\d]{2})$]: the three groups. *)
Definition full_regex (s : string) : option (string * string * string) :=
  match skip_hash s with
  | String r1 (String r2 (String g1 (String g2 (String b1 (String b2 rest))))) =>
      if is_hex r1 && is_hex r2 && is_hex g1 && is_hex g2
         && is_hex b1 && is_hex b2 && at_end rest
      then Some (String r1 (String r2 ""), String g1 (String g2 ""),
                 String b1 (String b2 ""))
      else None
  | _ => None
  end.

(** [int(group, 16)] on a group the regular expression matched: two hex
    digits. *)
Definition int16 (group : string) : Z :=
  match group with
  | String h (String l EmptyString) =>
      16 * default 0 (hex_digit h) + default 0 (hex_digit l)
  | _ => 0
  end.

(** [hex_to_rgb]: [None] is Python's [None]. *)
Definition hex_to_rgb (hex_color : string) : option (list Z) :=
  let hex_color :=
    match shorthand_regex hex_color with
    | Some (r, g, b) =>
        String r (String r (String g (String g (String b (String b "")))))
    | None => hex_color
    end in
  match full_regex hex_color with
  | Some (g1, g2, g3) => Some [int16 g1; int16 g2; int16 g3]
  | None => None
  end.

End ColorHelpers.

(** ** find_closest_color.py *)

(** A colour is a Python list of numbers; a palette entry may also be
    [None] (what [ColorHelpers.hex_to_rgb] yields for a string it rejects). *)
Abbreviation color := (list Q).

Record color_entry : Set := { distance : root; color_of : list Q }.

(** [color[i]] where [color] may be [None]. *)
Definition subscript (c : option color) (i : Z) : result Q :=
  match c with
  | None => Raise TypeError
  | Some l => py_index l i
  end.

Definition distance_in_color_space (color1 color2 : option color) : result root :=
  c10 ← subscript color1 0; c20 ← subscript color2 0;
  let r := (c10 - c20)%Q in
  c11 ← subscript color1 1; c21 ← subscript color2 1;
  let g := (c11 - c21)%Q in
  c12 ← subscript color1 2; c22 ← subscript color2 2;
  let b := (c12 - c22)%Q in
  Ok (math_sqrt (r * r + g * g + b * b)%Q).

(** The second loop of [find_closest_palette_color]: one step. *)
Definition closer (closest_color : option color_entry) (entry : color_entry)
  : option color_entry :=
  match closest_color with
  | None => Some entry
  | Some best =>
      if root_ltb (distance entry) (distance best)
      then Some entry else Some best
  end.

Definition find_closest_palette_color
    (pixel : color) (color_palette : list (option color)) : result color :=
  (* Calculate distances to all palette colors *)
  colors_with_distance ←
    list_comp (fun c =>
      d ← distance_in_color_space c (Some pixel);
      l ← match c with Some l => Ok l | None => Raise TypeError end;
      Ok {| distance := d; color_of := l |}) color_palette;
  (* Find the closest color *)
  let closest_color := foldl closer None colors_with_distance in
  (* Ensure alpha value is present *)
  match closest_color with
  | None => Raise TypeError
  | Some entry =>
      let result := color_of entry in
      if (Z.of_nat (length result) <? 4) then Ok (result ++ [inject_Z 255])
      else Ok result
  end.

(** ** bayer_matrix.py *)

(** Pre-computed 8x8 Bayer matrix, as the source spells it. *)
Definition big_matrix : list (list Z) :=
  [ [0; 48; 12; 60; 3; 51; 15; 63];
    [32; 16; 44; 28; 35; 19; 47; 31];
    [8; 56; 4; 52; 11; 59; 7; 55];
    [40; 24; 36; 20; 43; 27; 39; 32];
    [2; 50; 14; 62; 1; 49; 13; 61];
    [34; 18; 46; 30; 33; 17; 45; 29];
    [10; 58; 6; 54; 9; 57; 5; 53];
    [42; 26; 38; 22; 41; 25; 37; 21] ].

(** [{v: i for i, v in enumerate(sorted_values)}]: a later pair replaces an
    earlier one with the same key. *)
Definition index_map_of (sorted_values : list Z) : gmap Z Z :=
  foldl (fun m iv => <[iv.2 := iv.1]> m) ∅
        (zip (py_range (Z.of_nat (length sorted_values))) sorted_values).

Definition create_bayer_matrix (size : Z * Z) : result (list (list Z)) :=
  let width := if size.1 <? 8 then Z.min size.1 8 else 8 in
  let height := if size.2 <? 8 then Z.min size.2 8 else 8 in
  (* If using full 8x8, return the big matrix directly *)
  if (width =? 8) && (height =? 8) then Ok big_matrix
  else
    (* Create a smaller matrix by extracting the needed portion *)
    matrix ← list_comp (fun y =>
                list_comp (fun x =>
                  col ← py_index big_matrix x; py_index col y)
                  (py_range width))
              (py_range height);
    (* Re-index the matrix values to be sequential *)
    let flat_values := concat matrix in
    let sorted_values := merge_sort Z.le flat_values in
    let index_map := index_map_of sorted_values in
    list_comp (fun row =>
      list_comp (fun v =>
        match index_map !! v with
        | Some i => Ok i
        | None => Raise KeyError
        end) row) matrix.

(** ** diffusion_maps.py *)

Record diffusion : Set := { offset : Z * Z; factor : Q }.

(** One kernel entry: [{"offset": [dx, dy], "factor": f}]. *)
Definition tap (dx dy : Z) (f : Q) : diffusion :=
  {| offset := (dx, dy); factor := f |}.

Definition floyd_steinberg : list diffusion :=
  [ tap 1 0 (7 / 16); tap (-1) 1 (3 / 16); tap 0 1 (5 / 16); tap 1 1 (1 / 16) ]%Q.

Definition false_floyd_steinberg : list diffusion :=
  [ tap 1 0 (3 / 8); tap 0 1 (3 / 8); tap 1 1 (2 / 8) ]%Q.

Definition jarvis : list diffusion :=
  [ tap 1 0 (7 / 48); tap 2 0 (5 / 48);
    tap (-2) 1 (3 / 48); tap (-1) 1 (5 / 48); tap 0 1 (7 / 48); tap 1 1 (5 / 48);
    tap 2 1 (3 / 48);
    tap (-2) 2 (1 / 48); tap (-1) 2 (3 / 48); tap 0 2 (4 / 48); tap 1 2 (3 / 48);
    tap 2 2 (1 / 48) ]%Q.

Definition stucki : list diffusion :=
  [ tap 1 0 (8 / 42); tap 2 0 (4 / 42);
    tap (-2) 1 (2 / 42); tap (-1) 1 (4 / 42); tap 0 1 (8 / 42); tap 1 1 (4 / 42);
    tap 2 1 (2 / 42);
    tap (-2) 2 (1 / 42); tap (-1) 2 (2 / 42); tap 0 2 (4 / 42); tap 1 2 (2 / 42);
    tap 2 2 (1 / 42) ]%Q.

Definition burkes : list diffusion :=
  [ tap 1 0 (8 / 32); tap 2 0 (4 / 32);
    tap (-2) 1 (2 / 32); tap (-1) 1 (4 / 32); tap 0 1 (8 / 32); tap 1 1 (4 / 32);
    tap 2 1 (2 / 32) ]%Q.

Definition sierra3 : list diffusion :=
  [ tap 1 0 (5 / 32); tap 2 0 (3 / 32);
    tap (-2) 1 (2 / 32); tap (-1) 1 (4 / 32); tap 0 1 (5 / 32); tap 1 1 (4 / 32);
    tap 2 1 (2 / 32);
    tap (-1) 2 (2 / 32); tap 0 2 (3 / 32); tap 1 2 (2 / 32) ]%Q.

Definition sierra2 : list diffusion :=
  [ tap 1 0 (4 / 16); tap 2 0 (3 / 16);
    tap (-2) 1 (1 / 16); tap (-1) 1 (2 / 16); tap 0 1 (3 / 16); tap 1 1 (2 / 16);
    tap 2 1 (1 / 16) ]%Q.

Definition sierra2_4a : list diffusion :=
  [ tap 1 0 (2 / 4); tap (-2) 1 (1 / 4); tap (-1) 1 (1 / 4) ]%Q.

(** Map of diffusion kernel names to their functions. *)
Definition DIFFUSION_MAPS : list (string * list diffusion) :=
  [ ("floydSteinberg", floyd_steinberg);
    ("falseFloydSteinberg", false_floyd_steinberg);
    ("jarvis", jarvis);
    ("stucki", stucki);
    ("burkes", burkes);
    ("sierra3", sierra3);
    ("sierra2", sierra2);
    ("Sierra2-4A", sierra2_4a) ]%string.

Definition get_diffusion_map (name : string) : list diffusion :=
  match (list_to_map DIFFUSION_MAPS : gmap string (list diffusion)) !! name with
  | Some kernel => kernel
  | None => floyd_steinberg (* Default to Floyd-Steinberg *)
  end.

(** ** dither.py *)

(** An RGBA image as the raster pass sees it: [source_image.size] and the
    flattened uint8 samples of [np.array(source_image)]. *)
Record image : Set := { width : Z; height : Z; samples : list Z }.

(** What the image library guarantees of an RGBA image. *)
Record wf_image (im : image) : Prop := {
  wf_width : 0 <= width im;
  wf_height : 0 <= height im;
  wf_length : Z.of_nat (length (samples im)) = height im * width im * 4;
  wf_uint8 : Forall (fun v => 0 <= v <= 255) (samples im)
}.

Inductive palette_option : Set :=
| PaletteName (name : string)
| PaletteList (colors : list string).

(** The option keys the raster pass reads.  A falsy [ditheringType]
    ([None] or [""]) is the empty string. *)
Record options : Set := {
  ditheringType : string;
  errorDiffusionMatrix : string;
  orderedDitheringMatrix : Z * Z;
  randomDitheringType : string;
  palette : palette_option
}.

(** The caller's dictionary: a key may be absent. *)
Record user_options : Set := {
  u_ditheringType : option string;
  u_errorDiffusionMatrix : option string;
  u_orderedDitheringMatrix : option (Z * Z);
  u_randomDitheringType : option string;
  u_palette : option palette_option
}.

(** The defaults of the keys that are read; the source's dictionary also
    lists [serpentine], [orderedDitheringType], [sampleColorsFromImage] and
    [numberOfSampleColors], which no code path consults. *)
Definition DEFAULT_OPTIONS : options :=
  {| ditheringType := "errorDiffusion";
     errorDiffusionMatrix := "floydSteinberg";
     orderedDitheringMatrix := (4, 4);
     randomDitheringType := "blackAndWhite";
     palette := PaletteName "default" |}.

(** [{**DEFAULT_OPTIONS, **(options or {})}] *)
Definition merge_options (user : option user_options) : options :=
  match user with
  | None => DEFAULT_OPTIONS
  | Some u =>
      {| ditheringType := default (ditheringType DEFAULT_OPTIONS) (u_ditheringType u);
         errorDiffusionMatrix :=
           default (errorDiffusionMatrix DEFAULT_OPTIONS) (u_errorDiffusionMatrix u);
         orderedDitheringMatrix :=
           default (orderedDitheringMatrix DEFAULT_OPTIONS) (u_orderedDitheringMatrix u);
         randomDitheringType :=
           default (randomDitheringType DEFAULT_OPTIONS) (u_randomDitheringType u);
         palette := default (palette DEFAULT_OPTIONS) (u_palette u) |}
  end.

(** An [int] where a [float] is expected. *)
Definition num (z : Z) : Q := inject_Z z.

Definition get_pixel_color_values (pixel_index : Z) (data : list Q) : result color :=
  c0 ← py_index data pixel_index;
  c1 ← py_index data (pixel_index + 1);
  c2 ← py_index data (pixel_index + 2);
  c3 ← py_index data (pixel_index + 3);
  Ok [c0; c1; c2; c3].

Definition clamp_uint8 (value : Q) : Q :=
  if Qltb value (num 0) then num 0
  else if Qltb (num 255) value then num 255
  else value.

Definition set_pixel (data : list Q) (pixel_index : Z) (pixel : color)
  : result (list Q) :=
  p0 ← py_index pixel 0; data ← py_store data pixel_index (clamp_uint8 p0);
  p1 ← py_index pixel 1; data ← py_store data (pixel_index + 1) (clamp_uint8 p1);
  p2 ← py_index pixel 2; data ← py_store data (pixel_index + 2) (clamp_uint8 p2);
  p3 ← py_index pixel 3; py_store data (pixel_index + 3) (clamp_uint8 p3).

Definition get_quant_error (old_pixel new_pixel : color) : result color :=
  list_comp (fun i =>
    o ← py_index old_pixel i; n ← py_index new_pixel i; Ok (o - n)%Q)
    (py_range (Z.of_nat (length old_pixel))).

Definition add_quant_error (pixel quant_error : color) (diffusion_factor : Q)
  : result color :=
  list_comp (fun i =>
    p ← py_index pixel i; e ← py_index quant_error i;
    Ok (p + e * diffusion_factor)%Q)
    (py_range (Z.of_nat (length pixel))).

Definition ordered_dither_pixel_value
    (pixel : color) (coordinates : Z * Z) (threshold_map : list (list Z))
    (threshold : Q) : result color :=
  let map_height := Z.of_nat (length threshold_map) in
  row0 ← py_index threshold_map 0;
  let map_width := Z.of_nat (length row0) in
  if map_height =? 0 then Raise ZeroDivisionError else
  row ← py_index threshold_map (coordinates.2 mod map_height);
  if map_width =? 0 then Raise ZeroDivisionError else
  t ← py_index row (coordinates.1 mod map_width);
  if map_height * map_width =? 0 then Raise ZeroDivisionError else
  let factor := (num t / num (map_height * map_width))%Q in
  Ok ((fun color => (color + factor * threshold)%Q) <$> pixel).

Definition pixel_xy (index width : Z) : result (Z * Z) :=
  if width =? 0 then Raise ZeroDivisionError
  else Ok (index mod width, index / width).

(** *** Random dithering

    The draws of [random_integer(0, 255)] come from a stream [rand]; the
    pass counts how many it has taken. *)
Section Random.
Variable rand : nat -> Z.

(** [random_integer(min_val, max_val)]: the next draw of the stream, which
    is taken to lie within the bounds. *)
Definition random_integer (min_val max_val : Z) (drawn : nat) : Z * nat :=
  (rand drawn, S drawn).

Definition random_dither_pixel_value (pixel : color) (drawn : nat)
  : color * nat :=
  let step (acc : color * nat) (color : Q) :=
    let '(r, drawn) := random_integer 0 255 acc.2 in
    (acc.1 ++ [if Qltb color (num r) then num 0 else num 255], drawn) in
  let '(rgb, drawn) := foldl step ([], drawn) (take 3 pixel) in
  (rgb ++ [if (3 <? Z.of_nat (length pixel))
           then default (num 255) (pixel !! 3%nat) else num 255], drawn).

Definition random_dither_black_and_white_pixel_value (pixel : color) (drawn : nat)
  : result (color * nat) :=
  p0 ← py_index pixel 0; p1 ← py_index pixel 1; p2 ← py_index pixel 2;
  let average_rgb := ((p0 + p1 + p2) / num 3)%Q in
  let '(r, drawn) := random_integer 0 255 drawn in
  if Qltb average_rgb (num r)
  then Ok ([num 0; num 0; num 0; num 255], drawn)
  else Ok ([num 255; num 255; num 255; num 255], drawn).
End Random.

(** *** The raster pass *)

Section Dither.
(** The palette table is read from [data/default_palettes.json]. *)
Variable PALETTES : gmap string (list string).
Variable rand : nat -> Z.

Definition set_color_palette (palette : palette_option)
  : result (list (option color)) :=
  let palette_array : result (list string) :=
    match palette with
    | PaletteName name =>
        match PALETTES !! "default"%string with
        | Some fallback => Ok (default fallback (PALETTES !! name))
        | None => Raise KeyError
        end
    | PaletteList colors => Ok colors
    end in
  palette_array ← palette_array;
  Ok ((fun hex_color : string =>
         (fun rgb : list Z => num <$> rgb) <$> ColorHelpers.hex_to_rgb hex_color)
        <$> (palette_array : list string)).

(** The body of [for diffusion in diffusion_map]. *)
Definition diffuse (width height current_pixel : Z) (quant_error : color)
    (image_data : list Q) (diffusion : diffusion) : result (list Q) :=
  if width =? 0 then Raise ZeroDivisionError else
  (* Calculate current pixel's x,y coordinates *)
  let current_x := (current_pixel / 4) mod width in
  let current_y := (current_pixel / 4) / width in
  (* Calculate target pixel's x,y coordinates *)
  let target_x := current_x + (offset diffusion).1 in
  let target_y := current_y + (offset diffusion).2 in
  (* Check if target pixel is within image bounds *)
  if (target_x <? 0) || (width <=? target_x)
     || (target_y <? 0) || (height <=? target_y)
  then Ok image_data
  else
    let pixel_index := (target_y * width + target_x) * 4 in
    target ← get_pixel_color_values pixel_index image_data;
    error_pixel ← add_quant_error target quant_error (factor diffusion);
    set_pixel image_data pixel_index error_pixel.

(** The body of [for current in range(0, len(image_data), 4)].  The
    state is the sample array and the number of random draws taken. *)
Definition dither_pixel (opts : options) (width height : Z)
    (color_palette : list (option color)) (threshold_map : list (list Z))
    (st : list Q * nat) (current : Z) : result (list Q * nat) :=
  let '(image_data, drawn) := st in
  let current_pixel := current in
  old_pixel ← get_pixel_color_values current_pixel image_data;
  (* Quantization only *)
  image_data ←
    (if (ditheringType opts =? "")%string
        || (ditheringType opts =? "quantizationOnly")%string
     then
       new_pixel ← find_closest_palette_color old_pixel color_palette;
       set_pixel image_data current_pixel new_pixel
     else Ok image_data);
  (* Random dithering - RGB mode *)
  '(image_data, drawn) ←
    (if (ditheringType opts =? "random")%string
        && (randomDitheringType opts =? "rgb")%string
     then
       let '(new_pixel, drawn) := random_dither_pixel_value rand old_pixel drawn in
       image_data ← set_pixel image_data current_pixel new_pixel;
       Ok (image_data, drawn)
     else Ok (image_data, drawn));
  (* Random dithering - Black and White mode *)
  '(image_data, drawn) ←
    (if (ditheringType opts =? "random")%string
        && (randomDitheringType opts =? "blackAndWhite")%string
     then
       '(new_pixel, drawn) ←
         random_dither_black_and_white_pixel_value rand old_pixel drawn;
       image_data ← set_pixel image_data current_pixel new_pixel;
       Ok (image_data, drawn)
     else Ok (image_data, drawn));
  (* Ordered dithering *)
  image_data ←
    (if (ditheringType opts =? "ordered")%string
     then
       let ordered_dither_threshold := (num 256 / num 4)%Q in
       xy ← pixel_xy (current_pixel / 4) width;
       new_pixel ← ordered_dither_pixel_value
                     old_pixel xy threshold_map ordered_dither_threshold;
       new_pixel ← find_closest_palette_color new_pixel color_palette;
       set_pixel image_data current_pixel new_pixel
     else Ok image_data);
  (* Error diffusion dithering *)
  image_data ←
    (if (ditheringType opts =? "errorDiffusion")%string
     then
       let diffusion_map := get_diffusion_map (errorDiffusionMatrix opts) in
       new_pixel ← find_closest_palette_color old_pixel color_palette;
       image_data ← set_pixel image_data current_pixel new_pixel;
       quant_error ← get_quant_error old_pixel new_pixel;
       for_each (diffuse width height current_pixel quant_error)
                diffusion_map image_data
     else Ok image_data);
  Ok (image_data, drawn).

(** [np.clip(x, 0, 255).astype(np.uint8)] on one sample: the cast drops
    the fraction of a value that is already within range. *)
Definition to_uint8 (v : Q) : Z :=
  let clipped := if Qltb v (num 0) then num 0
                 else if Qltb (num 255) v then num 255 else v in
  Qfloor clipped.

Definition dither_image (source_image : option image)
    (options : option user_options) : result (option image) :=
  match source_image with
  | None => Ok None
  | Some source_image =>
      (* Merge options with defaults *)
      let opts := merge_options options in
      (* Get image data as numpy array *)
      let width := width source_image in
      let height := height source_image in
      let image_data := num <$> samples source_image in
      (* Set up color palette *)
      color_palette ← set_color_palette (palette opts);
      (* Create threshold map for ordered dithering *)
      threshold_map ← create_bayer_matrix (orderedDitheringMatrix opts);
      (* Process each pixel *)
      st ← for_each (dither_pixel opts width height color_palette threshold_map)
             (py_range4 (Z.of_nat (length image_data))) (image_data, 0%nat);
      (* Convert back to PIL Image *)
      let image_data := to_uint8 <$> st.1 in
      if negb (Z.of_nat (length image_data) =? height * width * 4)
      then Raise ValueError
      else Ok (Some {| width := width; height := height; samples := image_data |})
  end.
End Dither.

(** ** __init__.py *)

Module Init.

(** [str.lower] on ASCII. *)
Definition lower_char (c : ascii) : ascii :=
  let n := nat_of_ascii c in
  if (65 <=? n)%nat && (n <=? 90)%nat then ascii_of_nat (n + 32) else c.

Fixpoint str_lower (s : string) : string :=
  match s with
  | EmptyString => EmptyString
  | String c s' => String (lower_char c) (str_lower s')
  end.

Definition get_default_palettes (_PALETTES : gmap string (list string))
    (name : string) : result (list string) :=
  let key := str_lower name in
  match _PALETTES !! "default"%string with
  | Some fallback => Ok (default fallback (_PALETTES !! key))
  | None => Raise KeyError
  end.

(** The table is read from [data/default_device_colors.json]. *)
Definition get_device_colors (_DEVICE_COLORS : gmap string (list string))
    (name : string) : result (list string) :=
  let key := str_lower name in
  match _DEVICE_COLORS !! "default"%string with
  | Some fallback => Ok (default fallback (_DEVICE_COLORS !! key))
  | None => Raise KeyError
  end.

End Init.

(** ** replace_colors.py *)

Module ReplaceColors.

(** [str.lstrip("#")] *)
Fixpoint lstrip_hash (s : string) : string :=
  match s with
  | String "#" s' => lstrip_hash s'
  | _ => s
  end.

(** [s[a:a+2]] for a non-negative [a] *)
Definition slice2 (s : string) (a : nat) : string := substring a 2 s.

(** Spaces to [int()]: ASCII 9-13, 28-31 and 32. *)
Definition is_space (c : ascii) : bool :=
  let n := Z.of_nat (nat_of_ascii c) in
  ((9 <=? n) && (n <=? 13)) || ((28 <=? n) && (n <=? 32)).

(** [int(s, 16)] on a text of at most two characters (all a slice can
    hold): hex digits, one of them possibly replaced by a space on
    either side or by a leading sign. *)
Definition int16 (s : string) : result Z :=
  match s with
  | String c EmptyString =>
      match ColorHelpers.hex_digit c with
      | Some h => Ok h
      | None => Raise ValueError
      end
  | String c1 (String c2 EmptyString) =>
      match ColorHelpers.hex_digit c1, ColorHelpers.hex_digit c2 with
      | Some h, Some l => Ok (16 * h + l)
      | None, Some l =>
          if is_space c1 || bool_decide (c1 = "+"%char) then Ok l
          else if bool_decide (c1 = "-"%char) then Ok (- l)
          else Raise ValueError
      | Some h, None => if is_space c2 then Ok h else Raise ValueError
      | None, None => Raise ValueError
      end
  | _ => Raise ValueError
  end.

Definition hex_to_rgb (hex_color : string) : result (list Z) :=
  (* Handle shorthand hex format *)
  let hex_color :=
    match ColorHelpers.shorthand_regex hex_color with
    | Some (r, g, b) =>
        String "#" (String r (String r (String g (String g
          (String b (String b ""))))))
    | None => hex_color
    end in
  (* Remove # and parse *)
  let hex_color := lstrip_hash hex_color in
  r ← int16 (slice2 hex_color 0);
  g ← int16 (slice2 hex_color 2);
  b ← int16 (slice2 hex_color 4);
  Ok [r; g; b].

(** [image_data[i] = v] on a uint8 array: numpy refuses a Python integer
    outside 0..255. *)
Definition store_uint8 (data : list Z) (i v : Z) : result (list Z) :=
  if (v <? 0) || (255 <? v) then Raise OverflowError else py_store data i v.

(** The scan [for idx, orig_color in enumerate(original_colors_rgb)] with
    its [break]: the first entry equal to the pixel at [i], with its index. *)
Fixpoint find_match (image_data : list Z) (i : Z)
    (original_colors_rgb : list (list Z)) (idx : Z)
  : result (option (list Z * Z)) :=
  match original_colors_rgb with
  | [] => Ok None
  | orig_color :: rest =>
      p0 ← py_index image_data i; o0 ← py_index orig_color 0;
      if negb (p0 =? o0) then find_match image_data i rest (idx + 1) else
      p1 ← py_index image_data (i + 1); o1 ← py_index orig_color 1;
      if negb (p1 =? o1) then find_match image_data i rest (idx + 1) else
      p2 ← py_index image_data (i + 2); o2 ← py_index orig_color 2;
      if negb (p2 =? o2) then find_match image_data i rest (idx + 1) else
      Ok (Some (orig_color, idx))
  end.

(** A loop body either goes on with a new state or returns from the
    function. *)
Inductive control (S V : Type) : Type :=
| Continue (st : S)
| Return (v : V).
Arguments Continue {S V} st.
Arguments Return {S V} v.

Fixpoint for_each_return {S X V} (body : S -> X -> result (control S V))
    (xs : list X) (st : S) : result (control S V) :=
  match xs with
  | [] => Ok (Continue st)
  | x :: xs' =>
      c ← body st x;
      match c with
      | Continue st' => for_each_return body xs' st'
      | Return v => Ok (Return v)
      end
  end.

(** The body of [for i in range(0, len(image_data), 4)]; the state is the
    sample array and [error_colors]. *)
Definition replace_pixel (original_colors_rgb replace_colors_rgb : list (list Z))
    (st : list Z * Z) (i : Z) : result (control (list Z * Z) (option image)) :=
  let '(image_data, error_colors) := st in
  (* Find matching original color *)
  found ← find_match image_data i original_colors_rgb 0;
  match found with
  | Some (color_rgb, color_index) =>
      (* Get the corresponding replacement color *)
      if color_index <? Z.of_nat (length replace_colors_rgb) then
        color_map_rgb ← py_index replace_colors_rgb color_index;
        c0 ← py_index color_map_rgb 0; image_data ← store_uint8 image_data i c0;
        c1 ← py_index color_map_rgb 1; image_data ← store_uint8 image_data (i + 1) c1;
        c2 ← py_index color_map_rgb 2; image_data ← store_uint8 image_data (i + 2) c2;
        Ok (Continue (image_data, error_colors))
      else
        (* No matching replacement color - return early *)
        Ok (Return None)
  | None => Ok (Continue (image_data, error_colors + 1))
  end.

(** What a call leaves behind: the value returned and the count the
    diagnostic line prints, when it prints. *)
Record outcome : Set := { returned : option image; printed : option Z }.

Definition replace_colors (source_image : image)
    (original_colors replace_colors_list : list string) : result outcome :=
  let width := width source_image in
  let height := height source_image in
  let image_data := samples source_image in
  (* Convert colors to RGB *)
  original_colors_rgb ← list_comp hex_to_rgb original_colors;
  replace_colors_rgb ← list_comp hex_to_rgb replace_colors_list;
  let error_colors := 0 in
  c ← for_each_return (replace_pixel original_colors_rgb replace_colors_rgb)
        (py_range4 (Z.of_nat (length image_data))) (image_data, error_colors);
  match c with
  | Return v => Ok {| returned := v; printed := None |}
  | Continue (image_data, error_colors) =>
      let printed := if 0 <? error_colors then Some error_colors else None in
      (* Convert back to PIL Image *)
      if negb (Z.of_nat (length image_data) =? height * width * 4)
      then Raise ValueError
      else Ok {| returned := Some {| width := width; height := height;
                                     samples := image_data |};
                 printed := printed |}
  end.

End ReplaceColors.

(** ** Vocabulary of the statements *)

(** Every integer of [0 .. n-1] occurs exactly once among the cells. *)
Definition each_once (matrix : list (list Z)) (n : Z) : Prop :=
  forall v, 0 <= v < n -> count_occ Z.eq_dec (concat matrix) v = 1%nat.

Definition each_onceb (matrix : list (list Z)) (n : Z) : bool :=
  forallb (fun v => Nat.eqb (count_occ Z.eq_dec (concat matrix) v) 1) (py_range n).

(** The coordinates a kernel entry aims at from the pixel whose first
    sample is [current_pixel], and the bounds test of the raster pass. *)
Definition target_xy (width current_pixel : Z) (d : diffusion) : Z * Z :=
  ((current_pixel / 4) mod width + (offset d).1,
   (current_pixel / 4) / width + (offset d).2).

Definition outside (width height : Z) (t : Z * Z) : bool :=
  (t.1 <? 0) || (width <=? t.1) || (t.2 <? 0) || (height <=? t.2).

(** Row-major number of the pixel at [t]. *)
Definition raster_index (width : Z) (t : Z * Z) : Z := t.2 * width + t.1.

(** An entry that points right on the same row or anywhere on a later row. *)
Definition forward (d : diffusion) : bool :=
  (0 <? (offset d).2) || (((offset d).2 =? 0) && (0 <? (offset d).1)).

(** The sample array after [set_pixel] has stored four clamped samples
    from position [n] on. *)
Definition write4 (data : list Q) (n : nat) (a b c d : Q) : list Q :=
  <[(n + 3)%nat := d]> (<[(n + 2)%nat := c]> (<[(n + 1)%nat := b]> (<[n := a]> data))).

(** The radicand [distance_in_color_space] hands to [math.sqrt]. *)
Definition sq_distance (c p : color) : Q :=
  let r := (nth 0 c 0 - nth 0 p 0)%Q in
  let g := (nth 1 c 0 - nth 1 p 0)%Q in
  let b := (nth 2 c 0 - nth 2 p 0)%Q in
  (r * r + g * g + b * b)%Q.

(** Euclidean distance over R, G, B as a real number. *)
Definition euclidean_rgb (c p : color) : R :=
  sqrt ((Q2R (nth 0 c 0%Q) - Q2R (nth 0 p 0%Q)) ^ 2 +
        (Q2R (nth 1 c 0%Q) - Q2R (nth 1 p 0%Q)) ^ 2 +
        (Q2R (nth 2 c 0%Q) - Q2R (nth 2 p 0%Q)) ^ 2)%R.

(** The entry the first loop of [find_closest_palette_color] builds. *)
Definition entry_of (pixel c : color) : color_entry :=
  {| distance := math_sqrt (sq_distance c pixel); color_of := c |}.

(** The four samples of pixel number [k]. *)
Definition pixel_at {A} (data : list A) (k : nat) : list A :=
  take 4 (drop (4 * k) data).

(** Modelled from the spec: the table of [data/default_palettes.json] is
    not among the sources.  This sample carries the four names the
    docstrings list and the default palette the tests pin down (black,
    white); the colours of the other three palettes are stand-ins of the
    sizes the tests give (4, 6 and 7). *)
Definition sample_PALETTES : gmap string (list string) :=
  list_to_map
    [ ("default", ["#000"; "#fff"]);
      ("gameboy", ["#0f380f"; "#306230"; "#8bac0f"; "#9bbc0f"]);
      ("spectra6", ["#000"; "#fff"; "#ff0"; "#f00"; "#00f"; "#0f0"]);
      ("acep", ["#000"; "#fff"; "#0f0"; "#00f"; "#f00"; "#ff0"; "#f80"]) ]%string.

(** A palette as [set_color_palette] builds it: every entry that is not
    [None] is a triple of integers within 0..255. *)
Definition hex_palette (color_palette : list (option color)) : Prop :=
  forall l, Some l ∈ color_palette ->
    exists r g b, l = [num r; num g; num b] /\
                  0 <= r <= 255 /\ 0 <= g <= 255 /\ 0 <= b <= 255.

(** A [ditheringType] that is none of the values the raster pass tests
    for. *)
Definition unrecognized (t : string) : Prop :=
  t <> ""%string /\ t <> "quantizationOnly"%string /\ t <> "random"%string /\
  t <> "ordered"%string /\ t <> "errorDiffusion"%string.

(** The modes that consult the palette. *)
Definition quantizing (t : string) : Prop :=
  t = ""%string \/ t = "quantizationOnly"%string \/
  t = "ordered"%string \/ t = "errorDiffusion"%string.

(** A caller's dictionary with a dithering type and a colour list. *)
Definition with_type_and_colors (t : string) (colors : list string)
  : option user_options :=
  Some {| u_ditheringType := Some t;
          u_errorDiffusionMatrix := None;
          u_orderedDitheringMatrix := None;
          u_randomDitheringType := None;
          u_palette := Some (PaletteList colors) |}.

(** A caller's dictionary with a colour list only. *)
Definition with_colors (colors : list string) : option user_options :=
  Some {| u_ditheringType := None;
          u_errorDiffusionMatrix := None;
          u_orderedDitheringMatrix := None;
          u_randomDitheringType := None;
          u_palette := Some (PaletteList colors) |}.

(** A one-pixel image. *)
Definition one_pixel (r g b a : Z) : image :=
  {| width := 1; height := 1; samples := [r; g; b; a] |}.

(** The first entry of [original] equal to the triple [rgb], with its
    index counted from [idx]. *)
Fixpoint first_match (rgb : list Z) (original : list (list Z)) (idx : Z)
  : option (list Z * Z) :=
  match original with
  | [] => None
  | c :: rest =>
      if bool_decide (c = rgb) then Some (c, idx)
      else first_match rgb rest (idx + 1)
  end.

(** The RGB triple of pixel [k]. *)
Definition rgb_at (samples : list Z) (k : nat) : list Z :=
  take 3 (pixel_at samples k).

(** How many of the first [n] pixels match no entry of [original]. *)
Definition unmatched (samples : list Z) (original : list (list Z)) (n : nat) : Z :=
  Z.of_nat (length (filter (fun k => first_match (rgb_at samples k) original 0 = None)
                           (seq 0 n))).

(** The sample array after the three stores of a replacement. *)
Definition write3 (data : list Z) (n : nat) (r g b : Z) : list Z :=
  <[(n + 2)%nat := b]> (<[(n + 1)%nat := g]> (<[n := r]> data)).

(** A threshold matrix with at least one row, all rows of one positive
    length. *)
Definition rectangular (threshold_map : list (list Z)) : bool :=
  match threshold_map with
  | [] => false
  | row0 :: _ =>
      (0 <? Z.of_nat (length row0))
      && forallb (fun row => Nat.eqb (length row) (length row0)) threshold_map
  end.

(** The cell in row [i], column [j] of a matrix. *)
Definition cell (matrix : list (list Z)) (i j : nat) : option Z :=
  row ← matrix !! i; row !! j.

(** [rows] rows of [cols] cells each, every cell within [0 .. rows*cols-1]. *)
Definition shape_and_range (matrix : list (list Z)) (rows cols : Z) : bool :=
  (Z.of_nat (length matrix) =? rows)
  && forallb (fun row =>
       (Z.of_nat (length row) =? cols)
       && forallb (fun v => (0 <=? v) && (v <? rows * cols)) row) matrix.

(** Cell (y, x) of [matrix] compares to cell (y', x') as cell (x, y) of
    [base] compares to cell (x', y'), for all cells of [matrix]. *)
Definition order_of_transpose (matrix base : list (list Z)) : bool :=
  let positions :=
    y ← seq 0 (length matrix);
    x ← seq 0 (length (default [] (matrix !! y)));
    [(y, x)] in
  forallb (fun p => forallb (fun q =>
    match cell matrix p.1 p.2, cell matrix q.1 q.2,
          cell base p.2 p.1, cell base q.2 q.1 with
    | Some v, Some v', Some s, Some s' => Bool.eqb (v <=? v') (s <=? s')
    | _, _, _, _ => false
    end) positions) positions.

(** The sum of the weights of a kernel. *)
Definition total_weight (kernel : list diffusion) : Q :=
  foldr Qplus 0%Q (factor <$> kernel).

(** Positive weights; reach of at most two columns either way and two rows
    down; no two entries with the same offset; total weight within
    [47/48, 1]. *)
Definition well_formed_kernel (kernel : list diffusion) : bool :=
  forallb (fun d => Qltb 0 (factor d)
                    && (-2 <=? (offset d).1) && ((offset d).1 <=? 2)
                    && (0 <=? (offset d).2) && ((offset d).2 <=? 2)) kernel
  && bool_decide (NoDup (offset <$> kernel))
  && Qle_bool (47 # 48) (total_weight kernel)
  && Qle_bool (total_weight kernel) 1.

(** The pixel a replacement pass that runs to the end leaves at position
    [k]: the replacement of the first match with the alpha kept, or the
    pixel as it was. *)
Definition replaced_pixel (samples : list Z) (original replacement : list (list Z))
    (k : nat) : list Z :=
  match first_match (rgb_at samples k) original 0 with
  | Some (_, idx) =>
      default [] (replacement !! Z.to_nat idx) ++ drop 3 (pixel_at samples k)
  | None => pixel_at samples k
  end.

(** Squared distance between two RGB triples of integers. *)
Definition sq_dist_rgb (c p : Z * Z * Z) : Z :=
  let '(r, g, b) := c in
  let '(pr, pg, pb) := p in
  (r - pr) * (r - pr) + (g - pg) * (g - pg) + (b - pb) * (b - pb).

(** The caller's dictionary [u] with its palette set to [p]. *)
Definition with_palette (u : user_options) (p : palette_option) : user_options :=
  {| u_ditheringType := u_ditheringType u;
     u_errorDiffusionMatrix := u_errorDiffusionMatrix u;
     u_orderedDitheringMatrix := u_orderedDitheringMatrix u;
     u_randomDitheringType := u_randomDitheringType u;
     u_palette := Some p |}.

(** A float array whose samples have the values of an integer array. *)
Definition approx (data : list Q) (samples : list Z) : Prop :=
  Forall2 (fun q z => (q == num z)%Q) data samples.

(** * Properties *)

(** ** The embedding against the repository's tests *)

Example test_shorthand_hex :
  ColorHelpers.hex_to_rgb "#fff" = Some [255; 255; 255] /\
  ColorHelpers.hex_to_rgb "#f00" = Some [255; 0; 0] /\
  ColorHelpers.hex_to_rgb "#00f" = Some [0; 0; 255].
Proof. repeat split; reflexivity. Qed.

Example test_without_hash :
  ColorHelpers.hex_to_rgb "fff" = Some [255; 255; 255] /\
  ColorHelpers.hex_to_rgb "123456" = Some [18; 52; 86] /\
  ColorHelpers.hex_to_rgb "#ABCDEF" = ColorHelpers.hex_to_rgb "#abcdef".
Proof. repeat split; reflexivity. Qed.

Example test_invalid_hex :
  ColorHelpers.hex_to_rgb "invalid" = None /\
  ColorHelpers.hex_to_rgb "#gg0000" = None /\
  ColorHelpers.hex_to_rgb "#12345" = None.
Proof. repeat split; reflexivity. Qed.

Example test_1x1_and_2x2_matrix :
  create_bayer_matrix (1, 1) = Ok [[0]] /\
  create_bayer_matrix (2, 2) = Ok [[0; 2]; [3; 1]].
Proof. split; vm_compute; reflexivity. Qed.

Example test_max_size_clamping : create_bayer_matrix (10, 10) = Ok big_matrix.
Proof. reflexivity. Qed.

Example test_pixel_xy :
  pixel_xy 0 100 = Ok (0, 0) /\ pixel_xy 9 10 = Ok (9, 0) /\
  pixel_xy 10 10 = Ok (0, 1).
Proof. repeat split; reflexivity. Qed.

Example test_get_diffusion_map :
  get_diffusion_map "Sierra2-4A" = sierra2_4a /\
  get_diffusion_map "nonexistent" = floyd_steinberg.
Proof. split; vm_compute; reflexivity. Qed.

Example test_positive_error :
  get_quant_error [200; 200; 200; 255]%Q [100; 100; 100; 255]%Q
  = Ok [200 - 100; 200 - 100; 200 - 100; 255 - 255]%Q.
Proof. reflexivity. Qed.

Example test_preserves_existing_alpha :
  find_closest_palette_color [50; 50; 50; 255]%Q [Some [0; 0; 0; 128]%Q]
  = Ok [0; 0; 0; 128]%Q.
Proof. reflexivity. Qed.

Example test_string_palette_name :
  set_color_palette sample_PALETTES (PaletteName "default")
  = Ok [Some [0; 0; 0]; Some [255; 255; 255]]%Q /\
  set_color_palette sample_PALETTES (PaletteName "nonexistent")
  = set_color_palette sample_PALETTES (PaletteName "default").
Proof. split; reflexivity. Qed.

(** The quantisation-only scenario of the specification. *)
Example scenario_quantization_only :
  dither_image sample_PALETTES (fun _ => 0)
    (Some {| width := 2; height := 2;
             samples := [10; 10; 10; 255; 250; 250; 250; 255;
                         0; 0; 0; 255; 200; 200; 200; 255] |})
    (Some {| u_ditheringType := Some "quantizationOnly"%string;
             u_errorDiffusionMatrix := None; u_orderedDitheringMatrix := None;
             u_randomDitheringType := None; u_palette := None |})
  = Ok (Some {| width := 2; height := 2;
                samples := [0; 0; 0; 255; 255; 255; 255; 255;
                            0; 0; 0; 255; 255; 255; 255; 255] |}).
Proof. vm_compute. reflexivity. Qed.

(** The one-pixel Floyd-Steinberg scenario: mid grey becomes white. *)
Example scenario_floyd_steinberg_1x1 :
  dither_image sample_PALETTES (fun _ => 0) (Some (one_pixel 128 128 128 255)) None
  = Ok (Some (one_pixel 255 255 255 255)).
Proof. vm_compute. reflexivity. Qed.

(** A missing image is passed through. *)
Example test_none_input_returns_none :
  dither_image sample_PALETTES (fun _ => 0) None None = Ok None.
Proof. reflexivity. Qed.

(** ** Runtime lemmas *)

Lemma bind_Ok {A B} (m : result A) (k : A -> result B) (b : B) :
  m ≫= k = Ok b -> exists a, m = Ok a /\ k a = Ok b.
Proof. destruct m as [a|e]; simpl; [eauto | discriminate]. Qed.

Lemma bind_Ok_l {A B} (a : A) (k : A -> result B) : Ok a ≫= k = k a.
Proof. reflexivity. Qed.

Lemma py_index_in_range {A} (xs : list A) (i : Z) (a : A) :
  0 <= i -> xs !! Z.to_nat i = Some a -> py_index xs i = Ok a.
Proof.
  intros Hi Hl. unfold py_index.
  pose proof (lookup_lt_Some _ _ _ Hl) as Hlt.
  destruct (i <? 0) eqn:E1; [apply Z.ltb_lt in E1; lia|].
  rewrite E1. simpl.
  destruct (Z.of_nat (length xs) <=? i) eqn:E2; [apply Z.leb_le in E2; lia|].
  by rewrite Hl.
Qed.

Lemma py_index_Ok_nonneg {A} (xs : list A) (i : Z) (a : A) :
  0 <= i -> py_index xs i = Ok a -> xs !! Z.to_nat i = Some a.
Proof.
  intros Hi. unfold py_index.
  destruct (i <? 0) eqn:E1; [apply Z.ltb_lt in E1; lia|].
  rewrite E1. simpl.
  destruct (Z.of_nat (length xs) <=? i); [discriminate|].
  destruct (xs !! Z.to_nat i); [|discriminate]. by intros [= ->].
Qed.

Lemma py_store_in_range {A} (xs : list A) (i : Z) (v : A) :
  0 <= i < Z.of_nat (length xs) ->
  py_store xs i v = Ok (<[Z.to_nat i := v]> xs).
Proof.
  intros Hi. unfold py_store.
  destruct (i <? 0) eqn:E1; [apply Z.ltb_lt in E1; lia|].
  rewrite E1. simpl.
  destruct (Z.of_nat (length xs) <=? i) eqn:E2; [apply Z.leb_le in E2; lia|done].
Qed.

Lemma py_range4_pixels (n : nat) :
  py_range4 (Z.of_nat (4 * n)) = (fun k => 4 * Z.of_nat k) <$> seq 0 n.
Proof.
  unfold py_range4. do 2 f_equal.
  replace (Z.of_nat (4 * n) + 3) with (3 + Z.of_nat n * 4) by lia.
  rewrite Z.div_add by lia. change (3 / 4) with 0. lia.
Qed.

(** A loop whose body keeps an invariant and never raises runs to the end. *)
Lemma for_each_total {S X} (Inv : nat -> S -> Prop) (body : S -> X -> result S)
    (f : nat -> X) (n : nat) :
  (forall k st, (k < n)%nat -> Inv k st ->
     exists st', body st (f k) = Ok st' /\ Inv (Datatypes.S k) st') ->
  forall st0, Inv 0%nat st0 ->
  exists st, for_each body (f <$> seq 0 n) st0 = Ok st /\ Inv n st.
Proof.
  intros Hstep.
  assert (Hgen : forall m s st0, (s + m = n)%nat -> Inv s st0 ->
            exists st, for_each body (f <$> seq s m) st0 = Ok st /\ Inv n st).
  { induction m as [|m IH]; intros s st0 Hs H0; simpl.
    - replace n with s by lia. eauto.
    - destruct (Hstep s st0) as (st' & -> & H'); [lia|done|]. simpl.
      apply IH; [lia|done]. }
  intros st0 H0. by apply (Hgen n 0%nat).
Qed.

(** The same for a body that may raise: whenever the loop finishes, the
    invariant holds of its final state. *)
Lemma for_each_partial {S X} (Inv : nat -> S -> Prop) (body : S -> X -> result S)
    (f : nat -> X) (n : nat) :
  (forall k st st', (k < n)%nat -> Inv k st ->
     body st (f k) = Ok st' -> Inv (Datatypes.S k) st') ->
  forall st0 st, Inv 0%nat st0 ->
  for_each body (f <$> seq 0 n) st0 = Ok st -> Inv n st.
Proof.
  intros Hstep.
  assert (Hgen : forall m s st0 st, (s + m = n)%nat -> Inv s st0 ->
            for_each body (f <$> seq s m) st0 = Ok st -> Inv n st).
  { induction m as [|m IH]; intros s st0 st Hs H0; simpl.
    - intros [= <-]. by replace n with s by lia.
    - intros Hrun. apply bind_Ok in Hrun as (st' & Hb & Hrun).
      apply (IH (Datatypes.S s) st' st); [lia| |done].
      apply (Hstep s st0 st'); [lia|done|done]. }
  intros st0 st H0. by apply (Hgen n 0%nat).
Qed.

(** ** The threshold matrix *)

Lemma elem_of_py_range (n v : Z) : v ∈ py_range n <-> 0 <= v < n.
Proof.
  unfold py_range. rewrite list_elem_of_fmap. split.
  - intros (k & -> & Hk). apply elem_of_seq in Hk. lia.
  - intros Hv. exists (Z.to_nat v). split; [lia|]. apply elem_of_seq. lia.
Qed.

Lemma each_onceb_spec (matrix : list (list Z)) (n : Z) :
  each_onceb matrix n = true <-> each_once matrix n.
Proof.
  unfold each_onceb, each_once. rewrite forallb_forall. split.
  - intros H v Hv. apply Nat.eqb_eq, H, list_elem_of_In, elem_of_py_range, Hv.
  - intros H v Hv. apply Nat.eqb_eq, H, elem_of_py_range, list_elem_of_In, Hv.
Qed.

(** Which of the 64 sizes give a complete matrix: all but (8,8) and the
    four sizes that sample both cells holding 32. *)
Lemma bayer_complete_table :
  forallb (fun w => forallb (fun h =>
    match create_bayer_matrix (w, h) with
    | Ok m => Bool.eqb (each_onceb m (w * h)) (negb ((h =? 8) && (4 <=? w)))
    | Raise _ => false
    end) (Z.succ <$> py_range 8)) (Z.succ <$> py_range 8) = true.
Proof. vm_compute. reflexivity. Qed.

Lemma bayer_complete_sizes (w h : Z) :
  1 <= w <= 8 -> 1 <= h <= 8 ->
  exists m, create_bayer_matrix (w, h) = Ok m /\
            (each_once m (w * h) <-> ~ (h = 8 /\ 4 <= w)).
Proof.
  intros Hw Hh.
  assert (Hin : forall v, 1 <= v <= 8 -> In v (Z.succ <$> py_range 8)).
  { intros v Hv. apply list_elem_of_In, list_elem_of_fmap. exists (v - 1).
    split; [lia|]. apply elem_of_py_range. lia. }
  pose proof bayer_complete_table as T.
  rewrite forallb_forall in T. specialize (T w (Hin w Hw)).
  rewrite forallb_forall in T. specialize (T h (Hin h Hh)).
  destruct (create_bayer_matrix (w, h)) as [m|]; [|discriminate].
  exists m. split; [done|]. rewrite <- each_onceb_spec.
  apply Bool.eqb_prop in T. rewrite T.
  rewrite Bool.negb_true_iff, Bool.andb_false_iff, Z.eqb_neq, Z.leb_gt. lia.
Qed.

(** C2. Bayer matrix completeness fails on the code at size (8,8): the
    literal 8x8 matrix is returned as it is, and it holds 32 twice (rows 1
    and 3) and 23 nowhere, so it does not contain each of 0..63 exactly
    once. *)
Theorem bayer_8x8_repeats_32 :
  create_bayer_matrix (8, 8) = Ok big_matrix /\
  count_occ Z.eq_dec (concat big_matrix) 32 = 2%nat /\
  count_occ Z.eq_dec (concat big_matrix) 23 = 0%nat /\
  ~ each_once big_matrix (8 * 8).
Proof.
  repeat split; try reflexivity.
  intros H. specialize (H 32 ltac:(lia)). vm_compute in H. discriminate.
Qed.

(** ** Pixel access *)

Lemma py_store_Ok_nonneg {A} (xs xs' : list A) (i : Z) (v : A) :
  0 <= i -> py_store xs i v = Ok xs' ->
  i < Z.of_nat (length xs) /\ xs' = <[Z.to_nat i := v]> xs.
Proof.
  intros Hi. unfold py_store.
  destruct (i <? 0) eqn:E1; [apply Z.ltb_lt in E1; lia|].
  rewrite E1. simpl.
  destruct (Z.of_nat (length xs) <=? i) eqn:E2; [discriminate|].
  apply Z.leb_gt in E2. by intros [= <-].
Qed.

Lemma write4_length data n a b c d : length (write4 data n a b c d) = length data.
Proof. unfold write4. by rewrite !length_insert. Qed.

Lemma write4_lookup_other data n a b c d (j : nat) :
  (j < n \/ n + 4 <= j)%nat -> write4 data n a b c d !! j = data !! j.
Proof.
  intros Hj. unfold write4. rewrite !list_lookup_insert_ne by lia. done.
Qed.

Lemma write4_lookup data n a b c d :
  (n + 3 < length data)%nat ->
  write4 data n a b c d !! n = Some a /\
  write4 data n a b c d !! (n + 1)%nat = Some b /\
  write4 data n a b c d !! (n + 2)%nat = Some c /\
  write4 data n a b c d !! (n + 3)%nat = Some d.
Proof.
  intros Hn. unfold write4. repeat split.
  - rewrite !list_lookup_insert_ne by lia.
    apply list_lookup_insert_eq. lia.
  - rewrite !list_lookup_insert_ne by lia.
    apply list_lookup_insert_eq. rewrite length_insert. lia.
  - rewrite !list_lookup_insert_ne by lia.
    apply list_lookup_insert_eq. rewrite !length_insert. lia.
  - apply list_lookup_insert_eq. rewrite !length_insert. lia.
Qed.

Lemma set_pixel_in_range data (i : Z) v0 v1 v2 v3 rest :
  0 <= i -> i + 3 < Z.of_nat (length data) ->
  set_pixel data i (v0 :: v1 :: v2 :: v3 :: rest) =
  Ok (write4 data (Z.to_nat i)
        (clamp_uint8 v0) (clamp_uint8 v1) (clamp_uint8 v2) (clamp_uint8 v3)).
Proof.
  intros Hi Hlen. unfold set_pixel, write4.
  rewrite (py_index_in_range _ 0 v0) by (done || lia). simpl.
  rewrite py_store_in_range by lia. simpl.
  rewrite (py_index_in_range _ 1 v1) by (done || lia). simpl.
  rewrite py_store_in_range by (rewrite !length_insert; lia). simpl.
  rewrite (py_index_in_range _ 2 v2) by (done || lia). simpl.
  rewrite py_store_in_range by (rewrite !length_insert; lia). simpl.
  rewrite (py_index_in_range _ 3 v3) by (done || lia). simpl.
  rewrite py_store_in_range by (rewrite !length_insert; lia).
  replace (Z.to_nat (i + 1)) with (Z.to_nat i + 1)%nat by lia.
  replace (Z.to_nat (i + 2)) with (Z.to_nat i + 2)%nat by lia.
  replace (Z.to_nat (i + 3)) with (Z.to_nat i + 3)%nat by lia.
  done.
Qed.

Lemma set_pixel_Ok data data' (i : Z) pixel :
  0 <= i -> set_pixel data i pixel = Ok data' ->
  exists v0 v1 v2 v3 rest,
    pixel = v0 :: v1 :: v2 :: v3 :: rest /\
    i + 3 < Z.of_nat (length data) /\
    data' = write4 data (Z.to_nat i)
              (clamp_uint8 v0) (clamp_uint8 v1) (clamp_uint8 v2) (clamp_uint8 v3).
Proof.
  intros Hi Hset.
  destruct pixel as [|v0 [|v1 [|v2 [|v3 rest]]]];
    try (unfold set_pixel in Hset;
         repeat (apply bind_Ok in Hset as (? & Hread & Hset);
                 try (vm_compute in Hread; discriminate));
         vm_compute in Hset; discriminate).
  - unfold set_pixel in Hset.
    apply bind_Ok in Hset as (? & _ & Hset).
    apply bind_Ok in Hset as (? & _ & Hset).
    apply bind_Ok in Hset as (? & Hread & Hset). vm_compute in Hread. discriminate.
  - unfold set_pixel in Hset.
    do 4 apply bind_Ok in Hset as (? & _ & Hset).
    apply bind_Ok in Hset as (? & Hread & Hset). vm_compute in Hread. discriminate.
  - unfold set_pixel in Hset.
    do 6 apply bind_Ok in Hset as (? & _ & Hset).
    apply bind_Ok in Hset as (? & Hread & Hset). vm_compute in Hread. discriminate.
  - exists v0, v1, v2, v3, rest. split; [done|].
    assert (Hlen : i + 3 < Z.of_nat (length data)).
    { unfold set_pixel in Hset.
      apply bind_Ok in Hset as (? & _ & Hset).
      apply bind_Ok in Hset as (d1 & H1 & Hset).
      apply bind_Ok in Hset as (? & _ & Hset).
      apply bind_Ok in Hset as (d2 & H2 & Hset).
      apply bind_Ok in Hset as (? & _ & Hset).
      apply bind_Ok in Hset as (d3 & H3 & Hset).
      apply bind_Ok in Hset as (? & _ & Hset).
      apply py_store_Ok_nonneg in H1 as [_ ->]; [|lia].
      apply py_store_Ok_nonneg in H2 as [_ ->]; [|lia].
      apply py_store_Ok_nonneg in H3 as [_ ->]; [|lia].
      apply py_store_Ok_nonneg in Hset as [Hlt _]; [|lia].
      rewrite !length_insert in Hlt. lia. }
    split; [done|].
    rewrite set_pixel_in_range in Hset by done. by injection Hset as <-.
Qed.

Lemma get_pixel_in_range data (i : Z) a b c d :
  0 <= i ->
  data !! Z.to_nat i = Some a -> data !! (Z.to_nat i + 1)%nat = Some b ->
  data !! (Z.to_nat i + 2)%nat = Some c -> data !! (Z.to_nat i + 3)%nat = Some d ->
  get_pixel_color_values i data = Ok [a; b; c; d].
Proof.
  intros Hi Ha Hb Hc Hd. unfold get_pixel_color_values.
  rewrite (py_index_in_range _ i a) by done. simpl.
  rewrite (py_index_in_range _ (i + 1) b)
    by (lia || by replace (Z.to_nat (i + 1)) with (Z.to_nat i + 1)%nat by lia).
  simpl.
  rewrite (py_index_in_range _ (i + 2) c)
    by (lia || by replace (Z.to_nat (i + 2)) with (Z.to_nat i + 2)%nat by lia).
  simpl.
  rewrite (py_index_in_range _ (i + 3) d)
    by (lia || by replace (Z.to_nat (i + 3)) with (Z.to_nat i + 3)%nat by lia).
  done.
Qed.

Lemma get_pixel_Ok data (i : Z) pixel :
  0 <= i -> get_pixel_color_values i data = Ok pixel ->
  exists a b c d,
    pixel = [a; b; c; d] /\
    data !! Z.to_nat i = Some a /\ data !! (Z.to_nat i + 1)%nat = Some b /\
    data !! (Z.to_nat i + 2)%nat = Some c /\ data !! (Z.to_nat i + 3)%nat = Some d.
Proof.
  intros Hi Hget. unfold get_pixel_color_values in Hget.
  apply bind_Ok in Hget as (a & Ha & Hget).
  apply bind_Ok in Hget as (b & Hb & Hget).
  apply bind_Ok in Hget as (c & Hc & Hget).
  apply bind_Ok in Hget as (d & Hd & Hget).
  injection Hget as <-. exists a, b, c, d.
  apply py_index_Ok_nonneg in Ha, Hb, Hc, Hd; try lia.
  replace (Z.to_nat (i + 1)) with (Z.to_nat i + 1)%nat in Hb by lia.
  replace (Z.to_nat (i + 2)) with (Z.to_nat i + 2)%nat in Hc by lia.
  replace (Z.to_nat (i + 3)) with (Z.to_nat i + 3)%nat in Hd by lia.
  done.
Qed.

(** Four samples are there to read wherever a whole pixel fits. *)
Lemma get_pixel_total data (i : Z) :
  0 <= i -> i + 3 < Z.of_nat (length data) ->
  exists a b c d,
    get_pixel_color_values i data = Ok [a; b; c; d] /\
    data !! Z.to_nat i = Some a /\ data !! (Z.to_nat i + 1)%nat = Some b /\
    data !! (Z.to_nat i + 2)%nat = Some c /\ data !! (Z.to_nat i + 3)%nat = Some d.
Proof.
  intros Hi Hlen.
  destruct (lookup_lt_is_Some_2 data (Z.to_nat i)) as [a Ha]; [lia|].
  destruct (lookup_lt_is_Some_2 data (Z.to_nat i + 1)) as [b Hb]; [lia|].
  destruct (lookup_lt_is_Some_2 data (Z.to_nat i + 2)) as [c Hc]; [lia|].
  destruct (lookup_lt_is_Some_2 data (Z.to_nat i + 3)) as [d Hd]; [lia|].
  exists a, b, c, d. split; [|done]. by apply get_pixel_in_range.
Qed.

(** ** The kernel catalogue and one deposit *)

Lemma catalog_forward (name : string) :
  Forall (fun d => forward d = true) (get_diffusion_map name).
Proof.
  unfold get_diffusion_map.
  destruct (_ !! name) as [kernel|] eqn:E.
  - apply elem_of_list_to_map_2 in E. unfold DIFFUSION_MAPS in E.
    repeat (apply elem_of_cons in E as [[= _ ->]|E];
            [by repeat constructor|]).
    by apply elem_of_nil in E.
  - by repeat constructor.
Qed.

Lemma outside_false (width height : Z) (t : Z * Z) :
  outside width height t = false <->
  0 <= t.1 < width /\ 0 <= t.2 < height.
Proof.
  unfold outside. rewrite !Bool.orb_false_iff, !Z.ltb_ge, !Z.leb_gt. lia.
Qed.

(** The arithmetic of a forward entry: an in-bounds target lies strictly
    after the source pixel in raster order. *)
Lemma forward_target_later (width height current_pixel : Z) (d : diffusion) :
  0 < width -> 0 <= current_pixel -> forward d = true ->
  outside width height (target_xy width current_pixel d) = false ->
  current_pixel / 4 < raster_index width (target_xy width current_pixel d).
Proof.
  intros Hw Hc Hf Hin. apply outside_false in Hin as [Hx Hy].
  unfold raster_index, target_xy in *. simpl in *.
  set (k := current_pixel / 4) in *.
  assert (Hk : 0 <= k) by (apply Z.div_pos; lia).
  pose proof (Z.mod_pos_bound k width Hw) as Hm.
  pose proof (Z.div_mod k width ltac:(lia)) as Hdm.
  unfold forward in Hf.
  apply Bool.orb_true_iff in Hf as [Hf|Hf].
  - apply Z.ltb_lt in Hf. nia.
  - apply Bool.andb_true_iff in Hf as [H0 H1].
    apply Z.eqb_eq in H0. apply Z.ltb_lt in H1. nia.
Qed.

Lemma diffuse_outside (width height current_pixel : Z) quant_error data d :
  0 < width ->
  outside width height (target_xy width current_pixel d) = true ->
  diffuse width height current_pixel quant_error data d = Ok data.
Proof.
  intros Hw Hout. unfold diffuse.
  destruct (width =? 0) eqn:E; [apply Z.eqb_eq in E; lia|].
  unfold outside, target_xy in Hout. simpl in Hout. by rewrite Hout.
Qed.

Lemma add_quant_error_4 (a b c d e0 e1 e2 e3 f : Q) :
  add_quant_error [a; b; c; d] [e0; e1; e2; e3] f =
  Ok [a + e0 * f; b + e1 * f; c + e2 * f; d + e3 * f]%Q.
Proof. reflexivity. Qed.

Lemma diffuse_inside (width height current_pixel : Z) e0 e1 e2 e3 data d :
  0 < width ->
  Z.of_nat (length data) = height * width * 4 ->
  outside width height (target_xy width current_pixel d) = false ->
  let n := Z.to_nat (raster_index width (target_xy width current_pixel d) * 4) in
  exists a b c t,
    data !! n = Some a /\ data !! (n + 1)%nat = Some b /\
    data !! (n + 2)%nat = Some c /\ data !! (n + 3)%nat = Some t /\
    diffuse width height current_pixel [e0; e1; e2; e3] data d =
    Ok (write4 data n
          (clamp_uint8 (a + e0 * factor d)) (clamp_uint8 (b + e1 * factor d))
          (clamp_uint8 (c + e2 * factor d)) (clamp_uint8 (t + e3 * factor d))).
Proof.
  intros Hw Hlen Hin n.
  pose proof Hin as Hin'. apply outside_false in Hin' as [Hx Hy].
  set (idx := raster_index width (target_xy width current_pixel d) * 4) in *.
  assert (Hidx : 0 <= idx /\ idx + 3 < Z.of_nat (length data)).
  { unfold idx, raster_index. rewrite Hlen. nia. }
  destruct (get_pixel_total data idx) as (a & b & c & t & Hget & Ha & Hb & Hc & Ht);
    [lia|lia|].
  exists a, b, c, t. repeat (split; [done|]).
  unfold diffuse.
  destruct (width =? 0) eqn:E; [apply Z.eqb_eq in E; lia|].
  unfold outside, target_xy in Hin. simpl in Hin. rewrite Hin.
  fold idx in Hget |- *.
  change ((((current_pixel / 4) `div` width + (offset d).2) * width +
           ((current_pixel / 4) `mod` width + (offset d).1)) * 4) with idx.
  rewrite Hget, bind_Ok_l, add_quant_error_4, bind_Ok_l.
  apply set_pixel_in_range; lia.
Qed.

Lemma Qltb_lt (x y : Q) : Qltb x y = true <-> (x < y)%Q.
Proof.
  unfold Qltb. rewrite Qlt_alt. destruct (x ?= y)%Q; split; congruence.
Qed.

Lemma Qltb_ge (x y : Q) : Qltb x y = false <-> (y <= x)%Q.
Proof.
  rewrite <- Bool.not_true_iff_false, Qltb_lt. split.
  - apply Qnot_lt_le.
  - apply Qle_not_lt.
Qed.

Lemma clamp_uint8_range (v : Q) : (0 <= clamp_uint8 v <= 255)%Q.
Proof.
  unfold clamp_uint8.
  destruct (Qltb v (num 0)) eqn:E0; [done|].
  destruct (Qltb (num 255) v) eqn:E1; [done|].
  apply Qltb_ge in E0, E1. done.
Qed.

(** A sample that is a palette value is stored as it is. *)
Lemma clamp_uint8_num (z : Z) : 0 <= z <= 255 -> clamp_uint8 (num z) = num z.
Proof.
  intros Hz. unfold clamp_uint8.
  destruct (Qltb (num z) (num 0)) eqn:E0.
  { apply Qltb_lt in E0. unfold num in E0. rewrite <- Zlt_Qlt in E0. lia. }
  destruct (Qltb (num 255) (num z)) eqn:E1; [|done].
  apply Qltb_lt in E1. unfold num in E1. rewrite <- Zlt_Qlt in E1. lia.
Qed.



(** ** Direction of the deposits *)

Lemma catalog_entry_forward (name : string) (d : diffusion) :
  d ∈ get_diffusion_map name -> forward d = true.
Proof.
  intros Hd. pose proof (catalog_forward name) as HF.
  rewrite Forall_forall in HF. by apply HF.
Qed.

(** C8, as stated, fails: no kernel of the catalogue, at no image size and
    no pixel, has an in-bounds target that comes before the source pixel
    in raster order. *)
Lemma no_deposit_on_visited_pixel :
  ~ exists (name : string) (width height current_pixel : Z) (d : diffusion),
      d ∈ get_diffusion_map name /\
      0 < width /\ 0 <= current_pixel /\
      outside width height (target_xy width current_pixel d) = false /\
      raster_index width (target_xy width current_pixel d) < current_pixel / 4.
Proof.
  intros (name & width & height & current_pixel & d & Hd & Hw & Hc & Hin & Hlt).
  pose proof (forward_target_later width height current_pixel d Hw Hc
                (catalog_entry_forward name d Hd) Hin).
  lia.
Qed.

(** C8, amended.  Every in-bounds deposit of every catalogue kernel goes to
    a pixel strictly later in raster order than the pixel being quantised,
    and the deposit leaves every sample up to and including that pixel's
    as it was. *)
Theorem deposits_reach_only_later_pixels
    (name : string) (width height current_pixel : Z) (d : diffusion)
    (e0 e1 e2 e3 : Q) (data : list Q) :
  d ∈ get_diffusion_map name ->
  0 < width -> 0 <= current_pixel ->
  Z.of_nat (length data) = height * width * 4 ->
  (outside width height (target_xy width current_pixel d) = false ->
   current_pixel / 4 < raster_index width (target_xy width current_pixel d)) /\
  exists data',
    diffuse width height current_pixel [e0; e1; e2; e3] data d = Ok data' /\
    length data' = length data /\
    forall j : nat, (Z.of_nat j < 4 * (current_pixel / 4) + 4) ->
                    data' !! j = data !! j.
Proof.
  intros Hd Hw Hc Hlen.
  pose proof (catalog_entry_forward name d Hd) as Hf.
  split; [by apply forward_target_later|].
  destruct (outside width height (target_xy width current_pixel d)) eqn:Hout.
  - exists data. split; [by apply diffuse_outside|done].
  - destruct (diffuse_inside width height current_pixel e0 e1 e2 e3 data d
                Hw Hlen Hout) as (a & b & c & o & _ & _ & _ & _ & Hdiff).
    eexists. split; [exact Hdiff|]. split; [apply write4_length|].
    intros j Hj. apply write4_lookup_other. left.
    pose proof (forward_target_later width height current_pixel d Hw Hc Hf Hout).
    lia.
Qed.

(** Witness for C8: Floyd-Steinberg's entry (-1, 1) at the second pixel of
    a 2x2 image aims at pixel 2, after pixel 1. *)
Lemma deposits_reach_only_later_pixels_witness :
  4 / 4 < raster_index 2 (target_xy 2 4 (tap (-1) 1 (3 / 16))).
Proof.
  refine (proj1 (deposits_reach_only_later_pixels "floydSteinberg" 2 2 4
                   (tap (-1) 1 (3 / 16)) 0 0 0 0 (repeat 0%Q 16) _ _ _ _) _).
  - apply list_elem_of_In. vm_compute. tauto.
  - lia.
  - lia.
  - reflexivity.
  - reflexivity.
Defined.

(** ** The palette matcher *)


Lemma root_R_sq_distance (c p : color) :
  root_R (math_sqrt (sq_distance c p)) = euclidean_rgb c p.
Proof.
  unfold root_R, euclidean_rgb, sq_distance. simpl. f_equal.
  rewrite !Q2R_plus, !Q2R_mult, !Q2R_minus. ring.
Qed.


Lemma py_index_012 {A} (x0 x1 x2 : A) (rest : list A) :
  py_index (x0 :: x1 :: x2 :: rest) 0 = Ok x0 /\
  py_index (x0 :: x1 :: x2 :: rest) 1 = Ok x1 /\
  py_index (x0 :: x1 :: x2 :: rest) 2 = Ok x2.
Proof. repeat split; apply py_index_in_range; (done || lia). Qed.

Lemma distance_of_rgb (c p : color) :
  (3 <= length c)%nat -> (3 <= length p)%nat ->
  distance_in_color_space (Some c) (Some p) = Ok (math_sqrt (sq_distance c p)).
Proof.
  intros Hc Hp.
  destruct c as [|c0 [|c1 [|c2 crest]]]; simpl in Hc; try lia.
  destruct p as [|p0 [|p1 [|p2 prest]]]; simpl in Hp; try lia.
  unfold distance_in_color_space, subscript.
  destruct (py_index_012 c0 c1 c2 crest) as (-> & -> & ->).
  destruct (py_index_012 p0 p1 p2 prest) as (-> & -> & ->).
  done.
Qed.

(** The first loop: one entry per palette colour, in palette order. *)
Lemma colors_with_distance_of (pixel : color) (palette : list color) :
  (3 <= length pixel)%nat ->
  Forall (fun c => (3 <= length c)%nat) palette ->
  list_comp (fun c : option color =>
      d ← distance_in_color_space c (Some pixel);
      l ← match c with Some l => Ok l | None => Raise TypeError end;
      Ok {| distance := d; color_of := l |}) (Some <$> palette)
  = Ok (entry_of pixel <$> palette).
Proof.
  intros Hp. induction 1 as [|c palette Hc _ IH]; [done|].
  rewrite !fmap_cons. cbn [list_comp].
  rewrite distance_of_rgb by done. rewrite !bind_Ok_l.
  rewrite IH. done.
Qed.

(** The second loop keeps the first entry of least distance. *)
Lemma closest_is_first_minimum (entries : list color_entry) :
  entries <> [] ->
  exists (i : nat) (e : color_entry),
    entries !! i = Some e /\
    foldl closer None entries = Some e /\
    (forall j c, entries !! j = Some c ->
       (radicand (distance e) <= radicand (distance c))%Q) /\
    (forall j c, (j < i)%nat -> entries !! j = Some c ->
       (radicand (distance e) < radicand (distance c))%Q).
Proof.
  induction entries as [|x entries IH] using rev_ind; [done|]. intros _.
  rewrite foldl_app. simpl.
  destruct (decide (entries = [])) as [->|Hne].
  - exists 0%nat, x. simpl. repeat split; try done.
    + intros [|j] c; simpl; [intros [= <-]; apply Qle_refl|done].
    + intros j c Hj. lia.
  - destruct (IH Hne) as (i & e & Hi & Hfold & Hmin & Hfirst).
    rewrite Hfold. simpl. unfold root_ltb.
    pose proof (lookup_lt_Some _ _ _ Hi) as Hilt.
    destruct (Qltb (radicand (distance x)) (radicand (distance e))) eqn:E.
    + apply Qltb_lt in E.
      exists (length entries), x. split.
      { rewrite lookup_app_r by lia. by rewrite Nat.sub_diag. }
      split; [done|]. split.
      * intros j c Hj. apply lookup_app_Some in Hj as [Hj|[_ Hj]].
        -- apply Qlt_le_weak. eapply Qlt_le_trans; [exact E|]. by eapply Hmin.
        -- destruct (j - length entries)%nat; simpl in Hj; [|done].
           injection Hj as <-. apply Qle_refl.
      * intros j c Hj Hc. rewrite lookup_app_l in Hc by lia.
        eapply Qlt_le_trans; [exact E|]. by eapply Hmin.
    + apply Qltb_ge in E.
      exists i, e. split; [by rewrite lookup_app_l by lia|].
      split; [done|]. split.
      * intros j c Hj. apply lookup_app_Some in Hj as [Hj|[_ Hj]].
        -- by eapply Hmin.
        -- destruct (j - length entries)%nat; simpl in Hj; [|done].
           by injection Hj as <-.
      * intros j c Hj Hc. rewrite lookup_app_l in Hc by lia.
        by eapply Hfirst.
Qed.

Lemma list_comp_Ok {X Y} (f : X -> result Y) (xs : list X) (ys : list Y) :
  list_comp f xs = Ok ys -> Forall2 (fun x y => f x = Ok y) xs ys.
Proof.
  revert ys. induction xs as [|x xs IH]; intros ys; simpl.
  - intros [= <-]. constructor.
  - intros H. apply bind_Ok in H as (y & Hy & H).
    apply bind_Ok in H as (ys' & Hys & H). injection H as <-.
    constructor; [done|by apply IH].
Qed.

Lemma closest_is_member (entries : list color_entry) (e : color_entry) :
  foldl closer None entries = Some e -> e ∈ entries.
Proof.
  destruct (decide (entries = [])) as [->|Hne]; [done|].
  destruct (closest_is_first_minimum entries Hne) as (i & e' & Hi & -> & _).
  intros [= <-]. by eapply list_elem_of_lookup_2.
Qed.

(** Whatever the matcher returns is an entry of the palette, with 255
    appended when the entry has fewer than four channels. *)
Lemma find_closest_returns_entry (pixel : color) (color_palette : list (option color))
    (res : color) :
  find_closest_palette_color pixel color_palette = Ok res ->
  exists l, Some l ∈ color_palette /\
            res = if Z.of_nat (length l) <? 4 then l ++ [num 255] else l.
Proof.
  unfold find_closest_palette_color. intros H.
  apply bind_Ok in H as (entries & Hcomp & H).
  destruct (foldl closer None entries) as [e|] eqn:Hfold; [|discriminate].
  apply closest_is_member in Hfold.
  apply list_comp_Ok in Hcomp.
  apply list_elem_of_lookup in Hfold as (i & Hi).
  destruct (Forall2_lookup_r _ _ _ _ _ Hcomp Hi) as (c & Hc & Hf).
  apply bind_Ok in Hf as (d & _ & Hf).
  destruct c as [l|]; [|discriminate]. simpl in Hf. injection Hf as <-.
  exists l. split; [by eapply list_elem_of_lookup_2|].
  simpl in H. by destruct (Z.of_nat (length l) <? 4); injection H as <-.
Qed.



(** ** Palette names *)

(** C7. Palette names are looked up as they are spelled by the raster
    pass: a case variant of a registered name that is not itself a key
    resolves to the default palette, not to the palette of that name,
    while [get_default_palettes] folds the case and finds it. *)
Theorem palette_name_is_case_sensitive
    (PALETTES : gmap string (list string)) (fallback gameboy : list string) :
  PALETTES !! "default"%string = Some fallback ->
  PALETTES !! "gameboy"%string = Some gameboy ->
  PALETTES !! "GAMEBOY"%string = None ->
  set_color_palette PALETTES (PaletteName "GAMEBOY") =
    set_color_palette PALETTES (PaletteName "default") /\
  set_color_palette PALETTES (PaletteName "GAMEBOY") =
    set_color_palette PALETTES (PaletteList fallback) /\
  Init.get_default_palettes PALETTES "GAMEBOY" = Ok gameboy.
Proof.
  intros Hd Hg Hu. unfold set_color_palette, Init.get_default_palettes.
  change (Init.str_lower "GAMEBOY") with "gameboy"%string.
  rewrite Hd, Hu, Hg. done.
Qed.

(** Witness for C7 on the sample table: "GAMEBOY" gives black and white. *)
Lemma palette_name_is_case_sensitive_witness :
  set_color_palette sample_PALETTES (PaletteName "GAMEBOY") =
    Ok [Some [0; 0; 0]; Some [255; 255; 255]]%Q /\
  set_color_palette sample_PALETTES (PaletteName "gameboy") =
    Ok [Some [15; 56; 15]; Some [48; 98; 48]; Some [139; 172; 15];
        Some [155; 188; 15]]%Q.
Proof.
  destruct (palette_name_is_case_sensitive sample_PALETTES
              ["#000"; "#fff"]%string
              ["#0f380f"; "#306230"; "#8bac0f"; "#9bbc0f"]%string) as (H & _ & _).
  - reflexivity.
  - reflexivity.
  - reflexivity.
  - rewrite H. split; reflexivity.
Defined.

(** ** Pixels of the sample array *)

Lemma pixel_at_lookup {A} (data : list A) (k i : nat) :
  (i < 4)%nat -> pixel_at data k !! i = data !! (4 * k + i)%nat.
Proof.
  intros Hi. unfold pixel_at. rewrite lookup_take_lt by done. apply lookup_drop.
Qed.

Lemma pixel_at_length {A} (data : list A) (k : nat) :
  (4 * k + 4 <= length data)%nat -> length (pixel_at data k) = 4%nat.
Proof.
  intros Hk. unfold pixel_at. rewrite length_take, length_drop. lia.
Qed.

Lemma pixel_at_ext {A} (d1 d2 : list A) (k : nat) :
  (forall i, (4 * k <= i < 4 * k + 4)%nat -> d1 !! i = d2 !! i) ->
  pixel_at d1 k = pixel_at d2 k.
Proof.
  intros H. apply list_eq. intros i.
  destruct (decide (i < 4)%nat) as [Hi|Hi].
  - rewrite !pixel_at_lookup by done. apply H. lia.
  - unfold pixel_at. rewrite !lookup_take_ge by lia. done.
Qed.

Lemma pixel_at_lookups {A} (data : list A) (k : nat) (a b c d : A) :
  data !! (4 * k)%nat = Some a -> data !! (4 * k + 1)%nat = Some b ->
  data !! (4 * k + 2)%nat = Some c -> data !! (4 * k + 3)%nat = Some d ->
  pixel_at data k = [a; b; c; d].
Proof.
  intros Ha Hb Hc Hd. apply list_eq. intros i.
  destruct (decide (i < 4)%nat) as [Hi|Hi].
  - rewrite pixel_at_lookup by done.
    destruct i as [|[|[|[|i]]]]; simpl; try lia.
    + by rewrite Nat.add_0_r.
    + done.
    + done.
    + done.
  - unfold pixel_at. rewrite lookup_take_ge by lia.
    by destruct i as [|[|[|[|i]]]]; try lia.
Qed.

Lemma pixel_at_fmap {A B} (f : A -> B) (data : list A) (k : nat) :
  pixel_at (f <$> data) k = f <$> pixel_at data k.
Proof. unfold pixel_at. by rewrite fmap_take, fmap_drop. Qed.

Lemma pixel_at_write4 (data : list Q) (k : nat) (a b c d : Q) :
  (4 * k + 3 < length data)%nat ->
  pixel_at (write4 data (4 * k) a b c d) k = [a; b; c; d].
Proof.
  intros Hk. destruct (write4_lookup data (4 * k) a b c d Hk) as (Ha & Hb & Hc & Hd).
  by apply pixel_at_lookups.
Qed.

Lemma pixel_at_write4_other (data : list Q) (k j : nat) (a b c d : Q) :
  j <> k -> pixel_at (write4 data (4 * k) a b c d) j = pixel_at data j.
Proof.
  intros Hjk. apply pixel_at_ext. intros i Hi.
  apply write4_lookup_other. lia.
Qed.

(** Reading pixel [k] through [get_pixel_color_values]. *)
Lemma get_pixel_at (data : list Q) (k : nat) (pixel : color) :
  get_pixel_color_values (4 * Z.of_nat k) data = Ok pixel ->
  pixel = pixel_at data k /\ (4 * k + 3 < length data)%nat.
Proof.
  intros H. apply get_pixel_Ok in H as (a & b & c & d & -> & Ha & Hb & Hc & Hd);
    [|lia].
  replace (Z.to_nat (4 * Z.of_nat k)) with (4 * k)%nat in * by lia.
  split; [symmetry; by apply pixel_at_lookups|].
  apply lookup_lt_Some in Hd. lia.
Qed.

Lemma get_pixel_at_total (data : list Q) (k : nat) :
  (4 * k + 3 < length data)%nat ->
  get_pixel_color_values (4 * Z.of_nat k) data = Ok (pixel_at data k) /\
  length (pixel_at data k) = 4%nat.
Proof.
  intros Hk.
  destruct (get_pixel_total data (4 * Z.of_nat k)) as (a & b & c & d & Hget & Hl);
    [lia|lia|].
  destruct (get_pixel_at data k _ Hget) as [<- _]. done.
Qed.

(** ** The effective palette *)

Lemma hex_digit_range (c : ascii) (h : Z) :
  ColorHelpers.hex_digit c = Some h -> 0 <= h <= 15.
Proof.
  unfold ColorHelpers.hex_digit.
  set (n := Z.of_nat (nat_of_ascii c)).
  destruct ((48 <=? n) && (n <=? 57)) eqn:E1.
  { intros [= <-]. apply andb_prop in E1 as [?%Z.leb_le ?%Z.leb_le]. lia. }
  destruct ((97 <=? n) && (n <=? 102)) eqn:E2.
  { intros [= <-]. apply andb_prop in E2 as [?%Z.leb_le ?%Z.leb_le]. lia. }
  destruct ((65 <=? n) && (n <=? 70)) eqn:E3; [|done].
  intros [= <-]. apply andb_prop in E3 as [?%Z.leb_le ?%Z.leb_le]. lia.
Qed.

Lemma int16_range (a b : ascii) :
  ColorHelpers.is_hex a = true -> ColorHelpers.is_hex b = true ->
  0 <= ColorHelpers.int16 (String a (String b "")) <= 255.
Proof.
  unfold ColorHelpers.is_hex. rewrite !bool_decide_eq_true.
  intros [h Hh] [l Hl]. simpl. rewrite Hh, Hl. simpl.
  apply hex_digit_range in Hh, Hl. lia.
Qed.

Lemma hex_to_rgb_range (hex_color : string) (l : list Z) :
  ColorHelpers.hex_to_rgb hex_color = Some l ->
  exists r g b, l = [r; g; b] /\ 0 <= r <= 255 /\ 0 <= g <= 255 /\ 0 <= b <= 255.
Proof.
  unfold ColorHelpers.hex_to_rgb.
  set (s := match ColorHelpers.shorthand_regex hex_color with
            | Some (r, g, b) => _ | None => _ end).
  clearbody s. unfold ColorHelpers.full_regex.
  destruct (ColorHelpers.skip_hash s)
    as [|r1 [|r2 [|g1 [|g2 [|b1 [|b2 rest]]]]]]; try done.
  destruct (ColorHelpers.is_hex r1) eqn:R1; [|done].
  destruct (ColorHelpers.is_hex r2) eqn:R2; [|done].
  destruct (ColorHelpers.is_hex g1) eqn:G1; [|done].
  destruct (ColorHelpers.is_hex g2) eqn:G2; [|done].
  destruct (ColorHelpers.is_hex b1) eqn:B1; [|done].
  destruct (ColorHelpers.is_hex b2) eqn:B2; [|done].
  destruct (ColorHelpers.at_end rest); [|done].
  cbn [andb]. intros [= <-]. do 3 eexists. split; [done|].
  by repeat split; apply int16_range.
Qed.

Lemma set_color_palette_hex (PALETTES : gmap string (list string))
    (palette : palette_option) (color_palette : list (option color)) :
  set_color_palette PALETTES palette = Ok color_palette ->
  hex_palette color_palette.
Proof.
  unfold set_color_palette. intros H.
  apply bind_Ok in H as (palette_array & _ & H). injection H as <-.
  intros l Hl. apply list_elem_of_fmap in Hl as (hex_color & Hl & _).
  destruct (ColorHelpers.hex_to_rgb hex_color) as [rgb|] eqn:E; [|done].
  simpl in Hl. injection Hl as ->.
  apply hex_to_rgb_range in E as (r & g & b & -> & Hr & Hg & Hb).
  by exists r, g, b.
Qed.

(** On such a palette the matcher returns an entry with alpha 255, and
    [set_pixel] stores exactly that. *)
Lemma find_closest_hex (pixel : color) (color_palette : list (option color))
    (res : color) :
  hex_palette color_palette ->
  find_closest_palette_color pixel color_palette = Ok res ->
  exists r g b,
    Some [num r; num g; num b] ∈ color_palette /\
    res = [num r; num g; num b; num 255] /\
    0 <= r <= 255 /\ 0 <= g <= 255 /\ 0 <= b <= 255.
Proof.
  intros Hpal H. apply find_closest_returns_entry in H as (l & Hl & ->).
  destruct (Hpal l Hl) as (r & g & b & -> & Hr & Hg & Hb).
  exists r, g, b. done.
Qed.

Lemma to_uint8_num (z : Z) : 0 <= z <= 255 -> to_uint8 (num z) = z.
Proof.
  intros Hz. unfold to_uint8.
  destruct (Qltb (num z) (num 0)) eqn:E0.
  { apply Qltb_lt in E0. unfold num in E0. rewrite <- Zlt_Qlt in E0. lia. }
  destruct (Qltb (num 255) (num z)) eqn:E1.
  { apply Qltb_lt in E1. unfold num in E1. rewrite <- Zlt_Qlt in E1. lia. }
  apply Qfloor_Z.
Qed.

Lemma to_uint8_samples (samples : list Z) :
  Forall (fun v => 0 <= v <= 255) samples ->
  to_uint8 <$> (num <$> samples) = samples.
Proof.
  induction 1 as [|v samples Hv _ IH]; [done|].
  rewrite !fmap_cons, IH. by rewrite to_uint8_num.
Qed.

(** ** One pixel of the raster pass, mode by mode *)

Lemma diffuse_keeps_prefix (width height current_pixel : Z) (e0 e1 e2 e3 : Q)
    (data : list Q) (d : diffusion) :
  0 < width -> 0 <= current_pixel ->
  Z.of_nat (length data) = height * width * 4 ->
  forward d = true ->
  exists data',
    diffuse width height current_pixel [e0; e1; e2; e3] data d = Ok data' /\
    length data' = length data /\
    forall j : nat, Z.of_nat j < 4 * (current_pixel / 4) + 4 ->
                    data' !! j = data !! j.
Proof.
  intros Hw Hc Hlen Hf.
  destruct (outside width height (target_xy width current_pixel d)) eqn:Hout.
  - exists data. split; [by apply diffuse_outside|done].
  - destruct (diffuse_inside width height current_pixel e0 e1 e2 e3 data d
                Hw Hlen Hout) as (a & b & c & o & _ & _ & _ & _ & Hdiff).
    eexists. split; [exact Hdiff|]. split; [apply write4_length|].
    intros j Hj. apply write4_lookup_other. left.
    pose proof (forward_target_later width height current_pixel d Hw Hc Hf Hout).
    lia.
Qed.

Lemma diffuse_all_keep_prefix (width height current_pixel : Z) (e0 e1 e2 e3 : Q)
    (kernel : list diffusion) :
  0 < width -> 0 <= current_pixel ->
  Forall (fun d => forward d = true) kernel ->
  forall data, Z.of_nat (length data) = height * width * 4 ->
  exists data',
    for_each (diffuse width height current_pixel [e0; e1; e2; e3]) kernel data
      = Ok data' /\
    length data' = length data /\
    forall j : nat, Z.of_nat j < 4 * (current_pixel / 4) + 4 ->
                    data' !! j = data !! j.
Proof.
  intros Hw Hc. induction 1 as [|d kernel Hd _ IH]; intros data Hlen.
  - exists data. done.
  - destruct (diffuse_keeps_prefix width height current_pixel e0 e1 e2 e3 data d
                Hw Hc Hlen Hd) as (data1 & Hd1 & Hl1 & Hp1).
    destruct (IH data1) as (data2 & Hd2 & Hl2 & Hp2); [by rewrite Hl1|].
    exists data2. cbn [for_each]. rewrite Hd1, bind_Ok_l. split; [done|].
    split; [by rewrite Hl2|]. intros j Hj. rewrite Hp2, Hp1; done.
Qed.

Lemma get_quant_error_4 (a b c d n0 n1 n2 n3 : Q) :
  get_quant_error [a; b; c; d] [n0; n1; n2; n3] =
  Ok [a - n0; b - n1; c - n2; d - n3]%Q.
Proof. reflexivity. Qed.

Section Modes.
Variable rand : nat -> Z.
Variables (opts : options) (width height : Z).
Variables (color_palette : list (option color)) (threshold_map : list (list Z)).

Local Abbreviation body := (dither_pixel rand opts width height color_palette threshold_map).

Ltac mode_cases :=
  intros; unfold dither_pixel;
  repeat match goal with
         | H : ditheringType opts = _ |- _ => rewrite H
         | H : (_ =? _)%string = false |- _ => rewrite H
         end;
  cbn [String.eqb Ascii.eqb Bool.eqb andb orb];
  repeat match goal with
         | |- context [get_pixel_color_values ?i ?d] =>
             destruct (get_pixel_color_values i d); cbn; [|done]
         | |- context [pixel_xy ?i ?w] => destruct (pixel_xy i w); cbn; [|done]
         | |- context [ordered_dither_pixel_value ?a ?b ?c ?d] =>
             destruct (ordered_dither_pixel_value a b c d); cbn; [|done]
         | |- context [find_closest_palette_color ?p ?c] =>
             destruct (find_closest_palette_color p c); cbn; [|done]
         | |- context [set_pixel ?d ?i ?p] => destruct (set_pixel d i p); cbn; [|done]
         | |- context [get_quant_error ?a ?b] =>
             destruct (get_quant_error a b); cbn; [|done]
         | |- context [for_each ?f ?l ?s] => destruct (for_each f l s); cbn; [|done]
         end;
  try done.

Lemma dither_pixel_quantization (data : list Q) (drawn : nat) (current : Z) :
  ditheringType opts = ""%string \/ ditheringType opts = "quantizationOnly"%string ->
  body (data, drawn) current =
  (old_pixel ← get_pixel_color_values current data;
   new_pixel ← find_closest_palette_color old_pixel color_palette;
   data' ← set_pixel data current new_pixel;
   Ok (data', drawn)).
Proof. intros [H|H]; mode_cases. Qed.

Lemma dither_pixel_ordered (data : list Q) (drawn : nat) (current : Z) :
  ditheringType opts = "ordered"%string ->
  body (data, drawn) current =
  (old_pixel ← get_pixel_color_values current data;
   xy ← pixel_xy (current / 4) width;
   new_pixel ← ordered_dither_pixel_value old_pixel xy threshold_map
                 (num 256 / num 4)%Q;
   new_pixel ← find_closest_palette_color new_pixel color_palette;
   data' ← set_pixel data current new_pixel;
   Ok (data', drawn)).
Proof. mode_cases. Qed.

Lemma dither_pixel_error_diffusion (data : list Q) (drawn : nat) (current : Z) :
  ditheringType opts = "errorDiffusion"%string ->
  body (data, drawn) current =
  (old_pixel ← get_pixel_color_values current data;
   new_pixel ← find_closest_palette_color old_pixel color_palette;
   data1 ← set_pixel data current new_pixel;
   quant_error ← get_quant_error old_pixel new_pixel;
   data2 ← for_each (diffuse width height current quant_error)
             (get_diffusion_map (errorDiffusionMatrix opts)) data1;
   Ok (data2, drawn)).
Proof. mode_cases. Qed.

Lemma dither_pixel_unrecognized (data : list Q) (drawn : nat) (current : Z) :
  (ditheringType opts =? "")%string = false ->
  (ditheringType opts =? "quantizationOnly")%string = false ->
  (ditheringType opts =? "random")%string = false ->
  (ditheringType opts =? "ordered")%string = false ->
  (ditheringType opts =? "errorDiffusion")%string = false ->
  body (data, drawn) current =
  (old_pixel ← get_pixel_color_values current data; Ok (data, drawn)).
Proof. mode_cases. Qed.

End Modes.

(** ** The loop over the pixels *)

(** A pass whose body rewrites the current pixel from its own old value
    [G k old] and touches nothing else: the final array holds, at every
    pixel, the clamped value computed from the input pixel. *)
Lemma pointwise_pass (G : nat -> color -> result color)
    (body : list Q * nat -> Z -> result (list Q * nat))
    (n : nat) (data0 : list Q) (drawn0 : nat) (final : list Q * nat) :
  length data0 = (4 * n)%nat ->
  (forall k data drawn, (k < n)%nat ->
     body (data, drawn) (4 * Z.of_nat k) =
     (old_pixel ← get_pixel_color_values (4 * Z.of_nat k) data;
      new_pixel ← G k old_pixel;
      data' ← set_pixel data (4 * Z.of_nat k) new_pixel;
      Ok (data', drawn))) ->
  for_each body ((fun k => 4 * Z.of_nat k) <$> seq 0 n) (data0, drawn0) = Ok final ->
  length final.1 = (4 * n)%nat /\
  forall k, (k < n)%nat ->
    exists v0 v1 v2 v3 rest,
      G k (pixel_at data0 k) = Ok (v0 :: v1 :: v2 :: v3 :: rest) /\
      pixel_at final.1 k =
        [clamp_uint8 v0; clamp_uint8 v1; clamp_uint8 v2; clamp_uint8 v3].
Proof.
  intros Hlen Hbody Hrun.
  set (Inv := fun (k : nat) (st : list Q * nat) =>
    length st.1 = (4 * n)%nat /\
    (forall j, (j < k)%nat ->
       exists v0 v1 v2 v3 rest,
         G j (pixel_at data0 j) = Ok (v0 :: v1 :: v2 :: v3 :: rest) /\
         pixel_at st.1 j =
           [clamp_uint8 v0; clamp_uint8 v1; clamp_uint8 v2; clamp_uint8 v3]) /\
    (forall j, (k <= j)%nat -> pixel_at st.1 j = pixel_at data0 j)).
  assert (HInv : Inv n final).
  { apply (for_each_partial Inv body (fun k => 4 * Z.of_nat k) n)
      with (st0 := (data0, drawn0)); [|split; [done|split; [intros; lia|done]]|done].
    intros k [data drawn] st' Hk (Hl & Hdone & Htodo) Hstep. cbn [fst snd] in *.
    rewrite Hbody in Hstep by done.
    apply bind_Ok in Hstep as (old & Hold & Hstep).
    apply bind_Ok in Hstep as (new & Hnew & Hstep).
    apply bind_Ok in Hstep as (data' & Hset & Hstep).
    injection Hstep as <-. unfold Inv. cbn [fst snd].
    apply get_pixel_at in Hold as [-> Hin].
    apply set_pixel_Ok in Hset as (v0 & v1 & v2 & v3 & rest & -> & _ & ->);
      [|lia].
    replace (Z.to_nat (4 * Z.of_nat k)) with (4 * k)%nat by lia.
    split; [by rewrite write4_length|]. split.
    - intros j Hj. destruct (decide (j = k)) as [->|Hne].
      + exists v0, v1, v2, v3, rest. split.
        * by rewrite <- (Htodo k) by lia.
        * by apply pixel_at_write4.
      + destruct (Hdone j) as (w0 & w1 & w2 & w3 & wrest & HG & Hpx); [lia|].
        exists w0, w1, w2, w3, wrest. split; [done|].
        by rewrite pixel_at_write4_other.
    - intros j Hj. rewrite pixel_at_write4_other by lia. apply Htodo. lia. }
  destruct HInv as (Hl & Hdone & _). split; [done|].
  intros k Hk. by apply Hdone.
Qed.

(** The error-diffusion pass: a pixel, once quantised, holds a palette
    colour with alpha 255 until the end of the pass. *)
Lemma error_diffusion_pass (rand : nat -> Z) (opts : options) (width height : Z)
    (color_palette : list (option color)) (threshold_map : list (list Z))
    (n : nat) (data0 : list Q) (drawn0 : nat) (final : list Q * nat) :
  ditheringType opts = "errorDiffusion"%string ->
  hex_palette color_palette ->
  0 <= width -> 0 <= height -> n = Z.to_nat (height * width) ->
  length data0 = (4 * n)%nat ->
  for_each (dither_pixel rand opts width height color_palette threshold_map)
    ((fun k => 4 * Z.of_nat k) <$> seq 0 n) (data0, drawn0) = Ok final ->
  length final.1 = (4 * n)%nat /\
  forall k, (k < n)%nat ->
    exists r g b,
      Some [num r; num g; num b] ∈ color_palette /\
      0 <= r <= 255 /\ 0 <= g <= 255 /\ 0 <= b <= 255 /\
      pixel_at final.1 k = [num r; num g; num b; num 255].
Proof.
  intros Hmode Hpal Hw Hh Hn Hlen Hrun.
  set (Inv := fun (k : nat) (st : list Q * nat) =>
    length st.1 = (4 * n)%nat /\
    (forall j, (j < k)%nat ->
       exists r g b,
         Some [num r; num g; num b] ∈ color_palette /\
         0 <= r <= 255 /\ 0 <= g <= 255 /\ 0 <= b <= 255 /\
         pixel_at st.1 j = [num r; num g; num b; num 255])).
  assert (HInv : Inv n final).
  { apply (for_each_partial Inv
             (dither_pixel rand opts width height color_palette threshold_map)
             (fun k => 4 * Z.of_nat k) n)
      with (st0 := (data0, drawn0)); [|split; [done|intros; lia]|exact Hrun].
    intros k [data drawn] st' Hk (Hl & Hdone) Hstep. cbn [fst snd] in *.
    rewrite dither_pixel_error_diffusion in Hstep by done.
    apply bind_Ok in Hstep as (old & Hold & Hstep).
    apply bind_Ok in Hstep as (new & Hnew & Hstep).
    apply bind_Ok in Hstep as (data1 & Hset & Hstep).
    apply bind_Ok in Hstep as (qe & Hqe & Hstep).
    apply bind_Ok in Hstep as (data2 & Hdiff & Hstep).
    injection Hstep as <-. unfold Inv. cbn [fst snd].
    apply get_pixel_Ok in Hold as (a & b & c & o & -> & _); [|lia].
    apply find_closest_hex in Hnew as (r & g & bl & Hin & -> & Hr & Hg & Hb);
      [|done].
    rewrite get_quant_error_4 in Hqe. injection Hqe as <-.
    apply set_pixel_Ok in Hset as (v0 & v1 & v2 & v3 & rest & Hv & Hfit & ->);
      [|lia].
    injection Hv as <- <- <- <- <-.
    rewrite !clamp_uint8_num in Hdiff by lia.
    replace (Z.to_nat (4 * Z.of_nat k)) with (4 * k)%nat in Hdiff by lia.
    assert (Hwpos : 0 < width) by nia.
    edestruct (diffuse_all_keep_prefix width height (4 * Z.of_nat k))
      as (data2' & Hd2 & Hl2 & Hp2);
      [exact Hwpos|lia|apply catalog_forward| |].
    { rewrite write4_length, Hl. nia. }
    rewrite Hd2 in Hdiff. injection Hdiff as <-.
    replace (4 * (4 * Z.of_nat k / 4) + 4) with (4 * Z.of_nat k + 4) in Hp2
      by (rewrite (Z.mul_comm 4 (Z.of_nat k)), Z.div_mul; lia).
    split; [by rewrite Hl2, write4_length|].
    intros j Hj.
    rewrite (pixel_at_ext data2' (write4 data (4 * k) (num r) (num g) (num bl)
                                    (num 255)) j)
      by (intros i Hi; apply Hp2; lia).
    destruct (decide (j = k)) as [->|Hne].
    - exists r, g, bl. repeat (split; [done|]). apply pixel_at_write4. lia.
    - rewrite pixel_at_write4_other by done. apply Hdone. lia. }
  destruct HInv as (Hl & Hdone). split; [done|].
  intros k Hk. by apply Hdone.
Qed.

(** ** The whole call *)

Lemma create_bayer_matrix_clamped (size : Z * Z) :
  create_bayer_matrix size =
  create_bayer_matrix (Z.max 0 (Z.min size.1 8), Z.max 0 (Z.min size.2 8)).
Proof.
  destruct size as [w h]. unfold create_bayer_matrix. cbn [fst snd].
  assert (Hclamp : forall v,
            (if v <? 8 then Z.min v 8 else 8) = Z.min v 8 /\
            (if Z.max 0 (Z.min v 8) <? 8 then Z.min (Z.max 0 (Z.min v 8)) 8 else 8)
              = Z.max 0 (Z.min v 8) /\
            (Z.min v 8 =? 8) = (Z.max 0 (Z.min v 8) =? 8) /\
            py_range (Z.min v 8) = py_range (Z.max 0 (Z.min v 8))).
  { intros v. repeat split.
    - destruct (v <? 8) eqn:E; [done|]. apply Z.ltb_ge in E. lia.
    - destruct (_ <? 8) eqn:E; [lia|]. apply Z.ltb_ge in E. lia.
    - destruct (Z.min v 8 =? 8) eqn:E.
      + apply Z.eqb_eq in E. symmetry. apply Z.eqb_eq. lia.
      + apply Z.eqb_neq in E. symmetry. apply Z.eqb_neq. lia.
    - unfold py_range. do 2 f_equal. lia. }
  destruct (Hclamp w) as (-> & -> & -> & ->).
  destruct (Hclamp h) as (-> & -> & -> & ->). done.
Qed.

Lemma create_bayer_matrix_table :
  forallb (fun w => forallb (fun h =>
    match create_bayer_matrix (w, h) with Ok _ => true | Raise _ => false end)
    (py_range 9)) (py_range 9) = true.
Proof. vm_compute. reflexivity. Qed.

(** The threshold matrix is built for every requested size. *)
Lemma create_bayer_matrix_total (size : Z * Z) :
  exists threshold_map, create_bayer_matrix size = Ok threshold_map.
Proof.
  rewrite create_bayer_matrix_clamped.
  set (w := Z.max 0 (Z.min size.1 8)). set (h := Z.max 0 (Z.min size.2 8)).
  pose proof create_bayer_matrix_table as T.
  rewrite forallb_forall in T.
  specialize (T w ltac:(apply list_elem_of_In, elem_of_py_range; lia)).
  rewrite forallb_forall in T.
  specialize (T h ltac:(apply list_elem_of_In, elem_of_py_range; lia)).
  destruct (create_bayer_matrix (w, h)) as [m|]; [by exists m|done].
Qed.

(** What a finished call went through. *)
Lemma dither_image_Ok (PALETTES : gmap string (list string)) (rand : nat -> Z)
    (im out : image) (options : option user_options) :
  wf_image im ->
  dither_image PALETTES rand (Some im) options = Ok (Some out) ->
  let opts := merge_options options in
  let n := Z.to_nat (height im * width im) in
  exists color_palette threshold_map final,
    set_color_palette PALETTES (palette opts) = Ok color_palette /\
    create_bayer_matrix (orderedDitheringMatrix opts) = Ok threshold_map /\
    length (num <$> samples im) = (4 * n)%nat /\
    for_each (dither_pixel rand opts (width im) (height im)
                color_palette threshold_map)
      ((fun k => 4 * Z.of_nat k) <$> seq 0 n) (num <$> samples im, 0%nat)
      = Ok final /\
    out = {| width := width im; height := height im;
             samples := to_uint8 <$> final.1 |}.
Proof.
  intros [Hw Hh Hlen Hu8] Hrun opts n. unfold dither_image in Hrun.
  fold opts in Hrun.
  apply bind_Ok in Hrun as (cp & Hcp & Hrun).
  apply bind_Ok in Hrun as (tm & Htm & Hrun).
  apply bind_Ok in Hrun as (final & Hloop & Hrun).
  assert (Hl : length (num <$> samples im) = (4 * n)%nat).
  { rewrite length_fmap. unfold n. nia. }
  exists cp, tm, final. repeat (split; [done|]).
  split.
  { rewrite Hl, py_range4_pixels in Hloop. exact Hloop. }
  destruct (negb _); [discriminate|]. by injection Hrun as <-.
Qed.

(** An array of palette-valued pixels converts back sample by sample. *)
Lemma pixel_at_out (final : list Q) (k : nat) (r g b : Z) :
  0 <= r <= 255 -> 0 <= g <= 255 -> 0 <= b <= 255 ->
  pixel_at final k = [num r; num g; num b; num 255] ->
  pixel_at (to_uint8 <$> final) k = [r; g; b; 255].
Proof.
  intros Hr Hg Hb Hpx. rewrite pixel_at_fmap, Hpx. simpl.
  by rewrite !to_uint8_num by lia.
Qed.

(** ** Unrecognised dithering type *)

(** C3, as stated, fails: on a dark grey pixel with a black and white
    palette, the type "foo" returns the pixel as it came, while the default
    type (error diffusion, named or left out) returns black. *)
Lemma unrecognized_type_is_not_the_default :
  let colors := ["#000"; "#fff"]%string in
  let call := dither_image ∅ (fun _ => 0) (Some (one_pixel 10 10 10 255)) in
  unrecognized "foo" /\
  call (with_type_and_colors "foo" colors) = Ok (Some (one_pixel 10 10 10 255)) /\
  call (with_type_and_colors "errorDiffusion" colors)
    = Ok (Some (one_pixel 0 0 0 255)) /\
  call (with_colors colors) = Ok (Some (one_pixel 0 0 0 255)) /\
  call (with_type_and_colors "foo" colors) <> call (with_colors colors).
Proof.
  intros colors call.
  assert (H1 : call (with_type_and_colors "foo" colors)
               = Ok (Some (one_pixel 10 10 10 255))) by (vm_compute; reflexivity).
  assert (H2 : call (with_colors colors) = Ok (Some (one_pixel 0 0 0 255)))
    by (vm_compute; reflexivity).
  split; [by repeat split|]. split; [done|].
  split; [vm_compute; reflexivity|]. split; [done|].
  rewrite H1, H2. discriminate.
Qed.

(** C3, amended.  With a dithering type the pass does not test for, no
    strategy runs: the call raises nothing and returns the image with
    every sample as it came. *)
Theorem unrecognized_type_returns_the_image
    (PALETTES : gmap string (list string)) (rand : nat -> Z)
    (im : image) (options : option user_options)
    (color_palette : list (option color)) :
  wf_image im ->
  unrecognized (ditheringType (merge_options options)) ->
  set_color_palette PALETTES (palette (merge_options options)) = Ok color_palette ->
  dither_image PALETTES rand (Some im) options = Ok (Some im).
Proof.
  intros Hwf (H1 & H2 & H3 & H4 & H5) Hcp.
  pose proof Hwf as [Hw Hh Hlen Hu8].
  apply String.eqb_neq in H1, H2, H3, H4, H5.
  unfold dither_image. rewrite Hcp, bind_Ok_l.
  destruct (create_bayer_matrix_total
              (orderedDitheringMatrix (merge_options options))) as [tm ->].
  rewrite bind_Ok_l.
  set (n := Z.to_nat (height im * width im)).
  assert (Hl : length (num <$> samples im) = (4 * n)%nat).
  { rewrite length_fmap. unfold n. nia. }
  rewrite Hl, py_range4_pixels.
  destruct (for_each_total
              (fun _ st => st = (num <$> samples im, 0%nat))
              (dither_pixel rand (merge_options options) (width im) (height im)
                 color_palette tm)
              (fun k => 4 * Z.of_nat k) n) with (st0 := (num <$> samples im, 0%nat))
    as (final & -> & ->); [|done|].
  - intros k st Hk ->. exists (num <$> samples im, 0%nat). split; [|done].
    rewrite dither_pixel_unrecognized by done.
    assert (Hfit : (4 * k + 3 < length (num <$> samples im))%nat) by lia.
    apply get_pixel_at_total in Hfit as [-> _]. done.
  - rewrite bind_Ok_l. cbn [fst].
    rewrite to_uint8_samples by done.
    replace (Z.of_nat (length (samples im)) =? height im * width im * 4) with true
      by (symmetry; by apply Z.eqb_eq).
    by destruct im.
Qed.

(** Witness for C3: the type "foo" on a 2x1 image with a named palette. *)
Lemma unrecognized_type_returns_the_image_witness :
  let im := {| width := 2; height := 1;
               samples := [10; 20; 30; 255; 200; 100; 0; 128] |} in
  dither_image sample_PALETTES (fun _ => 0) (Some im)
    (Some {| u_ditheringType := Some "foo"%string;
             u_errorDiffusionMatrix := None;
             u_orderedDitheringMatrix := None;
             u_randomDitheringType := None;
             u_palette := Some (PaletteName "gameboy") |}) = Ok (Some im).
Proof.
  intros im.
  eapply (unrecognized_type_returns_the_image sample_PALETTES (fun _ => 0) im).
  - split; simpl; [lia|lia|reflexivity|]. repeat (constructor; [lia|]). constructor.
  - by repeat split.
  - reflexivity.
Defined.

(** ** Palette closure *)

Lemma quantized_pixel_out (color_palette : list (option color)) (p : color)
    (final : list Q) (k : nat) (v0 v1 v2 v3 : Q) (rest : list Q) :
  hex_palette color_palette ->
  find_closest_palette_color p color_palette = Ok (v0 :: v1 :: v2 :: v3 :: rest) ->
  pixel_at final k = [clamp_uint8 v0; clamp_uint8 v1; clamp_uint8 v2; clamp_uint8 v3] ->
  exists r g b,
    Some [num r; num g; num b] ∈ color_palette /\
    v0 :: v1 :: v2 :: v3 :: rest = [num r; num g; num b; num 255] /\
    pixel_at (to_uint8 <$> final) k = [r; g; b; 255].
Proof.
  intros Hpal Hfind Hpx.
  apply find_closest_hex in Hfind as (r & g & b & Hin & Heq & Hr & Hg & Hb);
    [|done].
  exists r, g, b. split; [done|]. split; [done|].
  injection Heq as -> -> -> -> ->.
  rewrite !clamp_uint8_num in Hpx by lia. by apply pixel_at_out.
Qed.

(** C1, as stated, fails: a dithering type that is neither random nor one
    of the other three leaves the pixel (10,10,10), which is not a colour
    of the black and white palette. *)
Lemma closure_fails_for_unrecognized_type :
  let colors := ["#000"; "#fff"]%string in
  "foo"%string <> "random"%string /\
  dither_image ∅ (fun _ => 0) (Some (one_pixel 10 10 10 255))
    (with_type_and_colors "foo" colors) = Ok (Some (one_pixel 10 10 10 255)) /\
  set_color_palette ∅ (PaletteList colors)
    = Ok [Some [num 0; num 0; num 0]; Some [num 255; num 255; num 255]] /\
  ~ (exists r g b,
       Some [num r; num g; num b]
         ∈ [Some [num 0; num 0; num 0]; Some [num 255; num 255; num 255]] /\
       take 3 (pixel_at (samples (one_pixel 10 10 10 255)) 0) = [r; g; b]).
Proof.
  intros colors. split; [done|]. split; [vm_compute; reflexivity|].
  split; [reflexivity|].
  intros (r & g & b & Hin & Hpx). injection Hpx as <- <- <-.
  apply elem_of_cons in Hin as [Hin|Hin]; [discriminate|].
  apply elem_of_cons in Hin as [Hin|Hin]; [discriminate|].
  by apply elem_of_nil in Hin.
Qed.

(** C1, amended.  For a configuration whose dithering type is empty,
    quantizationOnly, ordered or errorDiffusion, every pixel of the image
    the call returns has the RGB triple of an entry of the effective
    palette (and the image keeps its size). *)
Theorem palette_closure
    (PALETTES : gmap string (list string)) (rand : nat -> Z)
    (im out : image) (options : option user_options) :
  wf_image im ->
  quantizing (ditheringType (merge_options options)) ->
  dither_image PALETTES rand (Some im) options = Ok (Some out) ->
  exists color_palette,
    set_color_palette PALETTES (palette (merge_options options)) = Ok color_palette /\
    width out = width im /\ height out = height im /\
    forall k, (k < Z.to_nat (height im * width im))%nat ->
      exists r g b,
        Some [num r; num g; num b] ∈ color_palette /\
        take 3 (pixel_at (samples out) k) = [r; g; b].
Proof.
  intros Hwf Hmode Hrun.
  destruct (dither_image_Ok _ _ _ _ _ Hwf Hrun)
    as (cp & tm & final & Hcp & Htm & Hl & Hloop & ->).
  pose proof (set_color_palette_hex _ _ _ Hcp) as Hpal.
  pose proof Hwf as [Hw Hh _ _].
  exists cp. repeat (split; [done|]). cbn [samples].
  set (n := Z.to_nat (height im * width im)) in *.
  intros k Hk.
  destruct Hmode as [Hm|[Hm|[Hm|Hm]]].
  - destruct (pointwise_pass (fun _ old => find_closest_palette_color old cp)
                _ n _ _ final Hl
                (fun k data drawn _ =>
                   dither_pixel_quantization rand _ _ _ cp tm data drawn _
                     (or_introl Hm)) Hloop) as [_ Hall].
    destruct (Hall k Hk) as (v0 & v1 & v2 & v3 & rest & HG & Hpx).
    destruct (quantized_pixel_out cp _ final.1 k v0 v1 v2 v3 rest Hpal HG Hpx)
      as (r & g & b & Hin & _ & ->).
    by exists r, g, b.
  - destruct (pointwise_pass (fun _ old => find_closest_palette_color old cp)
                _ n _ _ final Hl
                (fun k data drawn _ =>
                   dither_pixel_quantization rand _ _ _ cp tm data drawn _
                     (or_intror Hm)) Hloop) as [_ Hall].
    destruct (Hall k Hk) as (v0 & v1 & v2 & v3 & rest & HG & Hpx).
    destruct (quantized_pixel_out cp _ final.1 k v0 v1 v2 v3 rest Hpal HG Hpx)
      as (r & g & b & Hin & _ & ->).
    by exists r, g, b.
  - destruct (pointwise_pass
                (fun k old =>
                   xy ← pixel_xy (4 * Z.of_nat k / 4) (width im);
                   new_pixel ← ordered_dither_pixel_value old xy tm
                                 (num 256 / num 4)%Q;
                   find_closest_palette_color new_pixel cp)
                (dither_pixel rand (merge_options options) (width im) (height im)
                   cp tm) n (num <$> samples im) 0%nat final Hl)
      as [_ Hall]; [|exact Hloop|].
    { intros j data drawn _. rewrite dither_pixel_ordered by done.
      destruct (get_pixel_color_values _ data); [|done]. cbn.
      destruct (pixel_xy _ _); [|done]. cbn.
      by destruct (ordered_dither_pixel_value _ _ _ _). }
    destruct (Hall k Hk) as (v0 & v1 & v2 & v3 & rest & HG & Hpx).
    apply bind_Ok in HG as (xy & _ & HG).
    apply bind_Ok in HG as (np & _ & HG).
    destruct (quantized_pixel_out cp _ final.1 k v0 v1 v2 v3 rest Hpal HG Hpx)
      as (r & g & b & Hin & _ & ->).
    by exists r, g, b.
  - destruct (error_diffusion_pass rand _ _ _ cp tm n _ _ final
                Hm Hpal Hw Hh eq_refl Hl Hloop) as [_ Hall].
    destruct (Hall k Hk) as (r & g & b & Hin & Hr & Hg & Hb & Hpx).
    exists r, g, b. split; [done|].
    by rewrite (pixel_at_out _ _ r g b) by done.
Qed.

(** Witness for C1: Floyd-Steinberg on a 3x2 grey image ends in black and
    white pixels only. *)
Lemma palette_closure_witness :
  let im := {| width := 3; height := 2;
               samples := [100; 100; 100; 255; 128; 128; 128; 255;
                           140; 140; 140; 255; 90; 100; 100; 255;
                           128; 128; 128; 255; 130; 140; 140; 255] |} in
  exists out,
    dither_image sample_PALETTES (fun _ => 0) (Some im) None = Ok (Some out) /\
    forall k, (k < 6)%nat ->
      exists r g b,
        Some [num r; num g; num b]
          ∈ [Some [num 0; num 0; num 0]; Some [num 255; num 255; num 255]] /\
        take 3 (pixel_at (samples out) k) = [r; g; b].
Proof.
  intros im.
  pose (out := {| width := 3; height := 2;
                  samples := [0; 0; 0; 255; 255; 255; 255; 255; 0; 0; 0; 255;
                              0; 0; 0; 255; 255; 255; 255; 255;
                              255; 255; 255; 255] |}).
  assert (Hrun : dither_image sample_PALETTES (fun _ => 0) (Some im) None
                 = Ok (Some out)) by (vm_compute; reflexivity).
  exists out. split; [exact Hrun|].
  destruct (palette_closure sample_PALETTES (fun _ => 0) im out None)
    as (cp & Hcp & _ & _ & Hall).
  - split; simpl; [lia|lia|reflexivity|]. repeat (constructor; [lia|]). constructor.
  - right. right. right. reflexivity.
  - exact Hrun.
  - vm_compute in Hcp. injection Hcp as <-. exact Hall.
Defined.

(** ** Ordered dithering *)





(** ** A colour string the parser rejects *)

Lemma find_closest_raises (pixel : color) (color_palette : list (option color)) :
  (3 <= length pixel)%nat ->
  hex_palette color_palette ->
  None ∈ color_palette ->
  find_closest_palette_color pixel color_palette = Raise TypeError.
Proof.
  intros Hp Hpal Hnone. unfold find_closest_palette_color.
  match goal with
  | |- list_comp ?f _ ≫= _ = _ =>
      assert (Hcomp : list_comp f color_palette = Raise TypeError)
  end; [|by rewrite Hcomp].
  induction color_palette as [|c rest IH]; [by apply elem_of_nil in Hnone|].
  cbn [list_comp]. destruct c as [l|].
  - destruct (Hpal l) as (r & g & b & -> & _); [by left|].
    rewrite distance_of_rgb by (simpl; lia). rewrite !bind_Ok_l.
    rewrite IH; [done| |].
    + intros l' Hl'. apply Hpal. by right.
    + by apply elem_of_cons in Hnone as [|].
  - done.
Qed.

Lemma ordered_dither_pixel_value_length (pixel np : color) (xy : Z * Z)
    (threshold_map : list (list Z)) (threshold : Q) :
  ordered_dither_pixel_value pixel xy threshold_map threshold = Ok np ->
  length np = length pixel.
Proof.
  unfold ordered_dither_pixel_value. intros H.
  apply bind_Ok in H as (row0 & _ & H).
  destruct (_ =? 0); [done|]. apply bind_Ok in H as (row & _ & H).
  destruct (_ =? 0); [done|]. apply bind_Ok in H as (t & _ & H).
  destruct (_ =? 0); [done|]. injection H as <-. by rewrite length_fmap.
Qed.

(** C10, as stated, fails: in random mode the palette is never consulted,
    so a colour list holding a string the parser rejects does not stop the
    call; it returns an image. *)
Lemma rejected_color_is_harmless_in_random_mode :
  ColorHelpers.hex_to_rgb "zzz" = None /\
  dither_image ∅ (fun _ => 100) (Some (one_pixel 10 10 10 255))
    (with_type_and_colors "random" ["zzz"]%string)
  = Ok (Some (one_pixel 0 0 0 255)).
Proof. split; vm_compute; reflexivity. Qed.

(** C10, amended.  For an image with at least one pixel, an explicit
    palette list holding a string the parser rejects, and a dithering type
    that consults the palette (empty, quantizationOnly, ordered,
    errorDiffusion): the rejected string becomes a [None] entry of the
    palette, no default palette is substituted, and the call raises while
    processing the first pixel; the exception is the [TypeError] of the
    distance computation unless ordered mode fails earlier in its own
    threshold lookup. *)
Theorem rejected_color_raises
    (PALETTES : gmap string (list string)) (rand : nat -> Z)
    (im : image) (options : option user_options)
    (colors : list string) (hex_color : string) :
  wf_image im -> 0 < width im -> 0 < height im ->
  palette (merge_options options) = PaletteList colors ->
  hex_color ∈ colors -> ColorHelpers.hex_to_rgb hex_color = None ->
  quantizing (ditheringType (merge_options options)) ->
  exists color_palette e,
    set_color_palette PALETTES (palette (merge_options options)) = Ok color_palette /\
    None ∈ color_palette /\
    dither_image PALETTES rand (Some im) options = Raise e /\
    (ditheringType (merge_options options) <> "ordered"%string -> e = TypeError).
Proof.
  intros Hwf Hw Hh Hlist Hin Hrej Hmode.
  pose proof Hwf as [_ _ Hlen _].
  set (opts := merge_options options) in *.
  set (cp := (fun hex_color : string =>
                (fun rgb : list Z => num <$> rgb) <$> ColorHelpers.hex_to_rgb hex_color)
               <$> colors).
  assert (Hcp : set_color_palette PALETTES (palette opts) = Ok cp)
    by (by rewrite Hlist).
  assert (Hnone : None ∈ cp).
  { apply list_elem_of_fmap. exists hex_color. by rewrite Hrej. }
  pose proof (set_color_palette_hex _ _ _ Hcp) as Hpal.
  destruct (create_bayer_matrix_total (orderedDitheringMatrix opts)) as [tm Htm].
  set (n := Z.to_nat (height im * width im)).
  assert (Hl : length (num <$> samples im) = (4 * n)%nat).
  { rewrite length_fmap. unfold n. nia. }
  assert (Hn : (0 < n)%nat) by (unfold n; nia).
  assert (Hfirst : exists e,
    dither_pixel rand opts (width im) (height im) cp tm
      (num <$> samples im, 0%nat) (4 * Z.of_nat 0) = Raise e /\
    (ditheringType opts <> "ordered"%string -> e = TypeError)).
  { destruct (get_pixel_at_total (num <$> samples im) 0) as [Hget Hlen4]; [lia|].
    assert (Hfind : forall p, length p = 4%nat ->
              find_closest_palette_color p cp = Raise TypeError).
    { intros p Hp. apply find_closest_raises; [lia|done|done]. }
    destruct Hmode as [Hm|[Hm|[Hm|Hm]]].
    - exists TypeError. split; [|done].
      rewrite dither_pixel_quantization by (by left).
      rewrite Hget, bind_Ok_l, Hfind; done.
    - exists TypeError. split; [|done].
      rewrite dither_pixel_quantization by (by right).
      rewrite Hget, bind_Ok_l, Hfind; done.
    - rewrite dither_pixel_ordered by done. rewrite Hget, bind_Ok_l.
      unfold pixel_xy. destruct (width im =? 0) eqn:E; [apply Z.eqb_eq in E; lia|].
      rewrite bind_Ok_l.
      destruct (ordered_dither_pixel_value _ _ tm _) as [np|e] eqn:Hnp.
      + exists TypeError. split; [|done]. rewrite bind_Ok_l.
        apply ordered_dither_pixel_value_length in Hnp.
        rewrite Hfind; [done|lia].
      + exists e. split; [done|]. intros Hne. by destruct Hne.
    - exists TypeError. split; [|done].
      rewrite dither_pixel_error_diffusion by done.
      rewrite Hget, bind_Ok_l, Hfind; done. }
  destruct Hfirst as (e & Hbody & He).
  exists cp, e. split; [done|]. split; [done|]. split; [|done].
  unfold dither_image. fold opts. rewrite Hcp, bind_Ok_l, Htm, bind_Ok_l.
  rewrite Hl, py_range4_pixels.
  destruct n as [|n']; [lia|]. cbn [seq fmap list_fmap for_each].
  by rewrite Hbody.
Qed.

(** Witness for C10: black, white and one rejected string, default mode. *)
Lemma rejected_color_raises_witness :
  dither_image sample_PALETTES (fun _ => 0) (Some (one_pixel 10 10 10 255))
    (with_colors ["#000"; "#fff"; "zzz"]%string) = Raise TypeError.
Proof.
  destruct (rejected_color_raises sample_PALETTES (fun _ => 0)
              (one_pixel 10 10 10 255) (with_colors ["#000"; "#fff"; "zzz"]%string)
              ["#000"; "#fff"; "zzz"]%string "zzz"%string)
    as (cp & e & _ & _ & Hrun & He).
  - split; simpl; [lia|lia|reflexivity|]. repeat (constructor; [lia|]). constructor.
  - simpl. lia.
  - simpl. lia.
  - reflexivity.
  - apply list_elem_of_In. simpl. tauto.
  - reflexivity.
  - right. right. right. reflexivity.
  - rewrite Hrun. f_equal. apply He. discriminate.
Defined.

(** ** Colour replacement *)

Lemma replace_hex_to_rgb_triple (hex_color : string) (l : list Z) :
  ReplaceColors.hex_to_rgb hex_color = Ok l -> exists r g b, l = [r; g; b].
Proof.
  unfold ReplaceColors.hex_to_rgb. intros H.
  apply bind_Ok in H as (r & _ & H). apply bind_Ok in H as (g & _ & H).
  apply bind_Ok in H as (b & _ & H). injection H as <-. by exists r, g, b.
Qed.

Lemma parsed_colors_are_triples (colors : list string) (rgbs : list (list Z)) :
  list_comp ReplaceColors.hex_to_rgb colors = Ok rgbs ->
  Forall (fun l => exists r g b, l = [r; g; b]) rgbs.
Proof.
  intros H. apply list_comp_Ok in H.
  induction H as [|s l colors rgbs Hs _ IH]; constructor; [|done].
  by eapply replace_hex_to_rgb_triple.
Qed.

Lemma first_match_index (rgb : list Z) (original : list (list Z)) (idx0 idx : Z)
    (c : list Z) :
  first_match rgb original idx0 = Some (c, idx) ->
  idx0 <= idx /\ c = rgb /\
  original !! Z.to_nat (idx - idx0) = Some rgb /\
  forall j, (j < Z.to_nat (idx - idx0))%nat -> original !! j <> Some rgb.
Proof.
  revert idx0. induction original as [|o rest IH]; intros idx0; simpl; [done|].
  case_bool_decide as Ho.
  - intros [= <- <-]. rewrite Z.sub_diag.
    split; [lia|]. split; [done|]. split; [by subst|].
    intros j Hj. simpl in Hj. lia.
  - intros H. apply IH in H as (Hle & -> & Hl & Hleast).
    replace (Z.to_nat (idx - idx0)) with (S (Z.to_nat (idx - (idx0 + 1)))) by lia.
    split; [lia|]. split; [done|]. split; [done|].
    intros [|j] Hj; simpl; [congruence|]. apply Hleast. lia.
Qed.

(** The scan of the source finds what [first_match] describes. *)
Lemma find_match_first_match (data : list Z) (k : nat)
    (original : list (list Z)) (idx : Z) :
  (4 * k + 3 < length data)%nat ->
  Forall (fun l => exists r g b, l = [r; g; b]) original ->
  ReplaceColors.find_match data (4 * Z.of_nat k) original idx =
  Ok (first_match (rgb_at data k) original idx).
Proof.
  intros Hk Horig. revert idx.
  destruct (lookup_lt_is_Some_2 data (4 * k)) as [p0 H0]; [lia|].
  destruct (lookup_lt_is_Some_2 data (4 * k + 1)) as [p1 H1]; [lia|].
  destruct (lookup_lt_is_Some_2 data (4 * k + 2)) as [p2 H2]; [lia|].
  destruct (lookup_lt_is_Some_2 data (4 * k + 3)) as [p3 H3]; [lia|].
  assert (Hrgb : rgb_at data k = [p0; p1; p2]).
  { unfold rgb_at. by rewrite (pixel_at_lookups data k p0 p1 p2 p3). }
  rewrite Hrgb.
  assert (I0 : py_index data (4 * Z.of_nat k) = Ok p0).
  { apply py_index_in_range; [lia|].
    by replace (Z.to_nat (4 * Z.of_nat k)) with (4 * k)%nat by lia. }
  assert (I1 : py_index data (4 * Z.of_nat k + 1) = Ok p1).
  { apply py_index_in_range; [lia|].
    by replace (Z.to_nat (4 * Z.of_nat k + 1)) with (4 * k + 1)%nat by lia. }
  assert (I2 : py_index data (4 * Z.of_nat k + 2) = Ok p2).
  { apply py_index_in_range; [lia|].
    by replace (Z.to_nat (4 * Z.of_nat k + 2)) with (4 * k + 2)%nat by lia. }
  induction Horig as [|c rest (r & g & b & ->) _ IH]; intros idx; [done|].
  cbn [ReplaceColors.find_match first_match].
  rewrite I0, I1, I2, !bind_Ok_l.
  destruct (py_index_012 r g b []) as (-> & -> & ->). rewrite !bind_Ok_l.
  destruct (p0 =? r) eqn:E0; cbn [negb].
  2:{ apply Z.eqb_neq in E0. rewrite bool_decide_eq_false_2 by congruence. apply IH. }
  destruct (p1 =? g) eqn:E1; cbn [negb].
  2:{ apply Z.eqb_neq in E1. rewrite bool_decide_eq_false_2 by congruence. apply IH. }
  destruct (p2 =? b) eqn:E2; cbn [negb].
  2:{ apply Z.eqb_neq in E2. rewrite bool_decide_eq_false_2 by congruence. apply IH. }
  apply Z.eqb_eq in E0, E1, E2. subst. by rewrite bool_decide_eq_true_2.
Qed.

Lemma write3_length data n r g b : length (write3 data n r g b) = length data.
Proof. unfold write3. by rewrite !length_insert. Qed.

Lemma write3_lookup_other data n r g b (j : nat) :
  (j < n \/ n + 3 <= j)%nat -> write3 data n r g b !! j = data !! j.
Proof. intros Hj. unfold write3. rewrite !list_lookup_insert_ne by lia. done. Qed.

Lemma pixel_at_write3_other (data : list Z) (k j : nat) (r g b : Z) :
  j <> k -> pixel_at (write3 data (4 * k) r g b) j = pixel_at data j.
Proof.
  intros Hjk. apply pixel_at_ext. intros i Hi. apply write3_lookup_other. lia.
Qed.

Lemma pixel_at_write3 (data : list Z) (k : nat) (r g b : Z) :
  (4 * k + 3 < length data)%nat ->
  pixel_at (write3 data (4 * k) r g b) k = [r; g; b] ++ drop 3 (pixel_at data k).
Proof.
  intros Hk.
  destruct (lookup_lt_is_Some_2 data (4 * k)) as [p0 H0]; [lia|].
  destruct (lookup_lt_is_Some_2 data (4 * k + 1)) as [p1 H1]; [lia|].
  destruct (lookup_lt_is_Some_2 data (4 * k + 2)) as [p2 H2]; [lia|].
  destruct (lookup_lt_is_Some_2 data (4 * k + 3)) as [p3 H3]; [lia|].
  rewrite (pixel_at_lookups data k p0 p1 p2 p3) by done. simpl.
  apply pixel_at_lookups; unfold write3.
  - rewrite !list_lookup_insert_ne by lia. apply list_lookup_insert_eq. lia.
  - rewrite !list_lookup_insert_ne by lia.
    apply list_lookup_insert_eq. rewrite length_insert. lia.
  - apply list_lookup_insert_eq. rewrite !length_insert. lia.
  - by rewrite !list_lookup_insert_ne by lia.
Qed.

(** One pixel of the replacement pass, by what the scan finds. *)
Lemma replace_pixel_cases (original replacement : list (list Z))
    (data : list Z) (error_colors : Z) (k : nat) :
  (4 * k + 3 < length data)%nat ->
  Forall (fun l => exists r g b, l = [r; g; b]) original ->
  Forall (fun l => exists r g b, l = [r; g; b]) replacement ->
  let step := ReplaceColors.replace_pixel original replacement
                (data, error_colors) (4 * Z.of_nat k) in
  match first_match (rgb_at data k) original 0 with
  | None => step = Ok (ReplaceColors.Continue (data, error_colors + 1))
  | Some (c, idx) =>
      if idx <? Z.of_nat (length replacement)
      then exists r g b,
             replacement !! Z.to_nat idx = Some [r; g; b] /\
             (step = Ok (ReplaceColors.Continue
                           (write3 data (4 * k) r g b, error_colors)) \/
              step = Raise OverflowError)
      else step = Ok (ReplaceColors.Return None)
  end.
Proof.
  intros Hk Horig Hrepl step. unfold step, ReplaceColors.replace_pixel.
  rewrite find_match_first_match by done. rewrite bind_Ok_l.
  destruct (first_match (rgb_at data k) original 0) as [[c idx]|] eqn:Hm; [|done].
  apply first_match_index in Hm as (Hidx & _).
  destruct (idx <? Z.of_nat (length replacement)) eqn:E; [|done].
  apply Z.ltb_lt in E.
  destruct (lookup_lt_is_Some_2 replacement (Z.to_nat idx)) as [l Hl]; [lia|].
  rewrite Forall_forall in Hrepl.
  destruct (Hrepl l) as (r & g & b & ->); [by eapply list_elem_of_lookup_2|].
  exists r, g, b. split; [done|].
  rewrite (py_index_in_range replacement idx [r; g; b] Hidx Hl), bind_Ok_l.
  destruct (py_index_012 r g b []) as (-> & -> & ->). rewrite !bind_Ok_l.
  unfold ReplaceColors.store_uint8.
  destruct ((r <? 0) || (255 <? r)); [by right|].
  rewrite py_store_in_range by lia. rewrite !bind_Ok_l.
  destruct ((g <? 0) || (255 <? g)); [by right|].
  rewrite py_store_in_range by (rewrite length_insert; lia). rewrite !bind_Ok_l.
  destruct ((b <? 0) || (255 <? b)); [by right|].
  rewrite py_store_in_range by (rewrite !length_insert; lia). rewrite !bind_Ok_l.
  left. unfold write3. do 4 f_equal; [lia|]. f_equal; [lia|]. f_equal. lia.
Qed.

Lemma for_each_return_partial {S X V} (Inv : nat -> S -> Prop)
    (body : S -> X -> result (ReplaceColors.control S V)) (f : nat -> X) (n : nat) :
  (forall k st st', (k < n)%nat -> Inv k st ->
     body st (f k) = Ok (ReplaceColors.Continue st') -> Inv (Datatypes.S k) st') ->
  forall st0 st, Inv 0%nat st0 ->
  ReplaceColors.for_each_return body (f <$> seq 0 n) st0
    = Ok (ReplaceColors.Continue st) ->
  Inv n st.
Proof.
  intros Hstep.
  assert (Hgen : forall m s st0 st, (s + m = n)%nat -> Inv s st0 ->
            ReplaceColors.for_each_return body (f <$> seq s m) st0
              = Ok (ReplaceColors.Continue st) -> Inv n st).
  { induction m as [|m IH]; intros s st0 st Hs H0; simpl.
    - intros [= <-]. by replace n with s by lia.
    - intros Hrun. apply bind_Ok in Hrun as ([st'|v] & Hb & Hrun); [|done].
      apply (IH (Datatypes.S s) st' st); [lia| |done].
      apply (Hstep s st0 st'); [lia|done|done]. }
  intros st0 st H0. by apply (Hgen n 0%nat).
Qed.

(** A pass that reaches a pixel whose body returns [None] ends there,
    unless a store was refused on the way. *)
Lemma for_each_return_aborts {S X} (J : nat -> S -> Prop)
    (body : S -> X -> result (ReplaceColors.control S (option image)))
    (f : nat -> X) (n stop : nat) :
  (stop < n)%nat ->
  (forall k st, (k < stop)%nat -> J k st ->
     (exists st', body st (f k) = Ok (ReplaceColors.Continue st') /\
                  J (Datatypes.S k) st') \/
     body st (f k) = Ok (ReplaceColors.Return None) \/
     body st (f k) = Raise OverflowError) ->
  (forall st, J stop st -> body st (f stop) = Ok (ReplaceColors.Return None)) ->
  forall st0, J 0%nat st0 ->
  ReplaceColors.for_each_return body (f <$> seq 0 n) st0
    = Ok (ReplaceColors.Return None) \/
  ReplaceColors.for_each_return body (f <$> seq 0 n) st0 = Raise OverflowError.
Proof.
  intros Hstop Hbefore Hat.
  assert (Hgen : forall m s st0, (s + m = n)%nat -> (s <= stop)%nat -> J s st0 ->
            ReplaceColors.for_each_return body (f <$> seq s m) st0
              = Ok (ReplaceColors.Return None) \/
            ReplaceColors.for_each_return body (f <$> seq s m) st0
              = Raise OverflowError).
  { induction m as [|m IH]; intros s st0 Hs Hle H0; [lia|]. simpl.
    destruct (decide (s = stop)) as [->|Hne].
    - rewrite (Hat st0 H0). by left.
    - destruct (Hbefore s st0) as [(st' & -> & H')|[-> | ->]]; [lia|done|..].
      + simpl. apply IH; [lia|lia|done].
      + by left.
      + by right. }
  intros st0 H0. apply (Hgen n 0%nat); [lia|lia|done].
Qed.

Lemma replace_pixel_returns_None (original replacement : list (list Z))
    (st : list Z * Z) (i : Z) (v : option image) :
  ReplaceColors.replace_pixel original replacement st i
    = Ok (ReplaceColors.Return v) -> v = None.
Proof.
  destruct st as [data cnt]. unfold ReplaceColors.replace_pixel. intros H.
  apply bind_Ok in H as (found & _ & H).
  destruct found as [[c idx]|]; [|done].
  destruct (idx <? _); [|by injection H as <-].
  repeat (apply bind_Ok in H as (? & _ & H)). done.
Qed.

Lemma for_each_return_None (original replacement : list (list Z))
    (xs : list Z) (st : list Z * Z) (v : option image) :
  ReplaceColors.for_each_return
    (ReplaceColors.replace_pixel original replacement) xs st
    = Ok (ReplaceColors.Return v) -> v = None.
Proof.
  revert st. induction xs as [|x xs IH]; intros st; simpl; [done|].
  intros H. apply bind_Ok in H as ([st'|v'] & Hb & H).
  - by eapply IH.
  - injection H as <-. by eapply replace_pixel_returns_None.
Qed.

Lemma unmatched_S (samples : list Z) (original : list (list Z)) (k : nat) :
  unmatched samples original (S k) =
  unmatched samples original k +
  (if decide (first_match (rgb_at samples k) original 0 = None) then 1 else 0).
Proof.
  unfold unmatched. rewrite seq_S, filter_app, length_app. simpl.
  rewrite filter_cons, filter_nil. case_decide; simpl; lia.
Qed.

(** C9, as stated, fails: when the original list repeats a colour, a pixel
    of that colour matches an entry whose index has no replacement (the
    second occurrence), yet the scan stops at the first occurrence, which
    has one, and the call returns the replaced image. *)
Lemma repeated_original_color_does_not_abort :
  let original := [[0; 0; 0]; [255; 255; 255]; [0; 0; 0]] in
  let replacement := [[17; 17; 17]; [34; 34; 34]] in
  list_comp ReplaceColors.hex_to_rgb ["#000"; "#fff"; "#000"]%string = Ok original /\
  list_comp ReplaceColors.hex_to_rgb ["#111"; "#222"]%string = Ok replacement /\
  original !! 2%nat = Some (rgb_at (samples (one_pixel 0 0 0 255)) 0) /\
  replacement !! 2%nat = None /\
  ReplaceColors.replace_colors (one_pixel 0 0 0 255)
    ["#000"; "#fff"; "#000"]%string ["#111"; "#222"]%string
  = Ok {| ReplaceColors.returned := Some (one_pixel 17 17 17 255);
          ReplaceColors.printed := None |}.
Proof. repeat split; vm_compute; reflexivity. Qed.

(** C9, amended.  Scanning the original colours in order: if, for some
    pixel, the first entry equal to it has an index with no replacement
    entry, the call returns no image (it returns [None], or numpy has
    refused an earlier store); and whenever the call returns an image,
    every pixel equal to no original colour is as it was, every other
    pixel has the replacement of its first match with its alpha kept, and
    the count printed is the number of pixels that matched nothing. *)
Theorem replace_colors_abort_and_count
    (im : image) (original_colors replace_colors_list : list string)
    (original replacement : list (list Z)) :
  wf_image im ->
  list_comp ReplaceColors.hex_to_rgb original_colors = Ok original ->
  list_comp ReplaceColors.hex_to_rgb replace_colors_list = Ok replacement ->
  let n := Z.to_nat (height im * width im) in
  let call := ReplaceColors.replace_colors im original_colors replace_colors_list in
  ((exists k c idx, (k < n)%nat /\
      first_match (rgb_at (samples im) k) original 0 = Some (c, idx) /\
      Z.of_nat (length replacement) <= idx) ->
   call = Ok {| ReplaceColors.returned := None; ReplaceColors.printed := None |} \/
   call = Raise OverflowError) /\
  (forall out msg,
     call = Ok {| ReplaceColors.returned := Some out; ReplaceColors.printed := msg |} ->
     width out = width im /\ height out = height im /\
     (forall k, (k < n)%nat ->
        first_match (rgb_at (samples im) k) original 0 = None ->
        pixel_at (samples out) k = pixel_at (samples im) k) /\
     (forall k c idx, (k < n)%nat ->
        first_match (rgb_at (samples im) k) original 0 = Some (c, idx) ->
        exists r g b,
          replacement !! Z.to_nat idx = Some [r; g; b] /\
          pixel_at (samples out) k = [r; g; b] ++ drop 3 (pixel_at (samples im) k)) /\
     msg = (if 0 <? unmatched (samples im) original n
            then Some (unmatched (samples im) original n) else None)).
Proof.
  intros [Hw Hh Hlen _] Horig Hrepl n call.
  pose proof (parsed_colors_are_triples _ _ Horig) as Ho3.
  pose proof (parsed_colors_are_triples _ _ Hrepl) as Hr3.
  assert (Hl : length (samples im) = (4 * n)%nat) by (unfold n; nia).
  assert (Hcall : call =
    (c ← ReplaceColors.for_each_return
           (ReplaceColors.replace_pixel original replacement)
           ((fun k => 4 * Z.of_nat k) <$> seq 0 n) (samples im, 0);
     match c with
     | ReplaceColors.Return v =>
         Ok {| ReplaceColors.returned := v; ReplaceColors.printed := None |}
     | ReplaceColors.Continue (image_data, error_colors) =>
         if negb (Z.of_nat (length image_data) =? height im * width im * 4)
         then Raise ValueError
         else Ok {| ReplaceColors.returned :=
                      Some {| width := width im; height := height im;
                              samples := image_data |};
                    ReplaceColors.printed :=
                      if 0 <? error_colors then Some error_colors else None |}
     end)).
  { unfold call, ReplaceColors.replace_colors.
    rewrite Horig, Hrepl, !bind_Ok_l, Hl, py_range4_pixels. done. }
  set (fm := fun k => first_match (rgb_at (samples im) k) original 0).
  assert (Hrgb : forall data k,
            pixel_at data k = pixel_at (samples im) k ->
            first_match (rgb_at data k) original 0 = fm k).
  { intros data k Hpx. unfold fm, rgb_at. by rewrite Hpx. }
  split.
  - intros (stop & c & idx & Hstop & Hm & Hidx).
    set (J := fun (k : nat) (st : list Z * Z) =>
      length st.1 = (4 * n)%nat /\
      forall j, (k <= j)%nat -> pixel_at st.1 j = pixel_at (samples im) j).
    destruct (for_each_return_aborts J
                (ReplaceColors.replace_pixel original replacement)
                (fun k => 4 * Z.of_nat k) n stop Hstop)
      with (st0 := (samples im, 0)) as [Hrun|Hrun].
    + intros k [data cnt] Hk [HJl HJ]. cbn [fst] in *.
      pose proof (replace_pixel_cases original replacement data cnt k
                    ltac:(lia) Ho3 Hr3) as Hcases. cbv zeta in Hcases.
      rewrite (Hrgb data k) in Hcases by (apply HJ; lia).
      destruct (fm k) as [[c' idx']|].
      * destruct (idx' <? _).
        -- destruct Hcases as (r & g & b & _ & [Hc|Hc]); [|by right; right].
           left. eexists. split; [exact Hc|]. split; cbn [fst].
           ++ by rewrite write3_length.
           ++ intros j Hj. rewrite pixel_at_write3_other by lia. apply HJ. lia.
        -- by right; left.
      * left. eexists. split; [exact Hcases|]. split; cbn [fst]; [done|].
        intros j Hj. apply HJ. lia.
    + intros [data cnt] [HJl HJ]. cbn [fst] in *.
      pose proof (replace_pixel_cases original replacement data cnt stop
                    ltac:(lia) Ho3 Hr3) as Hcases. cbv zeta in Hcases.
      rewrite (Hrgb data stop) in Hcases by (apply HJ; lia).
      unfold fm in Hcases. rewrite Hm in Hcases.
      by replace (idx <? Z.of_nat (length replacement)) with false in Hcases
        by (symmetry; apply Z.ltb_ge; lia).
    + by split.
    + left. by rewrite Hcall, Hrun.
    + right. by rewrite Hcall, Hrun.
  - intros out msg Hout. rewrite Hcall in Hout.
    apply bind_Ok in Hout as ([[data cnt]|v] & Hrun & Hout).
    2:{ apply for_each_return_None in Hrun as ->. discriminate. }
    set (Inv := fun (k : nat) (st : list Z * Z) =>
      length st.1 = (4 * n)%nat /\
      (forall j, (k <= j)%nat -> pixel_at st.1 j = pixel_at (samples im) j) /\
      (forall j, (j < k)%nat -> fm j = None ->
         pixel_at st.1 j = pixel_at (samples im) j) /\
      (forall j c idx, (j < k)%nat -> fm j = Some (c, idx) ->
         exists r g b,
           replacement !! Z.to_nat idx = Some [r; g; b] /\
           pixel_at st.1 j = [r; g; b] ++ drop 3 (pixel_at (samples im) j)) /\
      st.2 = unmatched (samples im) original k).
    assert (HInv : Inv n (data, cnt)).
    { apply (for_each_return_partial Inv
               (ReplaceColors.replace_pixel original replacement)
               (fun k => 4 * Z.of_nat k) n) with (st0 := (samples im, 0));
        [|split; [done|split; [done|split; [intros; lia|split; [intros; lia|done]]]]
         |exact Hrun].
      intros k [d e] st' Hk (Il & Itodo & Inone & Isome & Icnt) Hstep.
      cbn [fst snd] in *.
      pose proof (replace_pixel_cases original replacement d e k
                    ltac:(lia) Ho3 Hr3) as Hcases. cbv zeta in Hcases.
      rewrite (Hrgb d k) in Hcases by (apply Itodo; lia).
      rewrite Hstep in Hcases. unfold Inv. cbn [fst snd].
      rewrite unmatched_S. fold (fm k).
      destruct (fm k) as [[c' idx']|] eqn:Hfm.
      - destruct (idx' <? _); [|discriminate].
        destruct Hcases as (r & g & b & Hr & [Hc|Hc]); [|discriminate].
        assert (st' = (write3 d (4 * k) r g b, e)) as -> by congruence.
        cbn [fst snd].
        split; [by rewrite write3_length|].
        split. { intros j Hj. rewrite pixel_at_write3_other by lia. apply Itodo. lia. }
        split. { intros j Hj Hn. rewrite pixel_at_write3_other by congruence.
                 apply Inone; [|done]. destruct (decide (j = k)); [congruence|lia]. }
        split; [|rewrite decide_False by done; lia].
        intros j c idx Hj Hs. destruct (decide (j = k)) as [->|Hne].
        + rewrite Hfm in Hs. injection Hs as <- <-.
          exists r, g, b. split; [done|].
          rewrite pixel_at_write3 by lia. by rewrite Itodo by lia.
        + rewrite pixel_at_write3_other by done. eapply Isome; [lia|done].
      - assert (st' = (d, e + 1)) as -> by congruence. cbn [fst snd].
        split; [done|]. split. { intros j Hj. apply Itodo. lia. }
        split. { intros j Hj Hn. destruct (decide (j = k)) as [->|Hne].
                 - apply Itodo. lia.
                 - apply Inone; [lia|done]. }
        split; [|rewrite decide_True by done; lia].
        intros j c idx Hj Hs. destruct (decide (j = k)) as [->|Hne]; [congruence|].
        eapply Isome; [lia|done]. }
    destruct HInv as (Il & _ & Inone & Isome & Icnt). cbn [fst snd] in *.
    destruct (negb _); [discriminate|]. injection Hout as <- <-. cbn [width height samples].
    split; [done|]. split; [done|]. split; [exact Inone|]. split; [exact Isome|].
    by rewrite Icnt.
Qed.

(** Witness for C9: a white pixel with only black replaced aborts. *)
Lemma replace_colors_abort_and_count_witness :
  ReplaceColors.replace_colors (one_pixel 255 255 255 255)
    ["#000"; "#fff"]%string ["#111"]%string
  = Ok {| ReplaceColors.returned := None; ReplaceColors.printed := None |}.
Proof.
  destruct (replace_colors_abort_and_count (one_pixel 255 255 255 255)
              ["#000"; "#fff"]%string ["#111"]%string
              [[0; 0; 0]; [255; 255; 255]] [[17; 17; 17]]) as [Habort _].
  - split; simpl; [lia|lia|reflexivity|]. repeat (constructor; [lia|]). constructor.
  - reflexivity.
  - reflexivity.
  - destruct Habort as [H|H].
    + exists 0%nat, [255; 255; 255], 1. split; [simpl; lia|]. split; [reflexivity|].
      simpl. lia.
    + exact H.
    + vm_compute in H. discriminate.
Defined.

(** ** The call returns on well-formed input *)

Lemma find_closest_total (pixel : color) (color_palette : list (option color)) :
  (3 <= length pixel)%nat ->
  hex_palette color_palette -> color_palette <> [] -> None ∉ color_palette ->
  exists res, find_closest_palette_color pixel color_palette = Ok res.
Proof.
  intros Hp Hpal Hne Hnone.
  assert (Hsome : exists pal, color_palette = Some <$> pal).
  { clear Hpal Hne. induction color_palette as [|[l|] rest IH].
    - by exists [].
    - destruct IH as [pal ->]; [intros H; apply Hnone; by right|].
      by exists (l :: pal).
    - destruct Hnone. by left. }
  destruct Hsome as [pal ->].
  assert (H3 : Forall (fun c : color => (3 <= length c)%nat) pal).
  { apply Forall_forall. intros l Hl.
    destruct (Hpal l) as (r & g & b & -> & _); [|simpl; lia].
    apply list_elem_of_fmap. by exists l. }
  unfold find_closest_palette_color.
  rewrite colors_with_distance_of by done. rewrite bind_Ok_l.
  destruct (closest_is_first_minimum (entry_of pixel <$> pal))
    as (i & e & _ & -> & _); [by destruct pal|].
  destruct (Z.of_nat (length (color_of e)) <? 4); eauto.
Qed.

Lemma create_bayer_matrix_rectangular_table :
  forallb (fun w => forallb (fun h =>
    match create_bayer_matrix (w, h) with
    | Ok m => rectangular m
    | Raise _ => false
    end) (Z.succ <$> py_range 8)) (Z.succ <$> py_range 8) = true.
Proof. vm_compute. reflexivity. Qed.

Lemma create_bayer_matrix_rectangular (size : Z * Z) :
  1 <= size.1 -> 1 <= size.2 ->
  exists threshold_map,
    create_bayer_matrix size = Ok threshold_map /\ rectangular threshold_map = true.
Proof.
  intros Hw Hh. rewrite create_bayer_matrix_clamped.
  set (w := Z.max 0 (Z.min size.1 8)). set (h := Z.max 0 (Z.min size.2 8)).
  assert (Hin : forall v, 1 <= v <= 8 -> In v (Z.succ <$> py_range 8)).
  { intros v Hv. apply list_elem_of_In, list_elem_of_fmap. exists (v - 1).
    split; [lia|]. apply elem_of_py_range. lia. }
  pose proof create_bayer_matrix_rectangular_table as T.
  rewrite forallb_forall in T. specialize (T w (Hin w ltac:(lia))).
  rewrite forallb_forall in T. specialize (T h (Hin h ltac:(lia))).
  destruct (create_bayer_matrix (w, h)) as [m|]; [by exists m|done].
Qed.

Lemma ordered_dither_pixel_value_total (pixel : color) (x y : Z)
    (threshold_map : list (list Z)) (threshold : Q) :
  rectangular threshold_map = true ->
  exists np, ordered_dither_pixel_value pixel (x, y) threshold_map threshold = Ok np /\
             length np = length pixel.
Proof.
  intros Hrect. unfold rectangular in Hrect.
  destruct threshold_map as [|row0 rows] eqn:Etm; [done|]. rewrite <- Etm in *.
  apply andb_prop in Hrect as [Hpos Hall]. apply Z.ltb_lt in Hpos.
  rewrite forallb_forall in Hall.
  assert (Hlen : (0 < length threshold_map)%nat) by (rewrite Etm; simpl; lia).
  unfold ordered_dither_pixel_value. cbn [fst snd].
  rewrite (py_index_in_range _ 0 row0) by (lia || by rewrite Etm).
  rewrite bind_Ok_l.
  set (mh := Z.of_nat (length threshold_map)).
  set (mw := Z.of_nat (length row0)).
  destruct (mh =? 0) eqn:Eh; [apply Z.eqb_eq in Eh; lia|].
  pose proof (Z.mod_pos_bound y mh ltac:(lia)) as Hy.
  destruct (lookup_lt_is_Some_2 threshold_map (Z.to_nat (y mod mh))) as [row Hrow];
    [lia|].
  rewrite (py_index_in_range _ _ row) by (lia || done). rewrite bind_Ok_l.
  destruct (mw =? 0) eqn:Ew; [apply Z.eqb_eq in Ew; lia|].
  assert (Hrl : length row = length row0).
  { apply Nat.eqb_eq, Hall, list_elem_of_In. by eapply list_elem_of_lookup_2. }
  pose proof (Z.mod_pos_bound x mw ltac:(lia)) as Hx.
  destruct (lookup_lt_is_Some_2 row (Z.to_nat (x mod mw))) as [t Ht]; [lia|].
  rewrite (py_index_in_range _ _ t) by (lia || done). rewrite bind_Ok_l.
  destruct (mh * mw =? 0) eqn:E; [apply Z.eqb_eq in E; nia|].
  eexists. split; [done|]. by rewrite length_fmap.
Qed.

(** With a palette that parsed and is not empty (and, in ordered mode, a
    matrix size of at least 1x1) the four palette-consulting modes return
    an image. *)
Lemma dither_image_total (PALETTES : gmap string (list string)) (rand : nat -> Z)
    (im : image) (options : option user_options)
    (color_palette : list (option color)) :
  wf_image im ->
  quantizing (ditheringType (merge_options options)) ->
  set_color_palette PALETTES (palette (merge_options options)) = Ok color_palette ->
  color_palette <> [] -> None ∉ color_palette ->
  1 <= (orderedDitheringMatrix (merge_options options)).1 ->
  1 <= (orderedDitheringMatrix (merge_options options)).2 ->
  exists out, dither_image PALETTES rand (Some im) options = Ok (Some out).
Proof.
  intros Hwf Hmode Hcp Hne Hnone Hmw Hmh.
  pose proof Hwf as [Hw Hh Hlen _].
  pose proof (set_color_palette_hex _ _ _ Hcp) as Hpal.
  set (opts := merge_options options) in *.
  destruct (create_bayer_matrix_rectangular (orderedDitheringMatrix opts) Hmw Hmh)
    as (tm & Htm & Hrect).
  set (n := Z.to_nat (height im * width im)).
  assert (Hl : length (num <$> samples im) = (4 * n)%nat).
  { rewrite length_fmap. unfold n. nia. }
  assert (Hfind : forall p, length p = 4%nat ->
            exists r g b, find_closest_palette_color p color_palette
                          = Ok [num r; num g; num b; num 255] /\
                          0 <= r <= 255 /\ 0 <= g <= 255 /\ 0 <= b <= 255).
  { intros p Hp.
    destruct (find_closest_total p color_palette) as [res Hres]; [lia|done..|].
    destruct (find_closest_hex _ _ _ Hpal Hres) as (r & g & b & _ & -> & Hr).
    by exists r, g, b. }
  assert (Hloop : exists final,
    for_each (dither_pixel rand opts (width im) (height im) color_palette tm)
      ((fun k => 4 * Z.of_nat k) <$> seq 0 n) (num <$> samples im, 0%nat)
      = Ok final /\ length final.1 = (4 * n)%nat).
  { apply (for_each_total (fun _ st => length st.1 = (4 * n)%nat)); [|done].
    intros k [data drawn] Hk Hdl. cbn [fst] in Hdl.
    destruct (get_pixel_at_total data k) as [Hget Hlen4]; [lia|].
    assert (Hset : forall r g b,
      set_pixel data (4 * Z.of_nat k) [num r; num g; num b; num 255]
      = Ok (write4 data (4 * k) (clamp_uint8 (num r)) (clamp_uint8 (num g))
              (clamp_uint8 (num b)) (clamp_uint8 (num 255)))).
    { intros r g b. rewrite set_pixel_in_range by lia.
      by replace (Z.to_nat (4 * Z.of_nat k)) with (4 * k)%nat by lia. }
    destruct Hmode as [Hm|[Hm|[Hm|Hm]]].
    - rewrite dither_pixel_quantization by (by left).
      destruct (Hfind _ Hlen4) as (r & g & b & Hf & _).
      rewrite Hget, bind_Ok_l, Hf, bind_Ok_l, Hset, bind_Ok_l.
      eexists. split; [done|]. cbn [fst]. by rewrite write4_length.
    - rewrite dither_pixel_quantization by (by right).
      destruct (Hfind _ Hlen4) as (r & g & b & Hf & _).
      rewrite Hget, bind_Ok_l, Hf, bind_Ok_l, Hset, bind_Ok_l.
      eexists. split; [done|]. cbn [fst]. by rewrite write4_length.
    - rewrite dither_pixel_ordered by done. rewrite Hget, bind_Ok_l.
      unfold pixel_xy. destruct (width im =? 0) eqn:E; [apply Z.eqb_eq in E; nia|].
      rewrite bind_Ok_l.
      edestruct (ordered_dither_pixel_value_total (pixel_at data k))
        as (np & -> & Hnp); [exact Hrect|].
      rewrite bind_Ok_l.
      destruct (Hfind np ltac:(lia)) as (r & g & b & Hf & _).
      rewrite Hf, bind_Ok_l, Hset, bind_Ok_l.
      eexists. split; [done|]. cbn [fst]. by rewrite write4_length.
    - rewrite dither_pixel_error_diffusion by done.
      destruct (Hfind _ Hlen4) as (r & g & b & Hf & _).
      rewrite Hget, bind_Ok_l, Hf, bind_Ok_l, Hset, bind_Ok_l.
      destruct (pixel_at data k) as [|a [|b' [|c [|o [|]]]]]; try done.
      rewrite get_quant_error_4, bind_Ok_l.
      edestruct (diffuse_all_keep_prefix (width im) (height im) (4 * Z.of_nat k))
        as (data2 & -> & Hl2 & _);
        [|lia|apply catalog_forward| |].
      + nia.
      + rewrite write4_length, Hdl. nia.
      + rewrite bind_Ok_l. eexists. split; [done|]. cbn [fst].
        by rewrite Hl2, write4_length. }
  destruct Hloop as (final & Hrun & Hfl).
  unfold dither_image. fold opts.
  rewrite Hcp, bind_Ok_l, Htm, bind_Ok_l, Hl, py_range4_pixels, Hrun, bind_Ok_l.
  rewrite length_fmap, Hfl.
  replace (Z.of_nat (4 * n) =? height im * width im * 4) with true
    by (symmetry; apply Z.eqb_eq; unfold n; nia).
  eauto.
Qed.

(** * Further properties of the embedded code *)

(** ** The two hex parsers *)

Lemma skip_hash_cons (c : ascii) (s : string) :
  ColorHelpers.skip_hash (String c s) = if Ascii.eqb c "#" then s else String c s.
Proof. destruct c as [[] [] [] [] [] [] [] []]; reflexivity. Qed.

Lemma is_hex_not_hash (c : ascii) :
  ColorHelpers.is_hex c = true -> Ascii.eqb c "#" = false.
Proof. destruct c as [[] [] [] [] [] [] [] []]; (discriminate || reflexivity). Qed.

Lemma is_hex_value (c : ascii) :
  ColorHelpers.is_hex c = true ->
  exists h, ColorHelpers.hex_digit c = Some h /\ 0 <= h <= 15.
Proof.
  unfold ColorHelpers.is_hex. rewrite bool_decide_eq_true. intros [h Hh].
  exists h. split; [done|]. by eapply hex_digit_range.
Qed.

(** X1. Whatever [hex_to_rgb] of [color_helpers.py] returns other than
    [None] is a list of exactly three integers, each within 0..255. *)
Theorem hex_to_rgb_yields_uint8_triple (hex_color : string) (rgb : list Z) :
  ColorHelpers.hex_to_rgb hex_color = Some rgb ->
  exists r g b, rgb = [r; g; b] /\
                0 <= r <= 255 /\ 0 <= g <= 255 /\ 0 <= b <= 255.
Proof. apply hex_to_rgb_range. Qed.

Lemma hex_to_rgb_yields_uint8_triple_witness :
  exists r g b, [18; 52; 86] = [r; g; b] /\
                0 <= r <= 255 /\ 0 <= g <= 255 /\ 0 <= b <= 255.
Proof.
  apply (hex_to_rgb_yields_uint8_triple "123456" [18; 52; 86]). reflexivity.
Defined.

(** X2. A three-digit colour is the six-digit colour with every digit
    doubled: for hex digits r, g, b, with or without the hash,
    [hex_to_rgb] gives 17 times the value of each digit. *)
Theorem hex_to_rgb_shorthand_doubles (r g b : ascii) :
  ColorHelpers.is_hex r = true -> ColorHelpers.is_hex g = true ->
  ColorHelpers.is_hex b = true ->
  let short := String r (String g (String b "")) in
  let long := String r (String r (String g (String g (String b (String b ""))))) in
  let value c := 17 * default 0 (ColorHelpers.hex_digit c) in
  ColorHelpers.hex_to_rgb short = Some [value r; value g; value b] /\
  ColorHelpers.hex_to_rgb (String "#" short) = ColorHelpers.hex_to_rgb short /\
  ColorHelpers.hex_to_rgb long = ColorHelpers.hex_to_rgb short /\
  ColorHelpers.hex_to_rgb (String "#" long) = ColorHelpers.hex_to_rgb short.
Proof.
  intros Hr Hg Hb short long value.
  pose proof (is_hex_not_hash r Hr) as Nr.
  assert (Hshort : ColorHelpers.hex_to_rgb short = Some [value r; value g; value b]).
  { unfold ColorHelpers.hex_to_rgb, ColorHelpers.shorthand_regex, short.
    rewrite skip_hash_cons, Nr, Hr, Hg, Hb. cbn [andb ColorHelpers.at_end].
    unfold ColorHelpers.full_regex. rewrite skip_hash_cons, Nr, Hr, Hg, Hb.
    cbn [andb ColorHelpers.at_end]. unfold value, ColorHelpers.int16.
    do 3 f_equal; [lia| |]; f_equal; [lia|]. f_equal. lia. }
  split; [done|]. rewrite Hshort. repeat split.
  - unfold ColorHelpers.hex_to_rgb, ColorHelpers.shorthand_regex, short.
    rewrite skip_hash_cons. cbn [Ascii.eqb Bool.eqb]. rewrite Hr, Hg, Hb.
    cbn [andb ColorHelpers.at_end].
    unfold ColorHelpers.full_regex. rewrite skip_hash_cons, Nr, Hr, Hg, Hb.
    cbn [andb ColorHelpers.at_end]. unfold value, ColorHelpers.int16.
    do 3 f_equal; [lia| |]; f_equal; [lia|]. f_equal. lia.
  - unfold ColorHelpers.hex_to_rgb, ColorHelpers.shorthand_regex, long.
    rewrite skip_hash_cons, Nr, Hr, Hg. cbn [andb ColorHelpers.at_end].
    unfold ColorHelpers.full_regex. rewrite skip_hash_cons, Nr, Hr, Hg, Hb.
    cbn [andb ColorHelpers.at_end]. unfold value, ColorHelpers.int16.
    do 3 f_equal; [lia| |]; f_equal; [lia|]. f_equal. lia.
  - unfold ColorHelpers.hex_to_rgb, ColorHelpers.shorthand_regex, long.
    rewrite skip_hash_cons. cbn [Ascii.eqb Bool.eqb]. rewrite Hr, Hg.
    cbn [andb ColorHelpers.at_end].
    unfold ColorHelpers.full_regex. rewrite skip_hash_cons.
    cbn [Ascii.eqb Bool.eqb]. rewrite Hr, Hg, Hb.
    cbn [andb ColorHelpers.at_end]. unfold value, ColorHelpers.int16.
    do 3 f_equal; [lia| |]; f_equal; [lia|]. f_equal. lia.
Qed.

Lemma hex_to_rgb_shorthand_doubles_witness :
  ColorHelpers.hex_to_rgb "a0f" = Some [170; 0; 255] /\
  ColorHelpers.hex_to_rgb "#aa00ff" = ColorHelpers.hex_to_rgb "a0f".
Proof.
  destruct (hex_to_rgb_shorthand_doubles "a" "0" "f") as (H1 & _ & _ & H4);
    try reflexivity.
  split; [exact H1|exact H4].
Defined.

Lemma lstrip_hash_cons (c : ascii) (s : string) :
  ReplaceColors.lstrip_hash (String c s) =
  if Ascii.eqb c "#" then ReplaceColors.lstrip_hash s else String c s.
Proof. destruct c as [[] [] [] [] [] [] [] []]; reflexivity. Qed.

Lemma replace_int16_hex (a b : ascii) :
  ColorHelpers.is_hex a = true -> ColorHelpers.is_hex b = true ->
  ReplaceColors.int16 (String a (String b "")) =
  Ok (ColorHelpers.int16 (String a (String b ""))).
Proof.
  intros Ha Hb.
  destruct (is_hex_value a Ha) as (h & Hh & _).
  destruct (is_hex_value b Hb) as (l & Hl & _).
  unfold ReplaceColors.int16, ColorHelpers.int16. by rewrite Hh, Hl.
Qed.

Lemma shorthand_regex_Some (s : string) (r g b : ascii) :
  ColorHelpers.shorthand_regex s = Some (r, g, b) ->
  ColorHelpers.is_hex r = true /\ ColorHelpers.is_hex g = true /\
  ColorHelpers.is_hex b = true.
Proof.
  unfold ColorHelpers.shorthand_regex.
  destruct (ColorHelpers.skip_hash s) as [|r' [|g' [|b' rest]]]; try done.
  destruct (ColorHelpers.is_hex r') eqn:R; [|done].
  destruct (ColorHelpers.is_hex g') eqn:G; [|done].
  destruct (ColorHelpers.is_hex b') eqn:B; [|done].
  destruct (ColorHelpers.at_end rest); [|done].
  cbn [andb]. by intros [= <- <- <-].
Qed.

Lemma replace_parser_agrees (hex_color : string) (rgb : list Z) :
  ColorHelpers.hex_to_rgb hex_color = Some rgb ->
  ReplaceColors.hex_to_rgb hex_color = Ok rgb.
Proof.
  unfold ColorHelpers.hex_to_rgb, ReplaceColors.hex_to_rgb.
  destruct (ColorHelpers.shorthand_regex hex_color) as [[[r g] b]|] eqn:Es.
  - apply shorthand_regex_Some in Es as (Hr & Hg & Hb).
    pose proof (is_hex_not_hash r Hr) as Nr.
    unfold ColorHelpers.full_regex. rewrite skip_hash_cons, Nr, Hr, Hg, Hb.
    cbn [andb ColorHelpers.at_end]. intros [= <-].
    rewrite lstrip_hash_cons. cbn [Ascii.eqb Bool.eqb].
    rewrite lstrip_hash_cons, Nr.
    unfold ReplaceColors.slice2. cbn [substring].
    rewrite !replace_int16_hex by done. done.
  - unfold ColorHelpers.full_regex.
    destruct (ColorHelpers.skip_hash hex_color)
      as [|r1 [|r2 [|g1 [|g2 [|b1 [|b2 rest]]]]]] eqn:Esk; try done.
    destruct (ColorHelpers.is_hex r1) eqn:R1; [|done].
    destruct (ColorHelpers.is_hex r2) eqn:R2; [|done].
    destruct (ColorHelpers.is_hex g1) eqn:G1; [|done].
    destruct (ColorHelpers.is_hex g2) eqn:G2; [|done].
    destruct (ColorHelpers.is_hex b1) eqn:B1; [|done].
    destruct (ColorHelpers.is_hex b2) eqn:B2; [|done].
    destruct (ColorHelpers.at_end rest); [|done].
    cbn [andb]. intros [= <-].
    pose proof (is_hex_not_hash r1 R1) as N1.
    assert (Hstrip : ReplaceColors.lstrip_hash hex_color =
              String r1 (String r2 (String g1 (String g2 (String b1 (String b2 rest)))))).
    { destruct hex_color as [|c s]; [done|].
      rewrite skip_hash_cons in Esk. rewrite lstrip_hash_cons.
      destruct (Ascii.eqb c "#").
      - rewrite Esk. by rewrite lstrip_hash_cons, N1.
      - done. }
    rewrite Hstrip. unfold ReplaceColors.slice2.
    destruct rest; cbn [substring]; rewrite !replace_int16_hex by done; done.
Qed.

(** X3. The parser of [replace_colors.py] extends the parser of
    [color_helpers.py]: every string the latter accepts, the former parses
    to the same triple (it raises on nothing the other accepts). *)
Theorem replace_parser_extends_helper_parser (hex_color : string) (rgb : list Z) :
  ColorHelpers.hex_to_rgb hex_color = Some rgb ->
  ReplaceColors.hex_to_rgb hex_color = Ok rgb.
Proof. apply replace_parser_agrees. Qed.

(** Witness for X3: a colour of the gameboy palette. *)
Lemma replace_parser_extends_helper_parser_witness :
  ReplaceColors.hex_to_rgb "#9bbc0f" = Ok [155; 188; 15].
Proof.
  apply (replace_parser_extends_helper_parser "#9bbc0f" [155; 188; 15]).
  reflexivity.
Defined.

(** The converse fails: the replacement parser takes more than the helper
    parser does, and raises where the helper returns [None]. *)
Example replace_parser_accepts_more :
  ColorHelpers.hex_to_rgb "##ffffff" = None /\
  ReplaceColors.hex_to_rgb "##ffffff" = Ok [255; 255; 255] /\
  ColorHelpers.hex_to_rgb "#12345" = None /\
  ReplaceColors.hex_to_rgb "#12345" = Ok [18; 52; 5] /\
  ColorHelpers.hex_to_rgb "invalid" = None /\
  ReplaceColors.hex_to_rgb "invalid" = Raise ValueError.
Proof. repeat split; reflexivity. Qed.

Lemma lower_char_facts (c : ascii) :
  ColorHelpers.hex_digit (Init.lower_char c) = ColorHelpers.hex_digit c /\
  Ascii.eqb (Init.lower_char c) "#" = Ascii.eqb c "#" /\
  Ascii.eqb (Init.lower_char c) "010" = Ascii.eqb c "010".
Proof. destruct c as [[] [] [] [] [] [] [] []]; repeat split; reflexivity. Qed.

Lemma lower_is_hex (c : ascii) :
  ColorHelpers.is_hex (Init.lower_char c) = ColorHelpers.is_hex c.
Proof.
  unfold ColorHelpers.is_hex. by destruct (lower_char_facts c) as (-> & _).
Qed.

Lemma at_end_cons (c : ascii) (s : string) :
  ColorHelpers.at_end (String c s) =
  match s with EmptyString => Ascii.eqb c "010" | _ => false end.
Proof.
  destruct s; [|done]. simpl.
  destruct (Ascii.eqb_spec c "010") as [->|Hne]; [done|].
  by rewrite bool_decide_eq_false_2.
Qed.

Lemma lower_at_end (s : string) :
  ColorHelpers.at_end (Init.str_lower s) = ColorHelpers.at_end s.
Proof.
  destruct s as [|c s]; [done|]. cbn [Init.str_lower].
  rewrite !at_end_cons. destruct s; [|done].
  by destruct (lower_char_facts c) as (_ & _ & ->).
Qed.

Lemma lower_skip_hash (s : string) :
  ColorHelpers.skip_hash (Init.str_lower s) = Init.str_lower (ColorHelpers.skip_hash s).
Proof.
  destruct s as [|c s]; [done|]. cbn [Init.str_lower].
  rewrite !skip_hash_cons. destruct (lower_char_facts c) as (_ & -> & _).
  by destruct (Ascii.eqb c "#").
Qed.

(** X4. Hex parsing does not depend on the case of the letters: lowering
    the ASCII letters of a colour string does not change what
    [hex_to_rgb] returns, be it a triple or [None]. *)
Theorem hex_to_rgb_ignores_case (hex_color : string) :
  ColorHelpers.hex_to_rgb (Init.str_lower hex_color)
  = ColorHelpers.hex_to_rgb hex_color.
Proof.
  assert (Hfull : forall s,
    match ColorHelpers.full_regex (Init.str_lower s) with
    | Some (g1, g2, g3) =>
        Some [ColorHelpers.int16 g1; ColorHelpers.int16 g2; ColorHelpers.int16 g3]
    | None => None
    end =
    match ColorHelpers.full_regex s with
    | Some (g1, g2, g3) =>
        Some [ColorHelpers.int16 g1; ColorHelpers.int16 g2; ColorHelpers.int16 g3]
    | None => None
    end).
  { intros s. unfold ColorHelpers.full_regex. rewrite lower_skip_hash.
    destruct (ColorHelpers.skip_hash s)
      as [|r1 [|r2 [|g1 [|g2 [|b1 [|b2 rest]]]]]]; try done.
    cbn [Init.str_lower]. rewrite !lower_is_hex, lower_at_end.
    destruct (_ && _); [|done]. unfold ColorHelpers.int16.
    destruct (lower_char_facts r1) as (-> & _).
    destruct (lower_char_facts r2) as (-> & _).
    destruct (lower_char_facts g1) as (-> & _).
    destruct (lower_char_facts g2) as (-> & _).
    destruct (lower_char_facts b1) as (-> & _).
    destruct (lower_char_facts b2) as (-> & _). done. }
  assert (Hshort :
    ColorHelpers.shorthand_regex (Init.str_lower hex_color) =
    match ColorHelpers.shorthand_regex hex_color with
    | Some (r, g, b) =>
        Some (Init.lower_char r, Init.lower_char g, Init.lower_char b)
    | None => None
    end).
  { unfold ColorHelpers.shorthand_regex. rewrite lower_skip_hash.
    destruct (ColorHelpers.skip_hash hex_color) as [|r [|g [|b rest]]]; try done.
    cbn [Init.str_lower]. rewrite !lower_is_hex, lower_at_end.
    by destruct (_ && _). }
  unfold ColorHelpers.hex_to_rgb. rewrite Hshort.
  destruct (ColorHelpers.shorthand_regex hex_color) as [[[r g] b]|]; [|apply Hfull].
  apply (Hfull (String r (String r (String g (String g (String b (String b ""))))))).
Qed.

(** ** Distance and exact matches *)

Lemma distance_Ok_lengths (a b : color) (d : root) :
  distance_in_color_space (Some a) (Some b) = Ok d ->
  (3 <= length a)%nat /\ (3 <= length b)%nat.
Proof.
  unfold distance_in_color_space, subscript. intros H.
  do 4 apply bind_Ok in H as (? & _ & H).
  apply bind_Ok in H as (a2 & Ha & H). apply bind_Ok in H as (b2 & Hb & _).
  apply py_index_Ok_nonneg in Ha, Hb; try lia.
  apply lookup_lt_Some in Ha, Hb. simpl in Ha, Hb. lia.
Qed.

(** X5. The colour distance is symmetric, and it is zero from a colour to
    itself: whenever [distance_in_color_space] returns for (a, b) it
    returns for (b, a) with the same real value, neither being smaller
    than the other; alpha plays no part. *)
Theorem distance_is_symmetric (a b : color) (d : root) :
  distance_in_color_space (Some a) (Some b) = Ok d ->
  root_R d = euclidean_rgb a b /\
  (exists d', distance_in_color_space (Some b) (Some a) = Ok d' /\
              root_R d' = root_R d /\
              root_ltb d d' = false /\ root_ltb d' d = false) /\
  (exists z, distance_in_color_space (Some a) (Some a) = Ok z /\ root_R z = 0%R).
Proof.
  intros H. destruct (distance_Ok_lengths a b d H) as [Ha Hb].
  rewrite distance_of_rgb in H by done. injection H as <-.
  split; [apply root_R_sq_distance|]. split.
  - exists (math_sqrt (sq_distance b a)). split; [by apply distance_of_rgb|].
    assert (Heq : (sq_distance b a == sq_distance a b)%Q).
    { unfold sq_distance. ring. }
    split; [unfold root_R; simpl; by rewrite Heq|].
    unfold root_ltb. simpl. split; apply Qltb_ge; rewrite Heq; apply Qle_refl.
  - exists (math_sqrt (sq_distance a a)). split; [by apply distance_of_rgb|].
    assert (Heq : (sq_distance a a == 0)%Q).
    { unfold sq_distance. ring. }
    unfold root_R. simpl. rewrite Heq, RMicromega.Q2R_0. apply sqrt_0.
Qed.

Lemma distance_is_symmetric_witness :
  exists d', distance_in_color_space (Some [50; 100; 150; 7]%Q)
               (Some [100; 150; 200]%Q) = Ok d' /\
             root_R d' = root_R (math_sqrt 7500).
Proof.
  destruct (distance_is_symmetric [100; 150; 200]%Q [50; 100; 150; 7]%Q
              (math_sqrt 7500)) as (_ & (d' & Hd & HR & _) & _).
  - reflexivity.
  - exists d'. split; [exact Hd|exact HR].
Defined.

Lemma sq_distance_integers (r g b p0 p1 p2 : Z) (rest : list Q) :
  (sq_distance [num r; num g; num b] (num p0 :: num p1 :: num p2 :: rest)
   == inject_Z ((r - p0) * (r - p0) + (g - p1) * (g - p1) + (b - p2) * (b - p2)))%Q.
Proof.
  unfold sq_distance, num. cbn [nth].
  unfold Qeq, Qminus, Qplus, Qmult, Qopp, inject_Z. simpl.
  rewrite !Pos.mul_1_r. ring.
Qed.

Lemma exact_match_hex (color_palette : list (option color))
    (r g b : Z) (rest : list Q) :
  hex_palette color_palette -> None ∉ color_palette ->
  Some [num r; num g; num b] ∈ color_palette ->
  find_closest_palette_color (num r :: num g :: num b :: rest) color_palette
  = Ok [num r; num g; num b; num 255].
Proof.
  intros Hpal Hnone Hin.
  set (pixel := num r :: num g :: num b :: rest).
  destruct (find_closest_total pixel color_palette) as [res Hres];
    [simpl; lia|done| |done|].
  { intros ->. by apply elem_of_nil in Hin. }
  rewrite Hres. f_equal.
  pose proof Hres as Hfind. unfold find_closest_palette_color in Hfind.
  apply bind_Ok in Hfind as (entries & Hcomp & Hfind).
  apply list_comp_Ok in Hcomp.
  destruct (decide (entries = [])) as [->|Hne]; [done|].
  destruct (closest_is_first_minimum entries Hne) as (i & e & Hi & Hfold & Hmin & _).
  rewrite Hfold in Hfind.
  (* the entry built for the matching colour has radicand zero *)
  apply list_elem_of_lookup in Hin as (j & Hj).
  destruct (Forall2_lookup_l _ _ _ _ _ Hcomp Hj) as (ej & Hej & Hfj).
  rewrite distance_of_rgb in Hfj by (simpl; lia). rewrite !bind_Ok_l in Hfj.
  injection Hfj as <-.
  specialize (Hmin j _ Hej). cbn [distance radicand] in Hmin.
  (* the winner is an entry of the palette *)
  destruct (Forall2_lookup_r _ _ _ _ _ Hcomp Hi) as (c & Hc & Hfc).
  destruct c as [l|]; [|done].
  destruct (Hpal l) as (r' & g' & b' & -> & _); [by eapply list_elem_of_lookup_2|].
  rewrite distance_of_rgb in Hfc by (simpl; lia). rewrite !bind_Ok_l in Hfc.
  injection Hfc as <-. cbn [distance radicand color_of] in *.
  unfold pixel in Hmin. rewrite !sq_distance_integers in Hmin.
  rewrite <- Zle_Qle in Hmin.
  rewrite !Z.sub_diag in Hmin.
  pose proof (Z.square_nonneg (r' - r)). pose proof (Z.square_nonneg (g' - g)).
  pose proof (Z.square_nonneg (b' - b)).
  assert (r' = r /\ g' = g /\ b' = b) as (-> & -> & ->) by nia.
  simpl in Hfind. by injection Hfind as <-.
Qed.

(** X6. An exact match wins: on a palette as [set_color_palette] builds it
    with no rejected entry, a pixel whose R, G, B are those of a palette
    entry is matched to exactly that colour, with alpha 255, whatever the
    pixel's alpha and whatever else the palette holds. *)
Theorem exact_match_is_returned (color_palette : list (option color))
    (r g b : Z) (rest : list Q) :
  hex_palette color_palette -> None ∉ color_palette ->
  Some [num r; num g; num b] ∈ color_palette ->
  find_closest_palette_color (num r :: num g :: num b :: rest) color_palette
  = Ok [num r; num g; num b; num 255].
Proof. apply exact_match_hex. Qed.

Lemma exact_match_is_returned_witness :
  find_closest_palette_color [num 255; num 0; num 0; num 12]
    [Some [num 0; num 0; num 0]; Some [num 255; num 255; num 255];
     Some [num 255; num 0; num 0]]
  = Ok [num 255; num 0; num 0; num 255].
Proof.
  apply (exact_match_is_returned _ 255 0 0 [num 12]).
  - intros l Hl.
    repeat (apply elem_of_cons in Hl as [[= ->]|Hl];
            [do 3 eexists; split; [reflexivity|lia]|]).
    by apply elem_of_nil in Hl.
  - intros Hn. repeat (apply elem_of_cons in Hn as [Hn|Hn]; [discriminate|]).
    by apply elem_of_nil in Hn.
  - apply list_elem_of_In. simpl. tauto.
Defined.

(** ** Quantisation only, twice *)

Lemma pixel_at_Some {A} (data : list A) (k : nat) (a b c d : A) :
  pixel_at data k = [a; b; c; d] ->
  data !! (4 * k)%nat = Some a /\ data !! (4 * k + 1)%nat = Some b /\
  data !! (4 * k + 2)%nat = Some c /\ data !! (4 * k + 3)%nat = Some d.
Proof.
  intros H.
  pose proof (pixel_at_lookup data k 0 ltac:(lia)) as H0.
  pose proof (pixel_at_lookup data k 1 ltac:(lia)) as H1.
  pose proof (pixel_at_lookup data k 2 ltac:(lia)) as H2.
  pose proof (pixel_at_lookup data k 3 ltac:(lia)) as H3.
  rewrite H in H0, H1, H2, H3. simpl in H0, H1, H2, H3.
  rewrite Nat.add_0_r in H0. done.
Qed.

Lemma write4_same (data : list Q) (k : nat) (a b c d : Q) :
  pixel_at data k = [a; b; c; d] -> write4 data (4 * k) a b c d = data.
Proof.
  intros H. apply pixel_at_Some in H as (Ha & Hb & Hc & Hd).
  unfold write4. rewrite (list_insert_id data (4 * k)) by done.
  rewrite (list_insert_id data (4 * k + 1)) by done.
  rewrite (list_insert_id data (4 * k + 2)) by done.
  by rewrite list_insert_id.
Qed.

Lemma samples_of_pixels (samples : list Z) (n : nat) :
  length samples = (4 * n)%nat ->
  (forall k, (k < n)%nat ->
     exists r g b a, pixel_at samples k = [r; g; b; a] /\
                     0 <= r <= 255 /\ 0 <= g <= 255 /\ 0 <= b <= 255 /\
                     0 <= a <= 255) ->
  Forall (fun v => 0 <= v <= 255) samples.
Proof.
  intros Hlen Hpx. apply Forall_lookup. intros i v Hi.
  pose proof (lookup_lt_Some _ _ _ Hi) as Hlt.
  destruct (Hpx (i / 4)%nat) as (r & g & b & a & Hk & Hr & Hg & Hb & Ha).
  { apply Nat.Div0.div_lt_upper_bound. lia. }
  apply pixel_at_Some in Hk as (H0 & H1 & H2 & H3).
  pose proof (Nat.div_mod_eq i 4) as Hdm.
  pose proof (Nat.mod_upper_bound i 4 ltac:(lia)) as Hm.
  destruct (i mod 4)%nat as [|[|[|[|m]]]] eqn:Em; try lia.
  - rewrite Nat.add_0_r in Hdm. rewrite <- Hdm in H0. congruence.
  - rewrite <- Hdm in H1. congruence.
  - rewrite <- Hdm in H2. congruence.
  - rewrite <- Hdm in H3. congruence.
Qed.

(** X7. Quantisation only is idempotent: the image a quantisation-only
    call returns is a well-formed image on which the same call, with the
    same options, returns that very image again. *)
Theorem quantization_only_is_idempotent
    (PALETTES : gmap string (list string)) (rand rand' : nat -> Z)
    (im out : image) (options : option user_options) :
  wf_image im ->
  (ditheringType (merge_options options) = ""%string \/
   ditheringType (merge_options options) = "quantizationOnly"%string) ->
  dither_image PALETTES rand (Some im) options = Ok (Some out) ->
  wf_image out /\
  dither_image PALETTES rand' (Some out) options = Ok (Some out).
Proof.
  intros Hwf Hmode Hrun.
  destruct (dither_image_Ok _ _ _ _ _ Hwf Hrun)
    as (cp & tm & final & Hcp & Htm & Hl & Hloop & ->).
  pose proof (set_color_palette_hex _ _ _ Hcp) as Hpal.
  pose proof Hwf as [Hw Hh Hlen _].
  set (opts := merge_options options) in *.
  set (n := Z.to_nat (height im * width im)) in *.
  destruct (pointwise_pass (fun _ old => find_closest_palette_color old cp)
              (dither_pixel rand opts (width im) (height im) cp tm)
              n (num <$> samples im) 0%nat final Hl) as [Hfl Hall];
    [|exact Hloop|].
  { intros k data drawn _. by apply dither_pixel_quantization. }
  set (outs := to_uint8 <$> final.1).
  assert (Hol : length outs = (4 * n)%nat) by (unfold outs; by rewrite length_fmap).
  assert (Hpx : forall k, (k < n)%nat ->
            exists r g b,
              Some [num r; num g; num b] ∈ cp /\ (None ∉ cp) /\
              0 <= r <= 255 /\ 0 <= g <= 255 /\ 0 <= b <= 255 /\
              pixel_at outs k = [r; g; b; 255]).
  { intros k Hk.
    destruct (Hall k Hk) as (v0 & v1 & v2 & v3 & rest & HG & Hp).
    assert (Hnone : None ∉ cp).
    { intros Hn. rewrite find_closest_raises in HG; [done| |done|done].
      rewrite pixel_at_length; lia. }
    destruct (quantized_pixel_out cp _ final.1 k v0 v1 v2 v3 rest Hpal HG Hp)
      as (r & g & b & Hin & _ & Hout).
    destruct (Hpal _ Hin) as (r' & g' & b' & Heq & Hr & Hg & Hb).
    injection Heq as -> -> ->.
    by exists r', g', b'. }
  assert (Hwfo : wf_image {| width := width im; height := height im;
                             samples := outs |}).
  { split; cbn [width height samples]; [done|done|rewrite Hol; unfold n; nia|].
    apply (samples_of_pixels outs n Hol). intros k Hk.
    destruct (Hpx k Hk) as (r & g & b & _ & _ & Hr & Hg & Hb & Hp).
    exists r, g, b, 255. repeat (split; [done|]). lia. }
  split; [exact Hwfo|].
  unfold dither_image. fold opts. cbn [width height samples].
  rewrite Hcp, bind_Ok_l, Htm, bind_Ok_l.
  assert (Hnl : length (num <$> outs) = (4 * n)%nat) by (by rewrite length_fmap).
  rewrite Hnl, py_range4_pixels.
  destruct (for_each_total
              (fun _ st => st = (num <$> outs, 0%nat))
              (dither_pixel rand' opts (width im) (height im) cp tm)
              (fun k => 4 * Z.of_nat k) n) with (st0 := (num <$> outs, 0%nat))
    as (final' & -> & ->); [|done|].
  - intros k st Hk ->. exists (num <$> outs, 0%nat). split; [|done].
    rewrite dither_pixel_quantization by done.
    destruct (Hpx k Hk) as (r & g & b & Hin & Hnone & Hr & Hg & Hb & Hp).
    assert (Hfit : (4 * k + 3 < length (num <$> outs))%nat) by lia.
    apply get_pixel_at_total in Hfit as [-> _]. rewrite bind_Ok_l.
    rewrite pixel_at_fmap, Hp. cbn [fmap list_fmap].
    rewrite (exact_match_hex cp r g b [num 255]) by done. rewrite bind_Ok_l.
    rewrite set_pixel_in_range by lia. rewrite bind_Ok_l.
    replace (Z.to_nat (4 * Z.of_nat k)) with (4 * k)%nat by lia.
    rewrite !clamp_uint8_num by lia.
    rewrite write4_same; [done|]. by rewrite pixel_at_fmap, Hp.
  - rewrite bind_Ok_l. cbn [fst].
    rewrite to_uint8_samples by (by destruct Hwfo).
    rewrite Hol.
    replace (Z.of_nat (4 * n) =? height im * width im * 4) with true
      by (symmetry; apply Z.eqb_eq; unfold n; nia).
    done.
Qed.

Lemma quantization_only_is_idempotent_witness :
  let options := Some {| u_ditheringType := Some "quantizationOnly"%string;
                         u_errorDiffusionMatrix := None;
                         u_orderedDitheringMatrix := None;
                         u_randomDitheringType := None;
                         u_palette := Some (PaletteName "gameboy") |} in
  let out := {| width := 2; height := 1;
                samples := [15; 56; 15; 255; 155; 188; 15; 255] |} in
  dither_image sample_PALETTES (fun _ => 0) (Some out) options = Ok (Some out).
Proof.
  intros options out.
  refine (proj2 (quantization_only_is_idempotent sample_PALETTES
                   (fun _ => 0) (fun _ => 0)
                   {| width := 2; height := 1;
                      samples := [10; 20; 30; 40; 200; 210; 90; 255] |}
                   out options _ _ _)).
  - split; simpl; [lia|lia|reflexivity|]. repeat (constructor; [lia|]). constructor.
  - by right.
  - vm_compute. reflexivity.
Defined.

(** ** Shape and order of the threshold matrix *)

Lemma bayer_shape_table :
  forallb (fun w => forallb (fun h =>
    match create_bayer_matrix (w, h) with
    | Ok m => shape_and_range m h w
    | Raise _ => false
    end) (py_range 9)) (py_range 9) = true.
Proof. vm_compute. reflexivity. Qed.

(** X8. For every requested size, also zero, negative or above 8, the
    threshold matrix is built; it has min(height, 8) rows of
    min(width, 8) cells (none below zero), and every cell lies within
    0 .. rows*cols - 1, so the ordered-dithering factor is below 1. *)
Theorem bayer_matrix_shape_and_range (size : Z * Z) :
  let cols := Z.max 0 (Z.min size.1 8) in
  let rows := Z.max 0 (Z.min size.2 8) in
  exists matrix,
    create_bayer_matrix size = Ok matrix /\
    Z.of_nat (length matrix) = rows /\
    Forall (fun row => Z.of_nat (length row) = cols /\
                       Forall (fun v => 0 <= v < rows * cols) row) matrix.
Proof.
  intros cols rows. rewrite create_bayer_matrix_clamped. fold cols rows.
  pose proof bayer_shape_table as T.
  rewrite forallb_forall in T.
  specialize (T cols ltac:(apply list_elem_of_In, elem_of_py_range; lia)).
  rewrite forallb_forall in T.
  specialize (T rows ltac:(apply list_elem_of_In, elem_of_py_range; lia)).
  destruct (create_bayer_matrix (cols, rows)) as [m|]; [|done].
  exists m. split; [done|]. unfold shape_and_range in T.
  apply andb_prop in T as [Hrows Hall]. apply Z.eqb_eq in Hrows.
  split; [done|]. apply Forall_forall. intros row Hrow.
  rewrite forallb_forall in Hall.
  specialize (Hall row ltac:(by apply list_elem_of_In)).
  apply andb_prop in Hall as [Hc Hv]. apply Z.eqb_eq in Hc. split; [done|].
  apply Forall_forall. intros v Hin. rewrite forallb_forall in Hv.
  specialize (Hv v ltac:(by apply list_elem_of_In)).
  apply andb_prop in Hv as [?%Z.leb_le ?%Z.ltb_lt]. lia.
Qed.

Lemma bayer_order_table :
  forallb (fun w => forallb (fun h =>
    match create_bayer_matrix (w, h) with
    | Ok m => ((w =? 8) && (h =? 8)) || order_of_transpose m big_matrix
    | Raise _ => false
    end) (py_range 9)) (py_range 9) = true.
Proof. vm_compute. reflexivity. Qed.

Lemma order_of_transpose_spec (matrix base : list (list Z)) :
  order_of_transpose matrix base = true ->
  forall y x y' x' v v',
    cell matrix y x = Some v -> cell matrix y' x' = Some v' ->
    exists s s', cell base x y = Some s /\ cell base x' y' = Some s' /\
                 (v <= v' <-> s <= s').
Proof.
  unfold order_of_transpose. intros H y x y' x' v v' Hv Hv'.
  set (positions := y ← seq 0 (length matrix);
                    x ← seq 0 (length (default [] (matrix !! y))); [(y, x)]) in H.
  assert (Hpos : forall i j w, cell matrix i j = Some w -> In (i, j) positions).
  { intros i j w Hc. unfold cell in Hc.
    destruct (matrix !! i) as [row|] eqn:Hrow; [|done]. simpl in Hc.
    apply list_elem_of_In. unfold positions.
    apply list_elem_of_bind. exists i. split.
    - apply list_elem_of_bind. exists j. split; [by left|].
      rewrite Hrow. simpl. apply elem_of_seq. apply lookup_lt_Some in Hc. lia.
    - apply elem_of_seq. apply lookup_lt_Some in Hrow. lia. }
  rewrite forallb_forall in H. specialize (H (y, x) (Hpos _ _ _ Hv)).
  rewrite forallb_forall in H. specialize (H (y', x') (Hpos _ _ _ Hv')).
  cbn [fst snd] in H. rewrite Hv, Hv' in H.
  destruct (cell base x y) as [s|]; [|done].
  destruct (cell base x' y') as [s'|]; [|done].
  exists s, s'. split; [done|]. split; [done|].
  apply Bool.eqb_prop in H. rewrite <- !Z.leb_le. by rewrite H.
Qed.

(** X9. Off the 8x8 fast path, the generated matrix is the transposed
    sample of the base matrix re-indexed in order: cell (y, x) is at most
    cell (y', x') exactly when base cell (x, y) is at most base cell
    (x', y'). *)
Theorem bayer_matrix_keeps_transposed_order (size : Z * Z) (matrix : list (list Z)) :
  ~ (8 <= size.1 /\ 8 <= size.2) ->
  create_bayer_matrix size = Ok matrix ->
  forall y x y' x' v v',
    cell matrix y x = Some v -> cell matrix y' x' = Some v' ->
    exists s s', cell big_matrix x y = Some s /\ cell big_matrix x' y' = Some s' /\
                 (v <= v' <-> s <= s').
Proof.
  intros Hsize Hrun. rewrite create_bayer_matrix_clamped in Hrun.
  set (w := Z.max 0 (Z.min size.1 8)) in *. set (h := Z.max 0 (Z.min size.2 8)) in *.
  pose proof bayer_order_table as T.
  rewrite forallb_forall in T.
  specialize (T w ltac:(apply list_elem_of_In, elem_of_py_range; lia)).
  rewrite forallb_forall in T.
  specialize (T h ltac:(apply list_elem_of_In, elem_of_py_range; lia)).
  rewrite Hrun in T.
  apply Bool.orb_true_iff in T as [T|T].
  - apply andb_prop in T as [?%Z.eqb_eq ?%Z.eqb_eq]. lia.
  - by apply order_of_transpose_spec.
Qed.

Lemma bayer_matrix_keeps_transposed_order_witness :
  exists s s', cell big_matrix 1 0 = Some s /\ cell big_matrix 0 1 = Some s' /\
               (2 <= 3 <-> s <= s').
Proof.
  apply (bayer_matrix_keeps_transposed_order (2, 2) [[0; 2]; [3; 1]]
           ltac:(simpl; lia) ltac:(vm_compute; reflexivity) 0%nat 1%nat 1%nat 0%nat);
    reflexivity.
Defined.

(** ** The kernel catalogue *)

(** X10. Whatever name is asked for, known or not, [get_diffusion_map]
    returns a kernel of the catalogue: its weights are positive and sum to
    at least 47/48 and at most 1 (no kernel hands on more error than there
    is), its entries reach at most two columns either way and two rows
    down, never up, and no two entries share an offset; an unknown name
    gives Floyd-Steinberg. *)
Theorem every_kernel_is_well_formed (name : string) :
  let kernel := get_diffusion_map name in
  Forall (fun d => (0 < factor d)%Q /\ -2 <= (offset d).1 <= 2 /\
                   0 <= (offset d).2 <= 2) kernel /\
  NoDup (offset <$> kernel) /\
  (47 # 48 <= total_weight kernel <= 1)%Q /\
  (name ∉ DIFFUSION_MAPS.*1 -> kernel = floyd_steinberg).
Proof.
  intros kernel.
  assert (Hwf : well_formed_kernel kernel = true).
  { unfold kernel, get_diffusion_map.
    destruct (_ !! name) as [k|] eqn:E; [|reflexivity].
    apply elem_of_list_to_map_2 in E. unfold DIFFUSION_MAPS in E.
    repeat (apply elem_of_cons in E as [[= _ ->]|E]; [reflexivity|]).
    by apply elem_of_nil in E. }
  unfold well_formed_kernel in Hwf.
  apply andb_prop in Hwf as [Hwf Hle1]. apply andb_prop in Hwf as [Hwf Hge].
  apply andb_prop in Hwf as [Hall Hnd].
  split.
  { apply Forall_forall. intros d Hd. rewrite forallb_forall in Hall.
    specialize (Hall d ltac:(by apply list_elem_of_In)).
    repeat (apply andb_prop in Hall as [Hall ?]).
    apply Qltb_lt in Hall.
    repeat match goal with H : (_ <=? _) = true |- _ => apply Z.leb_le in H end.
    done. }
  split; [by apply bool_decide_eq_true in Hnd|].
  split; [split; by apply Qle_bool_iff|].
  intros Hname. unfold kernel, get_diffusion_map.
  destruct (_ !! name) as [k|] eqn:E; [|done].
  apply elem_of_list_to_map_2 in E. destruct Hname.
  apply list_elem_of_fmap. by exists (name, k).
Qed.

(** ** Random dithering *)

Lemma Qltb_num (a b : Z) : Qltb (num a) (num b) = (a <? b).
Proof.
  unfold Qltb, num, Qcompare, inject_Z, Z.ltb. simpl. by rewrite !Z.mul_1_r.
Qed.

Lemma Qltb_average (r g b z : Z) :
  Qltb ((num r + num g + num b) / num 3) (num z) = (r + g + b <? 3 * z).
Proof.
  destruct (Qltb _ _) eqn:E; symmetry.
  - apply Qltb_lt in E. apply Z.ltb_lt. unfold Qlt in E. simpl in E. lia.
  - apply Qltb_ge in E. apply Z.ltb_ge. unfold Qle in E. simpl in E. lia.
Qed.

(** A pass whose body stores four samples computed from the current pixel
    and from the draws [d k .. d (S k) - 1], and touches nothing else. *)
Lemma drawing_pass (d : nat -> nat) (G : nat -> color -> Q * Q * Q * Q)
    (body : list Q * nat -> Z -> result (list Q * nat))
    (n : nat) (data0 : list Q) :
  length data0 = (4 * n)%nat ->
  (forall k data, (k < n)%nat -> length data = (4 * n)%nat ->
     body (data, d k) (4 * Z.of_nat k) =
     Ok (let '(v0, v1, v2, v3) := G k (pixel_at data k) in
         write4 data (4 * k) v0 v1 v2 v3, d (S k))) ->
  exists final,
    for_each body ((fun k => 4 * Z.of_nat k) <$> seq 0 n) (data0, d 0%nat) = Ok final /\
    length final.1 = (4 * n)%nat /\
    forall k, (k < n)%nat ->
      pixel_at final.1 k =
      let '(v0, v1, v2, v3) := G k (pixel_at data0 k) in [v0; v1; v2; v3].
Proof.
  intros Hlen Hbody.
  set (Inv := fun (k : nat) (st : list Q * nat) =>
    st.2 = d k /\ length st.1 = (4 * n)%nat /\
    (forall j, (j < k)%nat ->
       pixel_at st.1 j =
       let '(v0, v1, v2, v3) := G j (pixel_at data0 j) in [v0; v1; v2; v3]) /\
    (forall j, (k <= j)%nat -> pixel_at st.1 j = pixel_at data0 j)).
  destruct (for_each_total Inv body (fun k => 4 * Z.of_nat k) n)
    with (st0 := (data0, d 0%nat)) as (final & Hrun & _ & Hl & Hdone & _).
  - intros k [data drawn] Hk (Hd & Hl & Hdone & Htodo). cbn [fst snd] in *.
    subst drawn. rewrite Hbody by done. eexists. split; [done|].
    unfold Inv. cbn [fst snd]. rewrite (Htodo k) by lia.
    destruct (G k (pixel_at data0 k)) as [[[v0 v1] v2] v3] eqn:EG.
    split; [done|]. split; [by rewrite write4_length|]. split.
    + intros j Hj. destruct (decide (j = k)) as [->|Hne].
      * rewrite EG. apply pixel_at_write4. lia.
      * rewrite pixel_at_write4_other by done. apply Hdone. lia.
    + intros j Hj. rewrite pixel_at_write4_other by lia. apply Htodo. lia.
  - split; [done|]. split; [done|]. split; [intros; lia|done].
  - exists final. split; [done|]. split; [done|]. intros k Hk. by apply Hdone.
Qed.

Lemma random_black_and_white_step (rand : nat -> Z) (opts : options)
    (width height : Z) (color_palette : list (option color))
    (threshold_map : list (list Z)) (data : list Q) (drawn k : nat)
    (p0 p1 p2 p3 : Q) :
  ditheringType opts = "random"%string ->
  randomDitheringType opts = "blackAndWhite"%string ->
  (4 * k + 3 < length data)%nat ->
  pixel_at data k = [p0; p1; p2; p3] ->
  dither_pixel rand opts width height color_palette threshold_map
    (data, drawn) (4 * Z.of_nat k) =
  Ok (let v := if Qltb ((p0 + p1 + p2) / num 3) (num (rand drawn))
               then num 0 else num 255 in
      write4 data (4 * k) v v v (num 255), S drawn).
Proof.
  intros H1 H2 Hfit Hpx. unfold dither_pixel. rewrite H1, H2.
  cbn [String.eqb Ascii.eqb Bool.eqb andb orb].
  destruct (get_pixel_at_total data k) as [-> _]; [done|].
  rewrite Hpx, !bind_Ok_l.
  change (random_dither_black_and_white_pixel_value rand [p0; p1; p2; p3] drawn)
    with (if Qltb ((p0 + p1 + p2) / num 3) (num (rand drawn))
          then Ok ([num 0; num 0; num 0; num 255], S drawn)
          else Ok ([num 255; num 255; num 255; num 255], S drawn)).
  destruct (Qltb _ _); rewrite !bind_Ok_l, set_pixel_in_range by lia;
    rewrite !bind_Ok_l;
    replace (Z.to_nat (4 * Z.of_nat k)) with (4 * k)%nat by lia;
    rewrite !clamp_uint8_num by lia; done.
Qed.

Lemma random_rgb_step (rand : nat -> Z) (opts : options)
    (width height : Z) (color_palette : list (option color))
    (threshold_map : list (list Z)) (data : list Q) (drawn k : nat)
    (p0 p1 p2 p3 : Q) :
  ditheringType opts = "random"%string ->
  randomDitheringType opts = "rgb"%string ->
  (4 * k + 3 < length data)%nat ->
  pixel_at data k = [p0; p1; p2; p3] ->
  dither_pixel rand opts width height color_palette threshold_map
    (data, drawn) (4 * Z.of_nat k) =
  Ok (write4 data (4 * k)
        (if Qltb p0 (num (rand drawn)) then num 0 else num 255)
        (if Qltb p1 (num (rand (S drawn))) then num 0 else num 255)
        (if Qltb p2 (num (rand (S (S drawn)))) then num 0 else num 255)
        (clamp_uint8 p3), S (S (S drawn))).
Proof.
  intros H1 H2 Hfit Hpx. unfold dither_pixel. rewrite H1, H2.
  cbn [String.eqb Ascii.eqb Bool.eqb andb orb].
  destruct (get_pixel_at_total data k) as [-> _]; [done|].
  rewrite Hpx, !bind_Ok_l.
  change (random_dither_pixel_value rand [p0; p1; p2; p3] drawn)
    with ([if Qltb p0 (num (rand drawn)) then num 0 else num 255;
           if Qltb p1 (num (rand (S drawn))) then num 0 else num 255;
           if Qltb p2 (num (rand (S (S drawn)))) then num 0 else num 255;
           p3], S (S (S drawn))).
  cbv beta iota. rewrite set_pixel_in_range by lia. rewrite !bind_Ok_l.
  replace (Z.to_nat (4 * Z.of_nat k)) with (4 * k)%nat by lia.
  do 2 f_equal.
  by destruct (Qltb p0 _), (Qltb p1 _), (Qltb p2 _); rewrite !clamp_uint8_num by lia.
Qed.

(** The call around a pass that runs to the end with an array of the
    right length. *)
Lemma dither_image_of_pass (PALETTES : gmap string (list string)) (rand : nat -> Z)
    (im : image) (options : option user_options)
    (color_palette : list (option color)) (Q : list Q -> Prop) :
  wf_image im ->
  set_color_palette PALETTES (palette (merge_options options)) = Ok color_palette ->
  (forall threshold_map, exists final,
     for_each (dither_pixel rand (merge_options options) (width im) (height im)
                 color_palette threshold_map)
       ((fun k => 4 * Z.of_nat k) <$> seq 0 (Z.to_nat (height im * width im)))
       (num <$> samples im, 0%nat) = Ok final /\
     length final.1 = (4 * Z.to_nat (height im * width im))%nat /\ Q final.1) ->
  exists final,
    dither_image PALETTES rand (Some im) options =
      Ok (Some {| width := width im; height := height im;
                  samples := to_uint8 <$> final |}) /\
    length final = length (samples im) /\ Q final.
Proof.
  intros [Hw Hh Hlen _] Hcp Hpass. unfold dither_image. rewrite Hcp, bind_Ok_l.
  destruct (create_bayer_matrix_total
              (orderedDitheringMatrix (merge_options options))) as [tm ->].
  rewrite bind_Ok_l.
  set (n := Z.to_nat (height im * width im)) in *.
  assert (Hl : length (num <$> samples im) = (4 * n)%nat).
  { rewrite length_fmap. unfold n. nia. }
  destruct (Hpass tm) as (final & Hrun & Hfl & HQ).
  rewrite Hl, py_range4_pixels, Hrun, bind_Ok_l. rewrite length_fmap, Hfl.
  replace (Z.of_nat (4 * n) =? height im * width im * 4) with true
    by (symmetry; apply Z.eqb_eq; unfold n; nia).
  exists final.1. split; [done|]. split; [|done].
  rewrite length_fmap in Hl. by rewrite Hfl, Hl.
Qed.

Lemma pixel_at_in_image (im : image) (k : nat) (r g b a : Z) :
  wf_image im -> pixel_at (samples im) k = [r; g; b; a] ->
  (k < Z.to_nat (height im * width im))%nat /\
  0 <= r <= 255 /\ 0 <= g <= 255 /\ 0 <= b <= 255 /\ 0 <= a <= 255.
Proof.
  intros [Hw Hh Hlen Hu8] Hpx.
  apply pixel_at_Some in Hpx as (H0 & H1 & H2 & H3).
  rewrite Forall_lookup in Hu8.
  pose proof (lookup_lt_Some _ _ _ H3).
  split; [nia|].
  pose proof (Hu8 _ _ H0). pose proof (Hu8 _ _ H1).
  pose proof (Hu8 _ _ H2). pose proof (Hu8 _ _ H3). done.
Qed.

(** X11. Random black-and-white dithering, whatever the palette (it need
    only resolve): the call returns an image of the same size in which
    pixel number k is opaque black when r + g + b < 3 * (the k-th draw) and
    opaque white otherwise; one draw per pixel, in raster order, and no
    palette colour is consulted. *)
Theorem random_black_and_white_output
    (PALETTES : gmap string (list string)) (rand : nat -> Z)
    (im : image) (options : option user_options)
    (color_palette : list (option color)) :
  wf_image im ->
  ditheringType (merge_options options) = "random"%string ->
  randomDitheringType (merge_options options) = "blackAndWhite"%string ->
  set_color_palette PALETTES (palette (merge_options options)) = Ok color_palette ->
  exists out,
    dither_image PALETTES rand (Some im) options = Ok (Some out) /\
    width out = width im /\ height out = height im /\
    length (samples out) = length (samples im) /\
    forall k r g b a, pixel_at (samples im) k = [r; g; b; a] ->
      pixel_at (samples out) k =
      if r + g + b <? 3 * rand k then [0; 0; 0; 255] else [255; 255; 255; 255].
Proof.
  intros Hwf H1 H2 Hcp.
  set (n := Z.to_nat (height im * width im)).
  assert (Hl : length (num <$> samples im) = (4 * n)%nat).
  { destruct Hwf as [Hw Hh Hlen _]. rewrite length_fmap. unfold n. nia. }
  set (G := fun (k : nat) (old : color) =>
    match old with
    | [p0; p1; p2; _] =>
        let v := if Qltb ((p0 + p1 + p2) / num 3) (num (rand k))
                 then num 0 else num 255 in (v, v, v, num 255)
    | _ => (num 0, num 0, num 0, num 0)
    end).
  destruct (dither_image_of_pass PALETTES rand im options color_palette
    (fun final => forall k, (k < n)%nat ->
       pixel_at final k =
       let '(v0, v1, v2, v3) := G k (pixel_at (num <$> samples im) k) in
       [v0; v1; v2; v3]) Hwf Hcp) as (final & Hrun & Hfl & Hpx).
  { intros tm. apply (drawing_pass (fun k => k) G); [done|].
    intros k data Hk Hdl.
    pose proof (pixel_at_length data k ltac:(lia)) as H4.
    destruct (pixel_at data k) as [|p0 [|p1 [|p2 [|p3 [|]]]]] eqn:E; try done.
    by rewrite (random_black_and_white_step _ _ _ _ _ _ _ _ _ p0 p1 p2 p3)
      by (done || lia). }
  eexists. split; [exact Hrun|]. cbn [width height samples].
  split; [done|]. split; [done|]. split; [by rewrite length_fmap|].
  intros k r g b a Hk.
  destruct (pixel_at_in_image im k r g b a Hwf Hk) as (Hkn & _).
  rewrite pixel_at_fmap, (Hpx k Hkn), pixel_at_fmap, Hk. cbn [fmap list_fmap G].
  rewrite Qltb_average.
  destruct (r + g + b <? 3 * rand k); cbn [fmap list_fmap];
    by rewrite !to_uint8_num by lia.
Qed.

(** Witness for X11: two pixels, draws 100 and 50, a palette that is not
    even black and white. *)
Lemma random_black_and_white_output_witness :
  let im := {| width := 2; height := 1;
               samples := [10; 20; 30; 255; 200; 100; 0; 128] |} in
  let rand := fun k : nat => match k with O => 100 | _ => 50 end in
  let options :=
    Some {| u_ditheringType := Some "random"%string;
            u_errorDiffusionMatrix := None;
            u_orderedDitheringMatrix := None;
            u_randomDitheringType := None;
            u_palette := Some (PaletteList ["#f00"; "nonsense"]%string) |} in
  exists out,
    dither_image sample_PALETTES rand (Some im) options = Ok (Some out) /\
    width out = width im /\ height out = height im /\
    length (samples out) = length (samples im) /\
    forall k r g b a, pixel_at (samples im) k = [r; g; b; a] ->
      pixel_at (samples out) k =
      if r + g + b <? 3 * rand k then [0; 0; 0; 255] else [255; 255; 255; 255].
Proof.
  intros im rand options.
  eapply (random_black_and_white_output sample_PALETTES rand im options).
  - split; simpl; [lia|lia|reflexivity|]. repeat (constructor; [lia|]). constructor.
  - reflexivity.
  - reflexivity.
  - reflexivity.
Defined.

(** X12. Random RGB dithering, whatever the palette (it need only
    resolve): the call returns an image of the same size in which each of
    the three colour channels of pixel number k is 0 when its value is
    below its own draw and 255 otherwise, the draws being numbers 3k, 3k+1
    and 3k+2 of the stream; the alpha sample is kept. *)
Theorem random_rgb_output
    (PALETTES : gmap string (list string)) (rand : nat -> Z)
    (im : image) (options : option user_options)
    (color_palette : list (option color)) :
  wf_image im ->
  ditheringType (merge_options options) = "random"%string ->
  randomDitheringType (merge_options options) = "rgb"%string ->
  set_color_palette PALETTES (palette (merge_options options)) = Ok color_palette ->
  exists out,
    dither_image PALETTES rand (Some im) options = Ok (Some out) /\
    width out = width im /\ height out = height im /\
    length (samples out) = length (samples im) /\
    forall k r g b a, pixel_at (samples im) k = [r; g; b; a] ->
      pixel_at (samples out) k =
      [ if r <? rand (3 * k)%nat then 0 else 255;
        if g <? rand (3 * k + 1)%nat then 0 else 255;
        if b <? rand (3 * k + 2)%nat then 0 else 255;
        a ].
Proof.
  intros Hwf H1 H2 Hcp.
  set (n := Z.to_nat (height im * width im)).
  assert (Hl : length (num <$> samples im) = (4 * n)%nat).
  { destruct Hwf as [Hw Hh Hlen _]. rewrite length_fmap. unfold n. nia. }
  set (G := fun (k : nat) (old : color) =>
    match old with
    | [p0; p1; p2; p3] =>
        (if Qltb p0 (num (rand (3 * k)%nat)) then num 0 else num 255,
         if Qltb p1 (num (rand (3 * k + 1)%nat)) then num 0 else num 255,
         if Qltb p2 (num (rand (3 * k + 2)%nat)) then num 0 else num 255,
         clamp_uint8 p3)
    | _ => (num 0, num 0, num 0, num 0)
    end).
  destruct (dither_image_of_pass PALETTES rand im options color_palette
    (fun final => forall k, (k < n)%nat ->
       pixel_at final k =
       let '(v0, v1, v2, v3) := G k (pixel_at (num <$> samples im) k) in
       [v0; v1; v2; v3]) Hwf Hcp) as (final & Hrun & Hfl & Hpx).
  { intros tm. apply (drawing_pass (fun k => (3 * k)%nat) G); [done|].
    intros k data Hk Hdl.
    pose proof (pixel_at_length data k ltac:(lia)) as H4.
    destruct (pixel_at data k) as [|p0 [|p1 [|p2 [|p3 [|]]]]] eqn:E; try done.
    rewrite (random_rgb_step _ _ _ _ _ _ _ _ _ p0 p1 p2 p3) by (done || lia).
    cbn [G].
    replace (S (3 * k)) with (3 * k + 1)%nat by lia.
    replace (S (3 * k + 1)) with (3 * k + 2)%nat by lia.
    by replace (S (3 * k + 2)) with (3 * S k)%nat by lia. }
  eexists. split; [exact Hrun|]. cbn [width height samples].
  split; [done|]. split; [done|]. split; [by rewrite length_fmap|].
  intros k r g b a Hk.
  destruct (pixel_at_in_image im k r g b a Hwf Hk) as (Hkn & _ & _ & _ & Ha).
  rewrite pixel_at_fmap, (Hpx k Hkn), pixel_at_fmap, Hk. cbn [fmap list_fmap G].
  rewrite !Qltb_num, clamp_uint8_num by done.
  destruct (r <? _), (g <? _), (b <? _); cbn [fmap list_fmap];
    by rewrite !to_uint8_num by lia.
Qed.

(** Witness for X12: two pixels and the draws 0, 50, 100, 150, 200, 250. *)
Lemma random_rgb_output_witness :
  let im := {| width := 2; height := 1;
               samples := [10; 20; 130; 255; 200; 100; 0; 128] |} in
  let rand := fun k : nat => 50 * Z.of_nat k in
  let options :=
    Some {| u_ditheringType := Some "random"%string;
            u_errorDiffusionMatrix := None;
            u_orderedDitheringMatrix := None;
            u_randomDitheringType := Some "rgb"%string;
            u_palette := None |} in
  exists out,
    dither_image sample_PALETTES rand (Some im) options = Ok (Some out) /\
    width out = width im /\ height out = height im /\
    length (samples out) = length (samples im) /\
    forall k r g b a, pixel_at (samples im) k = [r; g; b; a] ->
      pixel_at (samples out) k =
      [ if r <? rand (3 * k)%nat then 0 else 255;
        if g <? rand (3 * k + 1)%nat then 0 else 255;
        if b <? rand (3 * k + 2)%nat then 0 else 255;
        a ].
Proof.
  intros im rand options.
  eapply (random_rgb_output sample_PALETTES rand im options).
  - split; simpl; [lia|lia|reflexivity|]. repeat (constructor; [lia|]). constructor.
  - reflexivity.
  - reflexivity.
  - reflexivity.
Defined.

Lemma random_other_step (rand : nat -> Z) (opts : options)
    (width height : Z) (color_palette : list (option color))
    (threshold_map : list (list Z)) (data : list Q) (drawn : nat) (current : Z) :
  ditheringType opts = "random"%string ->
  randomDitheringType opts <> "rgb"%string ->
  randomDitheringType opts <> "blackAndWhite"%string ->
  dither_pixel rand opts width height color_palette threshold_map
    (data, drawn) current =
  (old_pixel ← get_pixel_color_values current data; Ok (data, drawn)).
Proof.
  intros H1 H2 H3. apply String.eqb_neq in H2, H3.
  unfold dither_pixel. rewrite H1, H2, H3.
  cbn [String.eqb Ascii.eqb Bool.eqb andb orb].
  destruct (get_pixel_color_values current data); done.
Qed.

(** X13. Random dithering with a [randomDitheringType] that is neither
    "rgb" nor "blackAndWhite" changes nothing: the call returns the image
    it was given, without an error. *)
Theorem random_with_other_type_returns_the_image
    (PALETTES : gmap string (list string)) (rand : nat -> Z)
    (im : image) (options : option user_options)
    (color_palette : list (option color)) :
  wf_image im ->
  ditheringType (merge_options options) = "random"%string ->
  randomDitheringType (merge_options options) <> "rgb"%string ->
  randomDitheringType (merge_options options) <> "blackAndWhite"%string ->
  set_color_palette PALETTES (palette (merge_options options)) = Ok color_palette ->
  dither_image PALETTES rand (Some im) options = Ok (Some im).
Proof.
  intros Hwf H1 H2 H3 Hcp.
  set (n := Z.to_nat (height im * width im)).
  assert (Hl : length (num <$> samples im) = (4 * n)%nat).
  { destruct Hwf as [Hw Hh Hlen _]. rewrite length_fmap. unfold n. nia. }
  destruct (dither_image_of_pass PALETTES rand im options color_palette
    (fun final => final = num <$> samples im) Hwf Hcp) as (final & Hrun & _ & ->).
  { intros tm.
    destruct (for_each_total
                (fun _ st => st = (num <$> samples im, 0%nat))
                (dither_pixel rand (merge_options options) (width im) (height im)
                   color_palette tm)
                (fun k => 4 * Z.of_nat k) n) with (st0 := (num <$> samples im, 0%nat))
      as (final & Hrun & ->); [|done|by eexists].
    intros k st Hk ->. eexists. split; [|done].
    rewrite random_other_step by done.
    by destruct (get_pixel_at_total (num <$> samples im) k) as [-> _]; [lia|]. }
  rewrite Hrun, to_uint8_samples by apply Hwf. by destruct im.
Qed.

(** Witness for X13: the type "greyscale". *)
Lemma random_with_other_type_returns_the_image_witness :
  let im := {| width := 2; height := 1;
               samples := [10; 20; 30; 255; 200; 100; 0; 128] |} in
  dither_image sample_PALETTES (fun _ => 7) (Some im)
    (Some {| u_ditheringType := Some "random"%string;
             u_errorDiffusionMatrix := None;
             u_orderedDitheringMatrix := None;
             u_randomDitheringType := Some "greyscale"%string;
             u_palette := None |}) = Ok (Some im).
Proof.
  intros im.
  eapply (random_with_other_type_returns_the_image sample_PALETTES (fun _ => 7) im).
  - split; simpl; [lia|lia|reflexivity|]. repeat (constructor; [lia|]). constructor.
  - reflexivity.
  - done.
  - done.
  - reflexivity.
Defined.

(** ** The image a call returns *)

Lemma to_uint8_range (v : Q) : 0 <= to_uint8 v <= 255.
Proof.
  unfold to_uint8.
  destruct (Qltb v (num 0)) eqn:E0; [by rewrite Qfloor_Z|].
  destruct (Qltb (num 255) v) eqn:E1; [by rewrite Qfloor_Z|].
  apply Qltb_ge in E0, E1.
  apply Qfloor_resp_le in E0, E1. unfold num in E0, E1.
  rewrite Qfloor_Z in E0, E1. lia.
Qed.

(** X14. Whatever the options, a call that returns does not return [None]
    for an image: it returns an RGBA image of the same width and height
    whose samples all lie within 0..255. *)
Theorem dither_image_output_is_well_formed
    (PALETTES : gmap string (list string)) (rand : nat -> Z)
    (im : image) (options : option user_options) (res : option image) :
  wf_image im ->
  dither_image PALETTES rand (Some im) options = Ok res ->
  exists out, res = Some out /\ wf_image out /\
              width out = width im /\ height out = height im.
Proof.
  intros [Hw Hh _ _] Hrun. unfold dither_image in Hrun.
  apply bind_Ok in Hrun as (cp & _ & Hrun).
  apply bind_Ok in Hrun as (tm & _ & Hrun).
  apply bind_Ok in Hrun as (final & _ & Hrun).
  destruct (Z.of_nat (length (to_uint8 <$> final.1)) =? height im * width im * 4)
    eqn:E; [|discriminate].
  apply Z.eqb_eq in E. injection Hrun as <-. eexists. split; [done|].
  split; [|done]. split; cbn [width height samples]; [done..|].
  apply Forall_fmap, Forall_forall. intros v _. apply to_uint8_range.
Qed.

(** Witness for X14: a 2x1 image through the default options. *)
Lemma dither_image_output_is_well_formed_witness :
  let im := {| width := 2; height := 1;
               samples := [10; 20; 30; 255; 200; 220; 250; 128] |} in
  exists out,
    Some {| width := 2; height := 1;
            samples := [0; 0; 0; 255; 255; 255; 255; 255] |} = Some out /\
    wf_image out /\ width out = width im /\ height out = height im.
Proof.
  intros im.
  eapply (dither_image_output_is_well_formed sample_PALETTES (fun _ => 0) im None).
  - split; simpl; [lia|lia|reflexivity|]. repeat (constructor; [lia|]). constructor.
  - vm_compute. reflexivity.
Defined.

(** The pixels of the image returned in the modes that consult the
    palette. *)
Lemma quantizing_pixels
    (PALETTES : gmap string (list string)) (rand : nat -> Z)
    (im out : image) (options : option user_options) :
  wf_image im ->
  quantizing (ditheringType (merge_options options)) ->
  dither_image PALETTES rand (Some im) options = Ok (Some out) ->
  exists color_palette,
    set_color_palette PALETTES (palette (merge_options options)) = Ok color_palette /\
    width out = width im /\ height out = height im /\
    length (samples out) = length (samples im) /\
    forall k, (k < Z.to_nat (height im * width im))%nat ->
      exists r g b,
        Some [num r; num g; num b] ∈ color_palette /\
        0 <= r <= 255 /\ 0 <= g <= 255 /\ 0 <= b <= 255 /\
        pixel_at (samples out) k = [r; g; b; 255].
Proof.
  intros Hwf Hmode Hrun.
  destruct (dither_image_Ok _ _ _ _ _ Hwf Hrun)
    as (cp & tm & final & Hcp & Htm & Hl & Hloop & ->).
  pose proof (set_color_palette_hex _ _ _ Hcp) as Hpal.
  pose proof Hwf as [Hw Hh _ _].
  exists cp. repeat (split; [done|]). cbn [samples].
  set (n := Z.to_nat (height im * width im)) in *.
  assert (Hquant : forall p k v0 v1 v2 v3 rest,
    find_closest_palette_color p cp = Ok (v0 :: v1 :: v2 :: v3 :: rest) ->
    pixel_at final.1 k =
      [clamp_uint8 v0; clamp_uint8 v1; clamp_uint8 v2; clamp_uint8 v3] ->
    exists r g b,
      Some [num r; num g; num b] ∈ cp /\
      0 <= r <= 255 /\ 0 <= g <= 255 /\ 0 <= b <= 255 /\
      pixel_at (to_uint8 <$> final.1) k = [r; g; b; 255]).
  { intros p k v0 v1 v2 v3 rest HG Hpx.
    destruct (quantized_pixel_out cp _ final.1 k v0 v1 v2 v3 rest Hpal HG Hpx)
      as (r & g & b & Hin & _ & Hout).
    destruct (Hpal _ Hin) as (r' & g' & b' & Heq & Hr & Hg & Hb).
    injection Heq as -> -> ->. by exists r', g', b'. }
  assert (Hfl : length final.1 = (4 * n)%nat /\
    forall k, (k < n)%nat ->
      exists r g b,
        Some [num r; num g; num b] ∈ cp /\
        0 <= r <= 255 /\ 0 <= g <= 255 /\ 0 <= b <= 255 /\
        pixel_at (to_uint8 <$> final.1) k = [r; g; b; 255]).
  { destruct Hmode as [Hm|[Hm|[Hm|Hm]]].
    - destruct (pointwise_pass (fun _ old => find_closest_palette_color old cp)
                  _ n _ _ final Hl
                  (fun k data drawn _ =>
                     dither_pixel_quantization rand _ _ _ cp tm data drawn _
                       (or_introl Hm)) Hloop) as [Hfl Hall].
      split; [done|]. intros k Hk.
      destruct (Hall k Hk) as (v0 & v1 & v2 & v3 & rest & HG & Hpx). eauto.
    - destruct (pointwise_pass (fun _ old => find_closest_palette_color old cp)
                  _ n _ _ final Hl
                  (fun k data drawn _ =>
                     dither_pixel_quantization rand _ _ _ cp tm data drawn _
                       (or_intror Hm)) Hloop) as [Hfl Hall].
      split; [done|]. intros k Hk.
      destruct (Hall k Hk) as (v0 & v1 & v2 & v3 & rest & HG & Hpx). eauto.
    - destruct (pointwise_pass
                  (fun k old =>
                     xy ← pixel_xy (4 * Z.of_nat k / 4) (width im);
                     new_pixel ← ordered_dither_pixel_value old xy tm
                                   (num 256 / num 4)%Q;
                     find_closest_palette_color new_pixel cp)
                  (dither_pixel rand (merge_options options) (width im) (height im)
                     cp tm) n (num <$> samples im) 0%nat final Hl)
        as [Hfl Hall]; [|exact Hloop|].
      { intros j data drawn _. rewrite dither_pixel_ordered by done.
        destruct (get_pixel_color_values _ data); [|done]. cbn.
        destruct (pixel_xy _ _); [|done]. cbn.
        by destruct (ordered_dither_pixel_value _ _ _ _). }
      split; [done|]. intros k Hk.
      destruct (Hall k Hk) as (v0 & v1 & v2 & v3 & rest & HG & Hpx).
      apply bind_Ok in HG as (xy & _ & HG).
      apply bind_Ok in HG as (np & _ & HG). eauto.
    - destruct (error_diffusion_pass rand _ _ _ cp tm n _ _ final
                  Hm Hpal Hw Hh eq_refl Hl Hloop) as [Hfl Hall].
      split; [done|]. intros k Hk.
      destruct (Hall k Hk) as (r & g & b & Hin & Hr & Hg & Hb & Hpx).
      exists r, g, b. repeat (split; [done|]). by apply pixel_at_out. }
  destruct Hfl as [Hfl Hall]. split; [|done].
  rewrite length_fmap in Hl. by rewrite length_fmap, Hfl, Hl.
Qed.

(** X15. In the four modes that consult the palette the returned image is
    fully opaque: every pixel has alpha 255, whatever alpha the pixel had
    on input. *)
Theorem quantizing_modes_discard_alpha
    (PALETTES : gmap string (list string)) (rand : nat -> Z)
    (im out : image) (options : option user_options) :
  wf_image im ->
  quantizing (ditheringType (merge_options options)) ->
  dither_image PALETTES rand (Some im) options = Ok (Some out) ->
  forall k, (k < Z.to_nat (height im * width im))%nat ->
    samples out !! (4 * k + 3)%nat = Some 255.
Proof.
  intros Hwf Hmode Hrun k Hk.
  destruct (quantizing_pixels _ _ _ _ _ Hwf Hmode Hrun)
    as (cp & _ & _ & _ & _ & Hall).
  destruct (Hall k Hk) as (r & g & b & _ & _ & _ & _ & Hpx).
  by apply pixel_at_Some in Hpx as (_ & _ & _ & H3).
Qed.

(** Witness for X15: the second pixel of a 2x1 image, transparent on
    input. *)
Lemma quantizing_modes_discard_alpha_witness :
  [0; 0; 0; 255; 255; 255; 255; 255] !! (4 * 1 + 3)%nat = Some 255.
Proof.
  refine (quantizing_modes_discard_alpha sample_PALETTES (fun _ => 0)
            {| width := 2; height := 1;
               samples := [10; 20; 30; 128; 200; 220; 250; 0] |}
            {| width := 2; height := 1;
               samples := [0; 0; 0; 255; 255; 255; 255; 255] |}
            (with_type_and_colors "quantizationOnly" ["#000"; "#fff"]%string)
            _ _ _ 1%nat _).
  - split; simpl; [lia|lia|reflexivity|]. repeat (constructor; [lia|]). constructor.
  - right. left. reflexivity.
  - vm_compute. reflexivity.
  - simpl. lia.
Defined.

(** ** Colour replacement that runs to the end *)

Lemma for_each_return_total {S X V} (Inv : nat -> S -> Prop)
    (body : S -> X -> result (ReplaceColors.control S V)) (f : nat -> X) (n : nat) :
  (forall k st, (k < n)%nat -> Inv k st ->
     exists st', body st (f k) = Ok (ReplaceColors.Continue st') /\
                 Inv (Datatypes.S k) st') ->
  forall st0, Inv 0%nat st0 ->
  exists st, ReplaceColors.for_each_return body (f <$> seq 0 n) st0
               = Ok (ReplaceColors.Continue st) /\ Inv n st.
Proof.
  intros Hstep.
  assert (Hgen : forall m s st0, (s + m = n)%nat -> Inv s st0 ->
            exists st, ReplaceColors.for_each_return body (f <$> seq s m) st0
                         = Ok (ReplaceColors.Continue st) /\ Inv n st).
  { induction m as [|m IH]; intros s st0 Hs H0; simpl.
    - replace n with s by lia. eauto.
    - destruct (Hstep s st0) as (st' & -> & H'); [lia|done|]. simpl.
      apply IH; [lia|done]. }
  intros st0 H0. by apply (Hgen n 0%nat).
Qed.

(** A matched pixel whose replacement is a triple of uint8 values is
    overwritten; no store is refused. *)
Lemma replace_pixel_stores (original replacement : list (list Z))
    (data : list Z) (error_colors : Z) (k : nat) (c : list Z) (idx r g b : Z) :
  (4 * k + 3 < length data)%nat ->
  Forall (fun l => exists r g b, l = [r; g; b]) original ->
  first_match (rgb_at data k) original 0 = Some (c, idx) ->
  replacement !! Z.to_nat idx = Some [r; g; b] ->
  0 <= r <= 255 -> 0 <= g <= 255 -> 0 <= b <= 255 ->
  ReplaceColors.replace_pixel original replacement (data, error_colors)
    (4 * Z.of_nat k) =
  Ok (ReplaceColors.Continue (write3 data (4 * k) r g b, error_colors)).
Proof.
  intros Hk Horig Hm Hl Hr Hg Hb. unfold ReplaceColors.replace_pixel.
  rewrite find_match_first_match by done. rewrite bind_Ok_l, Hm.
  apply first_match_index in Hm as (Hidx & _).
  pose proof (lookup_lt_Some _ _ _ Hl) as Hlt.
  replace (idx <? Z.of_nat (length replacement)) with true
    by (symmetry; apply Z.ltb_lt; lia).
  rewrite (py_index_in_range replacement idx [r; g; b] Hidx Hl), bind_Ok_l.
  destruct (py_index_012 r g b []) as (-> & -> & ->). rewrite !bind_Ok_l.
  unfold ReplaceColors.store_uint8.
  replace ((r <? 0) || (255 <? r)) with false by lia.
  rewrite py_store_in_range by lia. rewrite !bind_Ok_l.
  replace ((g <? 0) || (255 <? g)) with false by lia.
  rewrite py_store_in_range by (rewrite length_insert; lia). rewrite !bind_Ok_l.
  replace ((b <? 0) || (255 <? b)) with false by lia.
  rewrite py_store_in_range by (rewrite !length_insert; lia). rewrite !bind_Ok_l.
  unfold write3. do 4 f_equal; [lia|]. f_equal; [lia|]. f_equal. lia.
Qed.

Lemma replace_pixel_skips (original replacement : list (list Z))
    (data : list Z) (error_colors : Z) (k : nat) :
  (4 * k + 3 < length data)%nat ->
  Forall (fun l => exists r g b, l = [r; g; b]) original ->
  first_match (rgb_at data k) original 0 = None ->
  ReplaceColors.replace_pixel original replacement (data, error_colors)
    (4 * Z.of_nat k) =
  Ok (ReplaceColors.Continue (data, error_colors + 1)).
Proof.
  intros Hk Horig Hm. unfold ReplaceColors.replace_pixel.
  rewrite find_match_first_match by done. by rewrite bind_Ok_l, Hm.
Qed.

Lemma replace_pass_total (original replacement : list (list Z))
    (data0 : list Z) (n : nat) :
  length data0 = (4 * n)%nat ->
  Forall (fun l => exists r g b, l = [r; g; b]) original ->
  (forall k c idx, (k < n)%nat ->
     first_match (rgb_at data0 k) original 0 = Some (c, idx) ->
     exists r g b, replacement !! Z.to_nat idx = Some [r; g; b] /\
                   0 <= r <= 255 /\ 0 <= g <= 255 /\ 0 <= b <= 255) ->
  exists data,
    ReplaceColors.for_each_return
      (ReplaceColors.replace_pixel original replacement)
      ((fun k => 4 * Z.of_nat k) <$> seq 0 n) (data0, 0)
    = Ok (ReplaceColors.Continue (data, unmatched data0 original n)) /\
    length data = (4 * n)%nat /\
    forall k, (k < n)%nat ->
      pixel_at data k = replaced_pixel data0 original replacement k.
Proof.
  intros Hlen Ho3 Hcov.
  set (Inv := fun (k : nat) (st : list Z * Z) =>
    length st.1 = (4 * n)%nat /\
    st.2 = unmatched data0 original k /\
    (forall j, (k <= j)%nat -> pixel_at st.1 j = pixel_at data0 j) /\
    (forall j, (j < k)%nat ->
       pixel_at st.1 j = replaced_pixel data0 original replacement j)).
  destruct (for_each_return_total Inv
              (ReplaceColors.replace_pixel original replacement)
              (fun k => 4 * Z.of_nat k) n) with (st0 := (data0, 0))
    as ([data cnt] & Hrun & Hl & Hcnt & _ & Hdone).
  - intros k [data cnt] Hk (Hl & Hcnt & Htodo & Hdone). cbn [fst snd] in *.
    assert (Hrgb : rgb_at data k = rgb_at data0 k).
    { unfold rgb_at. by rewrite Htodo by lia. }
    destruct (first_match (rgb_at data0 k) original 0) as [[c idx]|] eqn:Hm.
    + destruct (Hcov k c idx Hk Hm) as (r & g & b & Hrep & Hr & Hg & Hb).
      eexists. split.
      { apply (replace_pixel_stores original replacement data cnt k c idx r g b);
          [lia|done|by rewrite Hrgb|done..]. }
      unfold Inv. cbn [fst snd]. split; [by rewrite write3_length|].
      split. { rewrite unmatched_S, Hm, decide_False by done. lia. }
      split. { intros j Hj. rewrite pixel_at_write3_other by lia. apply Htodo. lia. }
      intros j Hj. destruct (decide (j = k)) as [->|Hne].
      * rewrite pixel_at_write3 by lia. unfold replaced_pixel.
        rewrite Hm, Hrep. cbn [default]. by rewrite Htodo by lia.
      * rewrite pixel_at_write3_other by done. apply Hdone. lia.
    + eexists. split.
      { apply (replace_pixel_skips original replacement data cnt k);
          [lia|done|by rewrite Hrgb]. }
      unfold Inv. cbn [fst snd]. split; [done|].
      split. { rewrite unmatched_S, Hm, decide_True by done. lia. }
      split. { intros j Hj. apply Htodo. lia. }
      intros j Hj. destruct (decide (j = k)) as [->|Hne].
      * unfold replaced_pixel. rewrite Hm. apply Htodo. lia.
      * apply Hdone. lia.
  - split; [done|]. split; [done|]. split; [done|]. intros; lia.
  - cbn [fst snd] in *. subst cnt. exists data. split; [done|]. split; [done|].
    intros k Hk. by apply Hdone.
Qed.

(** The call around a pass that runs to the end. *)
Lemma replace_colors_of_pass (im : image)
    (original_colors replace_colors_list : list string)
    (original replacement : list (list Z)) (data : list Z) :
  wf_image im ->
  list_comp ReplaceColors.hex_to_rgb original_colors = Ok original ->
  list_comp ReplaceColors.hex_to_rgb replace_colors_list = Ok replacement ->
  let n := Z.to_nat (height im * width im) in
  ReplaceColors.for_each_return
    (ReplaceColors.replace_pixel original replacement)
    ((fun k => 4 * Z.of_nat k) <$> seq 0 n) (samples im, 0)
  = Ok (ReplaceColors.Continue (data, unmatched (samples im) original n)) ->
  length data = (4 * n)%nat ->
  ReplaceColors.replace_colors im original_colors replace_colors_list =
  Ok {| ReplaceColors.returned :=
          Some {| width := width im; height := height im; samples := data |};
        ReplaceColors.printed :=
          if 0 <? unmatched (samples im) original n
          then Some (unmatched (samples im) original n) else None |}.
Proof.
  intros [Hw Hh Hlen _] Horig Hrepl n Hrun Hdl.
  assert (Hl : length (samples im) = (4 * n)%nat) by (unfold n; nia).
  unfold ReplaceColors.replace_colors.
  rewrite Horig, Hrepl, !bind_Ok_l, Hl, py_range4_pixels.
  fold n. rewrite Hrun, bind_Ok_l, Hdl.
  replace (Z.of_nat (4 * n) =? height im * width im * 4) with true
    by (symmetry; apply Z.eqb_eq; unfold n; nia).
  done.
Qed.

(** Two sample arrays of [n] pixels with the same pixels are equal. *)
Lemma pixels_ext {A} (d1 d2 : list A) (n : nat) :
  length d1 = (4 * n)%nat -> length d2 = (4 * n)%nat ->
  (forall k, (k < n)%nat -> pixel_at d1 k = pixel_at d2 k) ->
  d1 = d2.
Proof.
  intros H1 H2 Hpx. apply list_eq. intros i.
  destruct (decide (i < 4 * n)%nat) as [Hi|Hi].
  - pose proof (Nat.div_mod_eq i 4) as Hdm.
    pose proof (Nat.mod_upper_bound i 4 ltac:(lia)) as Hm.
    rewrite Hdm, <- !pixel_at_lookup by done. rewrite Hpx; [done|].
    apply Nat.Div0.div_lt_upper_bound. lia.
  - rewrite !lookup_ge_None_2 by lia. done.
Qed.

Lemma rgb_at_pixel (im : image) (k : nat) :
  wf_image im -> (k < Z.to_nat (height im * width im))%nat ->
  exists r g b a,
    pixel_at (samples im) k = [r; g; b; a] /\
    0 <= r <= 255 /\ 0 <= g <= 255 /\ 0 <= b <= 255 /\ 0 <= a <= 255.
Proof.
  intros Hwf Hk. pose proof Hwf as [Hw Hh Hlen _].
  pose proof (pixel_at_length (samples im) k ltac:(nia)) as H4.
  destruct (pixel_at (samples im) k) as [|r [|g [|b [|a [|]]]]] eqn:E; try done.
  exists r, g, b, a. split; [done|]. by eapply pixel_at_in_image.
Qed.

(** X16. When every replacement colour is a triple of values within
    0..255 and the first original colour equal to each pixel has a
    replacement, the call returns an image, raising nothing: the same size,
    every sample within 0..255, each matched pixel holding the replacement
    of its first match with its alpha kept, each other pixel as it was;
    the count printed is the number of pixels that matched nothing. *)
Theorem replace_colors_returns_when_covered
    (im : image) (original_colors replace_colors_list : list string)
    (original replacement : list (list Z)) :
  wf_image im ->
  list_comp ReplaceColors.hex_to_rgb original_colors = Ok original ->
  list_comp ReplaceColors.hex_to_rgb replace_colors_list = Ok replacement ->
  Forall (Forall (fun v => 0 <= v <= 255)) replacement ->
  let n := Z.to_nat (height im * width im) in
  (forall k c idx, (k < n)%nat ->
     first_match (rgb_at (samples im) k) original 0 = Some (c, idx) ->
     idx < Z.of_nat (length replacement)) ->
  exists out,
    ReplaceColors.replace_colors im original_colors replace_colors_list =
    Ok {| ReplaceColors.returned := Some out;
          ReplaceColors.printed :=
            if 0 <? unmatched (samples im) original n
            then Some (unmatched (samples im) original n) else None |} /\
    wf_image out /\ width out = width im /\ height out = height im /\
    forall k, (k < n)%nat ->
      pixel_at (samples out) k = replaced_pixel (samples im) original replacement k.
Proof.
  intros Hwf Horig Hrepl Hrange n Hcov.
  pose proof (parsed_colors_are_triples _ _ Horig) as Ho3.
  pose proof (parsed_colors_are_triples _ _ Hrepl) as Hr3.
  pose proof Hwf as [Hw Hh Hlen _].
  assert (Hl : length (samples im) = (4 * n)%nat) by (unfold n; nia).
  assert (Hrep : forall k c idx, (k < n)%nat ->
     first_match (rgb_at (samples im) k) original 0 = Some (c, idx) ->
     exists r g b, replacement !! Z.to_nat idx = Some [r; g; b] /\
                   0 <= r <= 255 /\ 0 <= g <= 255 /\ 0 <= b <= 255).
  { intros k c idx Hk Hm. pose proof (Hcov k c idx Hk Hm) as Hlt.
    apply first_match_index in Hm as (Hidx & _).
    destruct (lookup_lt_is_Some_2 replacement (Z.to_nat idx)) as [l Hlk]; [lia|].
    rewrite Forall_lookup in Hr3. destruct (Hr3 _ _ Hlk) as (r & g & b & ->).
    rewrite Forall_lookup in Hrange. pose proof (Hrange _ _ Hlk) as H3.
    exists r, g, b. split; [done|].
    rewrite !Forall_cons in H3. destruct H3 as (? & ? & ? & _). done. }
  destruct (replace_pass_total original replacement (samples im) n Hl Ho3 Hrep)
    as (data & Hrun & Hdl & Hpx).
  eexists. split.
  { apply (replace_colors_of_pass im original_colors replace_colors_list
             original replacement data); done. }
  cbn [width height samples]. split; [|done].
  split; cbn [width height samples]; [done|done|nia|].
  apply (samples_of_pixels data n Hdl). intros k Hk. rewrite (Hpx k Hk).
  destruct (rgb_at_pixel im k Hwf Hk) as (r & g & b & a & Hp & Hr & Hg & Hb & Ha).
  unfold replaced_pixel.
  destruct (first_match _ _ _) as [[c idx]|] eqn:Hm.
  - destruct (Hrep k c idx Hk Hm) as (r' & g' & b' & -> & Hr' & Hg' & Hb').
    rewrite Hp. exists r', g', b', a. done.
  - rewrite Hp. exists r, g, b, a. done.
Qed.

(** Witness for X16: black is replaced, the grey pixel is counted. *)
Lemma replace_colors_returns_when_covered_witness :
  let im := {| width := 2; height := 1;
               samples := [0; 0; 0; 255; 9; 9; 9; 128] |} in
  let original := [[0; 0; 0]; [255; 255; 255]] in
  let replacement := [[17; 17; 17]] in
  exists out,
    ReplaceColors.replace_colors im ["#000"; "#fff"]%string ["#111"]%string =
    Ok {| ReplaceColors.returned := Some out;
          ReplaceColors.printed :=
            if 0 <? unmatched (samples im) original 2
            then Some (unmatched (samples im) original 2) else None |} /\
    wf_image out /\ width out = width im /\ height out = height im /\
    forall k, (k < 2)%nat ->
      pixel_at (samples out) k = replaced_pixel (samples im) original replacement k.
Proof.
  intros im original replacement.
  apply (replace_colors_returns_when_covered im ["#000"; "#fff"]%string
           ["#111"]%string original replacement).
  - split; simpl; [lia|lia|reflexivity|]. repeat (constructor; [lia|]). constructor.
  - reflexivity.
  - reflexivity.
  - repeat constructor; lia.
  - intros [|[|k]] c idx Hk Hm; [|vm_compute in Hm; discriminate|simpl in Hk; lia].
    vm_compute in Hm. injection Hm as <- <-. simpl. lia.
Defined.

(** X17. Replacing a list of colours by itself gives the image back,
    whatever the colours and the image: nothing is refused, nothing
    aborts, and the count printed is that of the pixels outside the list. *)
Theorem replace_colors_by_themselves_is_identity
    (im : image) (colors : list string) (original : list (list Z)) :
  wf_image im ->
  list_comp ReplaceColors.hex_to_rgb colors = Ok original ->
  let n := Z.to_nat (height im * width im) in
  ReplaceColors.replace_colors im colors colors =
  Ok {| ReplaceColors.returned := Some im;
        ReplaceColors.printed :=
          if 0 <? unmatched (samples im) original n
          then Some (unmatched (samples im) original n) else None |}.
Proof.
  intros Hwf Horig n.
  pose proof (parsed_colors_are_triples _ _ Horig) as Ho3.
  pose proof Hwf as [Hw Hh Hlen _].
  assert (Hl : length (samples im) = (4 * n)%nat) by (unfold n; nia).
  assert (Hrep : forall k c idx, (k < n)%nat ->
     first_match (rgb_at (samples im) k) original 0 = Some (c, idx) ->
     exists r g b, original !! Z.to_nat idx = Some [r; g; b] /\
                   [r; g; b] = rgb_at (samples im) k /\
                   0 <= r <= 255 /\ 0 <= g <= 255 /\ 0 <= b <= 255).
  { intros k c idx Hk Hm.
    apply first_match_index in Hm as (Hidx & _ & Hlk & _).
    rewrite Z.sub_0_r in Hlk.
    destruct (rgb_at_pixel im k Hwf Hk) as (r & g & b & a & Hp & Hr & Hg & Hb & _).
    exists r, g, b. unfold rgb_at in *. rewrite Hp in *. done. }
  destruct (replace_pass_total original original (samples im) n Hl Ho3)
    as (data & Hrun & Hdl & Hpx).
  { intros k c idx Hk Hm.
    destruct (Hrep k c idx Hk Hm) as (r & g & b & H1 & _ & H2). eauto. }
  assert (data = samples im) as ->.
  { apply (pixels_ext _ _ n Hdl Hl). intros k Hk. rewrite (Hpx k Hk).
    unfold replaced_pixel.
    destruct (first_match _ _ _) as [[c idx]|] eqn:Hm; [|done].
    destruct (Hrep k c idx Hk Hm) as (r & g & b & -> & -> & _).
    cbn [default]. unfold rgb_at. apply take_drop. }
  rewrite (replace_colors_of_pass im colors colors original original (samples im))
    by done.
  by destruct im.
Qed.

(** Witness for X17: a black and a grey pixel, black and white listed. *)
Lemma replace_colors_by_themselves_is_identity_witness :
  let im := {| width := 2; height := 1;
               samples := [0; 0; 0; 255; 9; 9; 9; 128] |} in
  ReplaceColors.replace_colors im ["#000"; "#fff"]%string ["#000"; "#fff"]%string =
  Ok {| ReplaceColors.returned := Some im;
        ReplaceColors.printed :=
          if 0 <? unmatched (samples im) [[0; 0; 0]; [255; 255; 255]] 2
          then Some (unmatched (samples im) [[0; 0; 0]; [255; 255; 255]] 2)
          else None |}.
Proof.
  intros im.
  apply (replace_colors_by_themselves_is_identity im ["#000"; "#fff"]%string
           [[0; 0; 0]; [255; 255; 255]]).
  - split; simpl; [lia|lia|reflexivity|]. repeat (constructor; [lia|]). constructor.
  - reflexivity.
Defined.

(** ** Dithering, then replacing the palette by the device colours *)

Lemma replace_parser_agrees_on_lists (colors : list string) :
  Forall (fun s => is_Some (ColorHelpers.hex_to_rgb s)) colors ->
  exists rgbs,
    list_comp ReplaceColors.hex_to_rgb colors = Ok rgbs /\
    Forall2 (fun s rgb => ColorHelpers.hex_to_rgb s = Some rgb) colors rgbs.
Proof.
  induction 1 as [|s colors [rgb Hs] _ (rgbs & IH & IH2)].
  - exists []. by split.
  - exists (rgb :: rgbs). cbn [list_comp].
    rewrite (replace_parser_agrees s rgb Hs), bind_Ok_l, IH, bind_Ok_l.
    split; [done|]. by constructor.
Qed.

Lemma first_match_elem (rgb : list Z) (original : list (list Z)) (idx0 : Z) :
  rgb ∈ original -> is_Some (first_match rgb original idx0).
Proof.
  intros Hin. revert idx0.
  induction original as [|o rest IH]; intros idx0; [by apply elem_of_nil in Hin|].
  cbn [first_match]. case_bool_decide as Ho; [done|].
  apply elem_of_cons in Hin as [->|Hin]; [done|]. by apply IH.
Qed.

Lemma unmatched_zero (samples : list Z) (original : list (list Z)) (n : nat) :
  (forall k, (k < n)%nat -> is_Some (first_match (rgb_at samples k) original 0)) ->
  unmatched samples original n = 0.
Proof.
  induction n as [|n IH]; intros Hall; [done|].
  rewrite unmatched_S, IH by (intros; apply Hall; lia).
  destruct (Hall n ltac:(lia)) as [m Hm]. by rewrite Hm, decide_False.
Qed.

Lemma num_triple (l : list Z) (r g b : Z) :
  num <$> l = [num r; num g; num b] -> l = [r; g; b].
Proof.
  destruct l as [|r' [|g' [|b' [|]]]]; try done.
  unfold num, inject_Z. by intros [= -> -> ->].
Qed.

(** X18. Dithering with a list of proper hex colours in one of the four
    modes that consult the palette, then replacing that list by a list of
    proper hex colours that is at least as long: the replacement returns an
    image, aborts nowhere, prints no count, and each pixel that showed
    palette colour number i shows replacement colour number i, opaque (i
    being the first position of that colour in the list). *)
Theorem dithered_image_is_fully_replaced
    (PALETTES : gmap string (list string)) (rand : nat -> Z)
    (im out : image) (options : option user_options)
    (colors device : list string) :
  wf_image im ->
  quantizing (ditheringType (merge_options options)) ->
  palette (merge_options options) = PaletteList colors ->
  Forall (fun s => is_Some (ColorHelpers.hex_to_rgb s)) colors ->
  Forall (fun s => is_Some (ColorHelpers.hex_to_rgb s)) device ->
  (length colors <= length device)%nat ->
  dither_image PALETTES rand (Some im) options = Ok (Some out) ->
  exists final,
    ReplaceColors.replace_colors out colors device =
    Ok {| ReplaceColors.returned := Some final; ReplaceColors.printed := None |} /\
    width final = width im /\ height final = height im /\
    forall k, (k < Z.to_nat (height im * width im))%nat ->
      exists i s d rgb,
        colors !! i = Some s /\
        ColorHelpers.hex_to_rgb s = Some (rgb_at (samples out) k) /\
        (forall j s', (j < i)%nat -> colors !! j = Some s' ->
           ColorHelpers.hex_to_rgb s' <> Some (rgb_at (samples out) k)) /\
        device !! i = Some d /\
        ColorHelpers.hex_to_rgb d = Some rgb /\
        pixel_at (samples final) k = rgb ++ [255].
Proof.
  intros Hwf Hmode Hpal Hcolors Hdevice Hlen Hrun.
  destruct (quantizing_pixels _ _ _ _ _ Hwf Hmode Hrun)
    as (cp & Hcp & Hw & Hh & Hsl & Hall).
  rewrite Hpal in Hcp. unfold set_color_palette in Hcp.
  rewrite bind_Ok_l in Hcp. injection Hcp as <-.
  destruct (replace_parser_agrees_on_lists colors Hcolors) as (original & Ho & Ho2).
  destruct (replace_parser_agrees_on_lists device Hdevice) as (replacement & Hr & Hr2).
  pose proof (Forall2_length _ _ _ Ho2) as Hol.
  pose proof (Forall2_length _ _ _ Hr2) as Hrl.
  set (n := Z.to_nat (height im * width im)) in *.
  assert (Hn : Z.to_nat (height out * width out) = n) by (by rewrite Hw, Hh).
  assert (Hwfo : wf_image out).
  { pose proof Hwf as [Hw0 Hh0 Hlen0 _].
    split; [lia|lia|rewrite Hsl, Hw, Hh; done|].
    apply (samples_of_pixels (samples out) n); [rewrite Hsl; unfold n; nia|].
    intros k Hk. destruct (Hall k Hk) as (r & g & b & _ & ? & ? & ? & Hpx).
    exists r, g, b, 255. done. }
  assert (Hmatch : forall k, (k < n)%nat ->
    exists c idx s d rgb,
      first_match (rgb_at (samples out) k) original 0 = Some (c, idx) /\
      0 <= idx /\
      colors !! Z.to_nat idx = Some s /\
      ColorHelpers.hex_to_rgb s = Some (rgb_at (samples out) k) /\
      (forall j s', (j < Z.to_nat idx)%nat -> colors !! j = Some s' ->
         ColorHelpers.hex_to_rgb s' <> Some (rgb_at (samples out) k)) /\
      device !! Z.to_nat idx = Some d /\
      ColorHelpers.hex_to_rgb d = Some rgb /\
      replacement !! Z.to_nat idx = Some rgb /\
      drop 3 (pixel_at (samples out) k) = [255]).
  { intros k Hk. destruct (Hall k Hk) as (r & g & b & Hin & _ & _ & _ & Hpx).
    assert (Hrgb : rgb_at (samples out) k = [r; g; b])
      by (unfold rgb_at; by rewrite Hpx).
    apply list_elem_of_fmap in Hin as (s0 & Hs0 & Hin0).
    destruct (ColorHelpers.hex_to_rgb s0) as [l0|] eqn:E0; [|done].
    injection Hs0 as Hs0. symmetry in Hs0. apply num_triple in Hs0 as ->.
    apply list_elem_of_lookup_1 in Hin0 as [i0 Hi0].
    destruct (Forall2_lookup_l _ _ _ _ _ Ho2 Hi0) as (rgb0 & Hrgb0 & Heq0).
    rewrite E0 in Heq0. injection Heq0 as <-.
    destruct (first_match_elem [r; g; b] original 0) as [[c idx] Hm];
      [by eapply list_elem_of_lookup_2|].
    pose proof (first_match_index _ _ _ _ _ Hm) as (Hidx & _ & Hlk & Hleast).
    rewrite Z.sub_0_r in Hlk, Hleast.
    destruct (Forall2_lookup_r _ _ _ _ _ Ho2 Hlk) as (s & Hs & Hsp).
    pose proof (lookup_lt_Some _ _ _ Hs) as Hlt.
    destruct (lookup_lt_is_Some_2 device (Z.to_nat idx)) as [d Hd]; [lia|].
    destruct (Forall2_lookup_l _ _ _ _ _ Hr2 Hd) as (rgb & Hrp & Hdp).
    exists c, idx, s, d, rgb. rewrite Hrgb, Hpx.
    repeat (split; [done|]). split; [|done].
    intros j s' Hj Hs' Hp'.
    destruct (Forall2_lookup_l _ _ _ _ _ Ho2 Hs') as (rgb' & Hl' & Hq').
    apply (Hleast j Hj). congruence. }
  destruct (replace_pass_total original replacement (samples out) n)
    as (data & Hpass & Hdl & Hpx).
  { rewrite Hsl. destruct Hwf as [_ _ Hlen0 _]. unfold n. nia. }
  { by eapply parsed_colors_are_triples. }
  { intros k c idx Hk Hm.
    destruct (Hmatch k Hk) as (c' & idx' & s & d & rgb & Hm' & _ & _ & _ & _ & _
                               & Hdp & Hrp & _).
    rewrite Hm in Hm'. injection Hm' as <- <-.
    destruct (hex_to_rgb_range _ _ Hdp) as (r & g & b & -> & ?). eauto. }
  assert (Hu : unmatched (samples out) original n = 0).
  { apply unmatched_zero. intros k Hk.
    destruct (Hmatch k Hk) as (c & idx & _ & _ & _ & -> & _). done. }
  eexists. split.
  { rewrite (replace_colors_of_pass out colors device original replacement data
               Hwfo Ho Hr); rewrite Hn; [|done..].
    by rewrite Hu. }
  cbn [width height samples]. split; [done|]. split; [done|].
  intros k Hk. rewrite (Hpx k Hk). unfold replaced_pixel.
  destruct (Hmatch k Hk) as (c & idx & s & d & rgb & -> & _ & Hs & Hsp & Hleast
                             & Hd & Hdp & -> & ->).
  exists (Z.to_nat idx), s, d, rgb. done.
Qed.

(** Witness for X18: Floyd-Steinberg on black and white, then the colours
    a panel shows for them. *)
Lemma dithered_image_is_fully_replaced_witness :
  let im := {| width := 2; height := 1;
               samples := [10; 20; 30; 128; 200; 220; 250; 0] |} in
  let out := {| width := 2; height := 1;
                samples := [0; 0; 0; 255; 255; 255; 255; 255] |} in
  let colors := ["#000"; "#fff"]%string in
  let device := ["#191e21"; "#e8e8e8"; "#2157ba"]%string in
  exists final,
    ReplaceColors.replace_colors out colors device =
    Ok {| ReplaceColors.returned := Some final; ReplaceColors.printed := None |} /\
    width final = width im /\ height final = height im /\
    forall k, (k < Z.to_nat (height im * width im))%nat ->
      exists i s d rgb,
        colors !! i = Some s /\
        ColorHelpers.hex_to_rgb s = Some (rgb_at (samples out) k) /\
        (forall j s', (j < i)%nat -> colors !! j = Some s' ->
           ColorHelpers.hex_to_rgb s' <> Some (rgb_at (samples out) k)) /\
        device !! i = Some d /\
        ColorHelpers.hex_to_rgb d = Some rgb /\
        pixel_at (samples final) k = rgb ++ [255].
Proof.
  intros im out colors device.
  apply (dithered_image_is_fully_replaced sample_PALETTES (fun _ => 0) im out
           (with_colors colors) colors device).
  - split; simpl; [lia|lia|reflexivity|]. repeat (constructor; [lia|]). constructor.
  - right. right. right. reflexivity.
  - reflexivity.
  - repeat constructor; by eexists.
  - repeat constructor; by eexists.
  - simpl. lia.
  - vm_compute. reflexivity.
Defined.

(** ** When the palette-consulting modes return *)

Lemma palette_split (color_palette : list (option color)) :
  (exists pal, color_palette = Some <$> pal) \/ None ∈ color_palette.
Proof.
  induction color_palette as [|[l|] rest [[pal ->]|IH]].
  - left. by exists [].
  - left. by exists (l :: pal).
  - right. by right.
  - right. by left.
  - right. by left.
Qed.

(** X19. For an image with at least one pixel and a threshold matrix size
    of at least 1x1, a call in one of the four modes that consult the
    palette returns an image exactly when the effective palette is not
    empty and holds no rejected colour; otherwise it raises [TypeError]
    at the first pixel. *)
Theorem quantizing_call_returns_iff_palette_usable
    (PALETTES : gmap string (list string)) (rand : nat -> Z)
    (im : image) (options : option user_options)
    (color_palette : list (option color)) :
  wf_image im -> 0 < width im -> 0 < height im ->
  quantizing (ditheringType (merge_options options)) ->
  set_color_palette PALETTES (palette (merge_options options)) = Ok color_palette ->
  1 <= (orderedDitheringMatrix (merge_options options)).1 ->
  1 <= (orderedDitheringMatrix (merge_options options)).2 ->
  ((exists out, dither_image PALETTES rand (Some im) options = Ok (Some out)) <->
   (color_palette <> [] /\ None ∉ color_palette)) /\
  ((color_palette = [] \/ None ∈ color_palette) ->
   dither_image PALETTES rand (Some im) options = Raise TypeError).
Proof.
  intros Hwf Hw Hh Hmode Hcp Hmw Hmh.
  assert (Hraise : (color_palette = [] \/ None ∈ color_palette) ->
            dither_image PALETTES rand (Some im) options = Raise TypeError).
  { intros Hbad.
    pose proof Hwf as [_ _ Hlen _].
    pose proof (set_color_palette_hex _ _ _ Hcp) as Hpal.
    set (opts := merge_options options) in *.
    destruct (create_bayer_matrix_rectangular (orderedDitheringMatrix opts) Hmw Hmh)
      as (tm & Htm & Hrect).
    set (n := Z.to_nat (height im * width im)).
    assert (Hl : length (num <$> samples im) = (4 * n)%nat).
    { rewrite length_fmap. unfold n. nia. }
    assert (Hn : (0 < n)%nat) by (unfold n; nia).
    destruct (get_pixel_at_total (num <$> samples im) 0) as [Hget Hlen4]; [lia|].
    assert (Hfind : forall p, length p = 4%nat ->
              find_closest_palette_color p color_palette = Raise TypeError).
    { intros p Hp. destruct Hbad as [->|Hnone]; [done|].
      apply find_closest_raises; [lia|done|done]. }
    assert (Hfirst :
      dither_pixel rand opts (width im) (height im) color_palette tm
        (num <$> samples im, 0%nat) (4 * Z.of_nat 0) = Raise TypeError).
    { destruct Hmode as [Hm|[Hm|[Hm|Hm]]].
      - rewrite dither_pixel_quantization by (by left).
        rewrite Hget, bind_Ok_l, Hfind; done.
      - rewrite dither_pixel_quantization by (by right).
        rewrite Hget, bind_Ok_l, Hfind; done.
      - rewrite dither_pixel_ordered by done. rewrite Hget, bind_Ok_l.
        unfold pixel_xy. destruct (width im =? 0) eqn:E; [apply Z.eqb_eq in E; lia|].
        rewrite bind_Ok_l.
        edestruct (ordered_dither_pixel_value_total (pixel_at (num <$> samples im) 0))
          as (np & -> & Hnp); [exact Hrect|].
        rewrite bind_Ok_l, Hfind; [done|lia].
      - rewrite dither_pixel_error_diffusion by done.
        rewrite Hget, bind_Ok_l, Hfind; done. }
    unfold dither_image. fold opts. rewrite Hcp, bind_Ok_l, Htm, bind_Ok_l.
    rewrite Hl, py_range4_pixels.
    destruct n as [|n']; [lia|]. cbn [seq fmap list_fmap for_each].
    by rewrite Hfirst. }
  split; [|exact Hraise]. split.
  - intros [out Hrun]. split.
    + intros ->. rewrite Hraise in Hrun by (by left). discriminate.
    + intros Hnone. rewrite Hraise in Hrun by (by right). discriminate.
  - intros [Hne Hnone]. by eapply dither_image_total.
Qed.

(** Witness for X19: an empty colour list raises. *)
Lemma quantizing_call_returns_iff_palette_usable_witness :
  dither_image sample_PALETTES (fun _ => 0) (Some (one_pixel 10 10 10 255))
    (with_colors []) = Raise TypeError.
Proof.
  refine (proj2 (quantizing_call_returns_iff_palette_usable sample_PALETTES
                   (fun _ => 0) (one_pixel 10 10 10 255) (with_colors []) []
                   _ _ _ _ _ _ _) _).
  - split; simpl; [lia|lia|reflexivity|]. repeat (constructor; [lia|]). constructor.
  - simpl. lia.
  - simpl. lia.
  - right. right. right. reflexivity.
  - reflexivity.
  - simpl. lia.
  - simpl. lia.
  - by left.
Defined.

(** ** Quantisation only, pixel by pixel *)

(** On a palette of integer triples and a pixel of integers the matcher
    returns the first entry at the least squared distance. *)
Lemma find_closest_nearest (color_palette : list (option color))
    (r g b : Z) (rest res : color) :
  hex_palette color_palette ->
  find_closest_palette_color (num r :: num g :: num b :: rest) color_palette = Ok res ->
  exists (i : nat) R G B,
    color_palette !! i = Some (Some [num R; num G; num B]) /\
    res = [num R; num G; num B; num 255] /\
    (0 <= R <= 255 /\ 0 <= G <= 255 /\ 0 <= B <= 255) /\
    forall (j : nat) R' G' B',
      color_palette !! j = Some (Some [num R'; num G'; num B']) ->
      sq_dist_rgb (R, G, B) (r, g, b) <= sq_dist_rgb (R', G', B') (r, g, b) /\
      ((j < i)%nat ->
       sq_dist_rgb (R, G, B) (r, g, b) < sq_dist_rgb (R', G', B') (r, g, b)).
Proof.
  intros Hpal Hfind.
  destruct (palette_split color_palette) as [[pal ->]|Hnone].
  2:{ rewrite find_closest_raises in Hfind; [done|simpl; lia|done|done]. }
  assert (H3 : Forall (fun c : color => (3 <= length c)%nat) pal).
  { apply Forall_forall. intros l Hl.
    destruct (Hpal l) as (r' & g' & b' & -> & _); [|simpl; lia].
    apply list_elem_of_fmap. by exists l. }
  unfold find_closest_palette_color in Hfind.
  rewrite colors_with_distance_of in Hfind by (done || simpl; lia).
  rewrite bind_Ok_l in Hfind.
  destruct pal as [|c0 pal0] eqn:Epal; [done|]. rewrite <- Epal in *.
  destruct (closest_is_first_minimum
              (entry_of (num r :: num g :: num b :: rest) <$> pal))
    as (i & e & Hi & Hfold & Hmin & Hfirst); [by rewrite Epal|].
  rewrite Hfold in Hfind.
  rewrite list_lookup_fmap in Hi.
  destruct (pal !! i) as [winner|] eqn:Hw; [|done]. injection Hi as <-.
  destruct (Hpal winner) as (R & G & B & -> & HR & HG & HB).
  { apply list_elem_of_fmap. exists winner. split; [done|].
    by eapply list_elem_of_lookup_2. }
  cbn [color_of entry_of length] in Hfind. injection Hfind as <-.
  exists i, R, G, B. rewrite list_lookup_fmap, Hw.
  split; [done|]. split; [done|]. split; [done|].
  intros j R' G' B' Hj. rewrite list_lookup_fmap in Hj.
  destruct (pal !! j) as [c|] eqn:Hc; [|done]. injection Hj as ->.
  assert (Hj' : (entry_of (num r :: num g :: num b :: rest) <$> pal) !! j =
                Some (entry_of (num r :: num g :: num b :: rest)
                        [num R'; num G'; num B']))
    by (by rewrite list_lookup_fmap, Hc).
  unfold sq_dist_rgb. split.
  - pose proof (Hmin j _ Hj') as Hle. cbn [radicand distance entry_of] in Hle.
    rewrite !sq_distance_integers in Hle. by rewrite Zle_Qle.
  - intros Hlt. pose proof (Hfirst j _ Hlt Hj') as Hl.
    cbn [radicand distance entry_of] in Hl.
    rewrite !sq_distance_integers in Hl. by rewrite Zlt_Qlt.
Qed.

(** X20. Quantisation only (dithering type empty or "quantizationOnly"):
    every pixel of the returned image is, opaque, the palette colour at
    the least squared RGB distance from the same pixel of the input, the
    first such colour in palette order; no other pixel has a say. *)
Theorem quantization_only_picks_nearest
    (PALETTES : gmap string (list string)) (rand : nat -> Z)
    (im out : image) (options : option user_options)
    (color_palette : list (option color)) :
  wf_image im ->
  (ditheringType (merge_options options) = ""%string \/
   ditheringType (merge_options options) = "quantizationOnly"%string) ->
  set_color_palette PALETTES (palette (merge_options options)) = Ok color_palette ->
  dither_image PALETTES rand (Some im) options = Ok (Some out) ->
  forall k r g b a, pixel_at (samples im) k = [r; g; b; a] ->
    exists (i : nat) R G B,
      color_palette !! i = Some (Some [num R; num G; num B]) /\
      pixel_at (samples out) k = [R; G; B; 255] /\
      forall (j : nat) R' G' B',
        color_palette !! j = Some (Some [num R'; num G'; num B']) ->
        sq_dist_rgb (R, G, B) (r, g, b) <= sq_dist_rgb (R', G', B') (r, g, b) /\
        ((j < i)%nat ->
         sq_dist_rgb (R, G, B) (r, g, b) < sq_dist_rgb (R', G', B') (r, g, b)).
Proof.
  intros Hwf Hmode Hcp Hrun k r g b a Hk.
  destruct (dither_image_Ok _ _ _ _ _ Hwf Hrun)
    as (cp & tm & final & Hcp' & Htm & Hl & Hloop & ->).
  rewrite Hcp in Hcp'. injection Hcp' as <-.
  pose proof (set_color_palette_hex _ _ _ Hcp) as Hpal.
  destruct (pixel_at_in_image im k r g b a Hwf Hk) as (Hkn & _).
  destruct (pointwise_pass (fun _ old => find_closest_palette_color old color_palette)
              _ _ _ _ final Hl
              (fun k data drawn _ =>
                 dither_pixel_quantization rand _ _ _ color_palette tm data drawn _
                   Hmode) Hloop) as [_ Hall].
  destruct (Hall k Hkn) as (v0 & v1 & v2 & v3 & rest & HG & Hpx).
  rewrite pixel_at_fmap, Hk in HG. cbn [fmap list_fmap] in HG.
  destruct (find_closest_nearest _ _ _ _ _ _ Hpal HG)
    as (i & R & G & B & Hi & Heq & (HR & HGr & HB) & Hmin).
  injection Heq as -> -> -> -> ->.
  rewrite !clamp_uint8_num in Hpx by lia.
  exists i, R, G, B. split; [done|]. split; [|done].
  cbn [samples]. by apply pixel_at_out.
Qed.

(** Witness for X20: the dark first pixel of a 2x1 image on black and
    white. *)
Lemma quantization_only_picks_nearest_witness :
  let out := {| width := 2; height := 1;
                samples := [0; 0; 0; 255; 255; 255; 255; 255] |} in
  let color_palette :=
    [Some [num 0; num 0; num 0]; Some [num 255; num 255; num 255]] in
  exists (i : nat) R G B,
    color_palette !! i = Some (Some [num R; num G; num B]) /\
    pixel_at (samples out) 0 = [R; G; B; 255] /\
    forall (j : nat) R' G' B',
      color_palette !! j = Some (Some [num R'; num G'; num B']) ->
      sq_dist_rgb (R, G, B) (10, 20, 30) <= sq_dist_rgb (R', G', B') (10, 20, 30) /\
      ((j < i)%nat ->
       sq_dist_rgb (R, G, B) (10, 20, 30) < sq_dist_rgb (R', G', B') (10, 20, 30)).
Proof.
  intros out color_palette.
  refine (quantization_only_picks_nearest sample_PALETTES (fun _ => 0)
            {| width := 2; height := 1;
               samples := [10; 20; 30; 128; 200; 220; 250; 0] |} out
            (with_type_and_colors "quantizationOnly" ["#000"; "#fff"]%string)
            color_palette _ _ _ _ 0%nat 10 20 30 128 _).
  - split; simpl; [lia|lia|reflexivity|]. repeat (constructor; [lia|]). constructor.
  - right. reflexivity.
  - reflexivity.
  - vm_compute. reflexivity.
  - reflexivity.
Defined.

(** ** Lookups by name *)

Lemma lower_char_idemp (c : ascii) :
  Init.lower_char (Init.lower_char c) = Init.lower_char c.
Proof. by destruct c as [[] [] [] [] [] [] [] []]. Qed.

Lemma str_lower_idemp (s : string) :
  Init.str_lower (Init.str_lower s) = Init.str_lower s.
Proof.
  induction s as [|c s IH]; [done|].
  cbn [Init.str_lower]. by rewrite lower_char_idemp, IH.
Qed.

(** X21. The two lookups of the package fold the case of the name: a name
    and its lower-case form give the same list, from the palette table and
    from the device-colour table alike; a name whose lower-case form is
    not in the table gives the list registered as "default"; and a table
    without a "default" entry answers every name with [KeyError], a
    registered one included. *)
Theorem lookups_fold_case (table : gmap string (list string)) (name : string) :
  Init.get_default_palettes table (Init.str_lower name)
    = Init.get_default_palettes table name /\
  Init.get_device_colors table (Init.str_lower name)
    = Init.get_device_colors table name /\
  (table !! Init.str_lower name = None ->
   Init.get_default_palettes table name
     = Init.get_default_palettes table "default" /\
   Init.get_device_colors table name = Init.get_device_colors table "default") /\
  (table !! "default"%string = None ->
   Init.get_default_palettes table name = Raise KeyError /\
   Init.get_device_colors table name = Raise KeyError).
Proof.
  unfold Init.get_default_palettes, Init.get_device_colors.
  rewrite str_lower_idemp. split; [done|]. split; [done|]. split.
  - intros Hnone. rewrite Hnone.
    change (Init.str_lower "default") with "default"%string.
    by destruct (table !! "default"%string).
  - by intros ->.
Qed.

(** X22. Passing the list [get_default_palettes] returns for a name is the
    same as passing the lower-case form of the name: the two calls of
    [dither_image] give the same result, image or exception, whatever the
    other options. *)
Theorem named_palette_is_its_color_list
    (PALETTES : gmap string (list string)) (rand : nat -> Z)
    (source_image : option image) (u : user_options)
    (name : string) (colors : list string) :
  Init.get_default_palettes PALETTES name = Ok colors ->
  dither_image PALETTES rand source_image
    (Some (with_palette u (PaletteList colors))) =
  dither_image PALETTES rand source_image
    (Some (with_palette u (PaletteName (Init.str_lower name)))).
Proof.
  unfold Init.get_default_palettes. intros Hget.
  destruct source_image as [im|]; [|done].
  unfold dither_image.
  assert (Hcp :
    set_color_palette PALETTES
      (palette (merge_options (Some (with_palette u (PaletteList colors))))) =
    set_color_palette PALETTES
      (palette (merge_options
                  (Some (with_palette u (PaletteName (Init.str_lower name))))))).
  { cbn [merge_options with_palette palette u_palette default].
    unfold set_color_palette.
    destruct (PALETTES !! "default"%string) as [fallback|]; [|done].
    by injection Hget as <-. }
  rewrite Hcp. done.
Qed.

(** Witness for X22: "GameBoy" and the list registered as "gameboy". *)
Lemma named_palette_is_its_color_list_witness :
  let u := {| u_ditheringType := Some "ordered"%string;
              u_errorDiffusionMatrix := None;
              u_orderedDitheringMatrix := None;
              u_randomDitheringType := None;
              u_palette := None |} in
  dither_image sample_PALETTES (fun _ => 0) (Some (one_pixel 48 98 48 255))
    (Some (with_palette u
             (PaletteList ["#0f380f"; "#306230"; "#8bac0f"; "#9bbc0f"]%string))) =
  dither_image sample_PALETTES (fun _ => 0) (Some (one_pixel 48 98 48 255))
    (Some (with_palette u (PaletteName (Init.str_lower "GameBoy")))).
Proof.
  intros u.
  apply (named_palette_is_its_color_list sample_PALETTES (fun _ => 0)
           (Some (one_pixel 48 98 48 255)) u "GameBoy"
           ["#0f380f"; "#306230"; "#8bac0f"; "#9bbc0f"]%string).
  reflexivity.
Defined.

(** ** Pixel access, there and back *)

(** X23. A pixel stored with [set_pixel] at a non-negative index is read
    back by [get_pixel_color_values] as its four samples clamped to
    0..255; the array keeps its length and every sample outside the four
    written is as it was. *)
Theorem set_pixel_then_get (data data' : list Q) (i : Z) (pixel : color) :
  0 <= i ->
  set_pixel data i pixel = Ok data' ->
  length data' = length data /\
  (exists v0 v1 v2 v3 rest,
     pixel = v0 :: v1 :: v2 :: v3 :: rest /\
     get_pixel_color_values i data' =
       Ok [clamp_uint8 v0; clamp_uint8 v1; clamp_uint8 v2; clamp_uint8 v3]) /\
  (forall v, get_pixel_color_values i data' = Ok v ->
     Forall (fun c => (0 <= c <= 255)%Q) v) /\
  (forall j : nat, (j < Z.to_nat i \/ Z.to_nat i + 4 <= j)%nat ->
     data' !! j = data !! j).
Proof.
  intros Hi Hset.
  apply set_pixel_Ok in Hset as (v0 & v1 & v2 & v3 & rest & -> & Hfit & ->); [|done].
  destruct (write4_lookup data (Z.to_nat i) (clamp_uint8 v0) (clamp_uint8 v1)
              (clamp_uint8 v2) (clamp_uint8 v3)) as (H0 & H1 & H2 & H3); [lia|].
  pose proof (get_pixel_in_range _ i _ _ _ _ Hi H0 H1 H2 H3) as Hget.
  split; [apply write4_length|]. split; [by exists v0, v1, v2, v3, rest|]. split.
  - intros v Hv. rewrite Hget in Hv. injection Hv as <-.
    repeat (constructor; [apply clamp_uint8_range|]). constructor.
  - intros j Hj. by apply write4_lookup_other.
Qed.

(** Witness for X23: an out-of-range pixel stored into the second slot. *)
Lemma set_pixel_then_get_witness :
  let data := num <$> [1; 2; 3; 4; 5; 6; 7; 8] in
  let data' := [num 1; num 2; num 3; num 4; num 0; num 100; num 255; num 255] in
  length data' = length data /\
  (exists v0 v1 v2 v3 rest,
     [num (-20); num 100; num 300; num 255] = v0 :: v1 :: v2 :: v3 :: rest /\
     get_pixel_color_values 4 data' =
       Ok [clamp_uint8 v0; clamp_uint8 v1; clamp_uint8 v2; clamp_uint8 v3]) /\
  (forall v, get_pixel_color_values 4 data' = Ok v ->
     Forall (fun c => (0 <= c <= 255)%Q) v) /\
  (forall j : nat, (j < Z.to_nat 4 \/ Z.to_nat 4 + 4 <= j)%nat ->
     data' !! j = data !! j).
Proof.
  intros data data'.
  apply (set_pixel_then_get data data' 4 [num (-20); num 100; num 300; num 255]).
  - lia.
  - reflexivity.
Defined.

(** X24. [pixel_xy] and the row-major numbering are inverse to each other
    on an image of positive width: the coordinates of pixel number [index]
    lie inside the row, and numbering them gives [index] back; the
    coordinates of a numbered position are that position.  A width of zero
    raises [ZeroDivisionError]. *)
Theorem pixel_xy_round_trip (index width : Z) :
  (width = 0 -> pixel_xy index width = Raise ZeroDivisionError) /\
  (0 < width ->
   exists x y, pixel_xy index width = Ok (x, y) /\
               0 <= x < width /\ (0 <= index -> 0 <= y) /\
               raster_index width (x, y) = index) /\
  (forall x y, 0 <= x < width ->
     pixel_xy (raster_index width (x, y)) width = Ok (x, y)).
Proof.
  unfold pixel_xy, raster_index. cbn [fst snd]. split; [by intros ->|]. split.
  - intros Hw. destruct (width =? 0) eqn:E; [apply Z.eqb_eq in E; lia|].
    exists (index mod width), (index / width). split; [done|].
    split; [by apply Z.mod_pos_bound|]. split.
    + intros Hi. by apply Z.div_pos.
    + pose proof (Z.div_mod index width ltac:(lia)). lia.
  - intros x y Hx. destruct (width =? 0) eqn:E; [apply Z.eqb_eq in E; lia|].
    rewrite Z.add_comm, Z.mod_add, Z.div_add by lia.
    rewrite Z.mod_small, Z.div_small by lia. done.
Qed.

(** ** Error diffusion on an image that is already dithered *)

Lemma sq_distance_Qeq (c : color) (q0 q1 q2 p0 p1 p2 : Q) (rest rest' : list Q) :
  (q0 == p0)%Q -> (q1 == p1)%Q -> (q2 == p2)%Q ->
  (sq_distance c (q0 :: q1 :: q2 :: rest) ==
   sq_distance c (p0 :: p1 :: p2 :: rest'))%Q.
Proof.
  intros H0 H1 H2. unfold sq_distance. cbn [nth]. by rewrite H0, H1, H2.
Qed.

(** A pixel whose RGB has the value of a palette entry is matched to that
    entry, whatever rational represents the value. *)
Lemma exact_match_value (color_palette : list (option color))
    (r g b : Z) (q0 q1 q2 : Q) (rest : list Q) :
  hex_palette color_palette -> None ∉ color_palette ->
  Some [num r; num g; num b] ∈ color_palette ->
  (q0 == num r)%Q -> (q1 == num g)%Q -> (q2 == num b)%Q ->
  find_closest_palette_color (q0 :: q1 :: q2 :: rest) color_palette
  = Ok [num r; num g; num b; num 255].
Proof.
  intros Hpal Hnone Hin H0 H1 H2.
  set (pixel := q0 :: q1 :: q2 :: rest).
  destruct (find_closest_total pixel color_palette) as [res Hres];
    [simpl; lia|done| |done|].
  { intros ->. by apply elem_of_nil in Hin. }
  rewrite Hres. f_equal.
  pose proof Hres as Hfind. unfold find_closest_palette_color in Hfind.
  apply bind_Ok in Hfind as (entries & Hcomp & Hfind).
  apply list_comp_Ok in Hcomp.
  destruct (decide (entries = [])) as [->|Hne]; [done|].
  destruct (closest_is_first_minimum entries Hne) as (i & e & Hi & Hfold & Hmin & _).
  rewrite Hfold in Hfind.
  apply list_elem_of_lookup in Hin as (j & Hj).
  destruct (Forall2_lookup_l _ _ _ _ _ Hcomp Hj) as (ej & Hej & Hfj).
  rewrite distance_of_rgb in Hfj by (simpl; lia). rewrite !bind_Ok_l in Hfj.
  injection Hfj as <-.
  specialize (Hmin j _ Hej). cbn [distance radicand] in Hmin.
  destruct (Forall2_lookup_r _ _ _ _ _ Hcomp Hi) as (c & Hc & Hfc).
  destruct c as [l|]; [|done].
  destruct (Hpal l) as (r' & g' & b' & -> & _); [by eapply list_elem_of_lookup_2|].
  rewrite distance_of_rgb in Hfc by (simpl; lia). rewrite !bind_Ok_l in Hfc.
  injection Hfc as <-. cbn [distance radicand color_of] in *.
  unfold pixel in Hmin.
  rewrite !(sq_distance_Qeq _ q0 q1 q2 (num r) (num g) (num b) rest rest) in Hmin
    by done.
  rewrite !sq_distance_integers in Hmin.
  rewrite <- Zle_Qle in Hmin.
  rewrite !Z.sub_diag in Hmin.
  pose proof (Z.square_nonneg (r' - r)). pose proof (Z.square_nonneg (g' - g)).
  pose proof (Z.square_nonneg (b' - b)).
  assert (r' = r /\ g' = g /\ b' = b) as (-> & -> & ->) by nia.
  simpl in Hfind. by injection Hfind as <-.
Qed.

Lemma clamp_uint8_value (q : Q) (z : Z) :
  (q == num z)%Q -> 0 <= z <= 255 -> clamp_uint8 q = q.
Proof.
  intros Hq Hz. unfold clamp_uint8.
  assert (E0 : Qltb q (num 0) = false).
  { apply Qltb_ge. rewrite Hq. unfold num. rewrite <- Zle_Qle. lia. }
  assert (E1 : Qltb (num 255) q = false).
  { apply Qltb_ge. rewrite Hq. unfold num. rewrite <- Zle_Qle. lia. }
  by rewrite E0, E1.
Qed.

Lemma to_uint8_value (q : Q) (z : Z) :
  (q == num z)%Q -> 0 <= z <= 255 -> to_uint8 q = z.
Proof.
  intros Hq Hz. unfold to_uint8.
  assert (E0 : Qltb q (num 0) = false).
  { apply Qltb_ge. rewrite Hq. unfold num. rewrite <- Zle_Qle. lia. }
  assert (E1 : Qltb (num 255) q = false).
  { apply Qltb_ge. rewrite Hq. unfold num. rewrite <- Zle_Qle. lia. }
  rewrite E0, E1, Hq. apply Qfloor_Z.
Qed.

Lemma approx_num (samples : list Z) : approx (num <$> samples) samples.
Proof. induction samples; constructor; [reflexivity|done]. Qed.

Lemma approx_lookup (data : list Q) (samples : list Z) (i : nat) (q : Q) :
  approx data samples -> data !! i = Some q ->
  exists z, samples !! i = Some z /\ (q == num z)%Q.
Proof. intros Ha Hq. apply (Forall2_lookup_l _ _ _ _ _ Ha Hq). Qed.

Lemma approx_insert (data : list Q) (samples : list Z) (i : nat) (q : Q) (z : Z) :
  approx data samples -> samples !! i = Some z -> (q == num z)%Q ->
  approx (<[i := q]> data) samples.
Proof.
  intros Ha Hz Hq. rewrite <- (list_insert_id samples i z Hz).
  by apply Forall2_insert.
Qed.

Lemma approx_write4 (data : list Q) (samples : list Z) (n : nat)
    (a b c d : Q) (za zb zc zd : Z) :
  approx data samples ->
  samples !! n = Some za -> samples !! (n + 1)%nat = Some zb ->
  samples !! (n + 2)%nat = Some zc -> samples !! (n + 3)%nat = Some zd ->
  (a == num za)%Q -> (b == num zb)%Q -> (c == num zc)%Q -> (d == num zd)%Q ->
  approx (write4 data n a b c d) samples.
Proof.
  intros Ha H0 H1 H2 H3 Q0 Q1 Q2 Q3. unfold write4.
  repeat (eapply approx_insert; [|done|done]). done.
Qed.

Lemma approx_to_uint8 (data : list Q) (samples : list Z) :
  approx data samples -> Forall (fun v => 0 <= v <= 255) samples ->
  to_uint8 <$> data = samples.
Proof.
  induction 1 as [|q z data samples Hq _ IH]; [done|].
  intros Hr. apply Forall_cons in Hr as [Hz Hr].
  cbn [fmap list_fmap]. by rewrite (to_uint8_value q z), IH.
Qed.

(** Deposits of an error of value zero change no value of the array. *)
Lemma diffuse_zero_error (width height current_pixel : Z) (e0 e1 e2 e3 : Q)
    (kernel : list diffusion) (samples : list Z) :
  0 < width ->
  Forall (fun v => 0 <= v <= 255) samples ->
  (e0 == 0)%Q -> (e1 == 0)%Q -> (e2 == 0)%Q -> (e3 == 0)%Q ->
  forall data, Z.of_nat (length data) = height * width * 4 ->
  approx data samples ->
  exists data',
    for_each (diffuse width height current_pixel [e0; e1; e2; e3]) kernel data
      = Ok data' /\
    length data' = length data /\ approx data' samples.
Proof.
  intros Hw Hr E0 E1 E2 E3. rewrite Forall_lookup in Hr.
  induction kernel as [|d kernel IH]; intros data Hlen Ha.
  - exists data. done.
  - cbn [for_each].
    destruct (outside width height (target_xy width current_pixel d)) eqn:Hout.
    + rewrite diffuse_outside by done. rewrite bind_Ok_l. by apply IH.
    + destruct (diffuse_inside width height current_pixel e0 e1 e2 e3 data d
                  Hw Hlen Hout) as (a & b & c & t & Ha0 & Ha1 & Ha2 & Ha3 & ->).
      rewrite bind_Ok_l.
      destruct (approx_lookup _ _ _ _ Ha Ha0) as (za & Hza & Qa).
      destruct (approx_lookup _ _ _ _ Ha Ha1) as (zb & Hzb & Qb).
      destruct (approx_lookup _ _ _ _ Ha Ha2) as (zc & Hzc & Qc).
      destruct (approx_lookup _ _ _ _ Ha Ha3) as (zt & Hzt & Qt).
      assert (Va : (a + e0 * factor d == num za)%Q) by (rewrite E0, Qa; ring).
      assert (Vb : (b + e1 * factor d == num zb)%Q) by (rewrite E1, Qb; ring).
      assert (Vc : (c + e2 * factor d == num zc)%Q) by (rewrite E2, Qc; ring).
      assert (Vt : (t + e3 * factor d == num zt)%Q) by (rewrite E3, Qt; ring).
      rewrite (clamp_uint8_value _ za Va), (clamp_uint8_value _ zb Vb),
        (clamp_uint8_value _ zc Vc), (clamp_uint8_value _ zt Vt) by eauto.
      destruct (IH (write4 data
                      (Z.to_nat (raster_index width
                                   (target_xy width current_pixel d) * 4))
                      (a + e0 * factor d) (b + e1 * factor d)
                      (c + e2 * factor d) (t + e3 * factor d))%Q)
        as (data' & Hrun & Hl & Ha').
      * by rewrite write4_length.
      * eapply approx_write4; done.
      * exists data'. split; [done|]. split; [|done].
        by rewrite Hl, write4_length.
Qed.

(** An image whose pixels are opaque palette colours goes through the
    error-diffusion pass unchanged: every quantisation error is zero. *)
Lemma error_diffusion_fixed_point
    (PALETTES : gmap string (list string)) (rand : nat -> Z)
    (im : image) (options : option user_options)
    (color_palette : list (option color)) :
  wf_image im ->
  ditheringType (merge_options options) = "errorDiffusion"%string ->
  set_color_palette PALETTES (palette (merge_options options)) = Ok color_palette ->
  ((0 < Z.to_nat (height im * width im))%nat -> None ∉ color_palette) ->
  (forall k, (k < Z.to_nat (height im * width im))%nat ->
     exists r g b, Some [num r; num g; num b] ∈ color_palette /\
                   pixel_at (samples im) k = [r; g; b; 255]) ->
  dither_image PALETTES rand (Some im) options = Ok (Some im).
Proof.
  intros Hwf Hmode Hcp Hnone Hpx.
  pose proof Hwf as [Hw Hh Hlen Hu8].
  pose proof (set_color_palette_hex _ _ _ Hcp) as Hpal.
  set (n := Z.to_nat (height im * width im)) in *.
  assert (Hl : length (num <$> samples im) = (4 * n)%nat).
  { rewrite length_fmap. unfold n. nia. }
  destruct (dither_image_of_pass PALETTES rand im options color_palette
    (fun final => approx final (samples im)) Hwf Hcp) as (final & Hrun & _ & Ha).
  2:{ rewrite Hrun, (approx_to_uint8 final (samples im)) by done. by destruct im. }
  intros tm. fold n.
  destruct (for_each_total
              (fun _ st => length st.1 = (4 * n)%nat /\ approx st.1 (samples im))
              (dither_pixel rand (merge_options options) (width im) (height im)
                 color_palette tm)
              (fun k => 4 * Z.of_nat k) n) with (st0 := (num <$> samples im, 0%nat))
    as (final & Hrun & Hfl & Hfa).
  - intros k [data drawn] Hk [Hdl Ha]. cbn [fst snd] in *.
    rewrite dither_pixel_error_diffusion by done.
    destruct (get_pixel_at_total data k) as [-> Hlen4]; [lia|].
    rewrite bind_Ok_l.
    destruct (pixel_at data k) as [|q0 [|q1 [|q2 [|q3 [|]]]]] eqn:E; try done.
    apply pixel_at_Some in E as (D0 & D1 & D2 & D3).
    destruct (Hpx k Hk) as (r & g & b & Hin & Hp).
    apply pixel_at_Some in Hp as (S0 & S1 & S2 & S3).
    destruct (approx_lookup _ _ _ _ Ha D0) as (z0 & Z0 & Q0).
    destruct (approx_lookup _ _ _ _ Ha D1) as (z1 & Z1 & Q1).
    destruct (approx_lookup _ _ _ _ Ha D2) as (z2 & Z2 & Q2).
    destruct (approx_lookup _ _ _ _ Ha D3) as (z3 & Z3 & Q3).
    assert (z0 = r) as -> by congruence. assert (z1 = g) as -> by congruence.
    assert (z2 = b) as -> by congruence. assert (z3 = 255) as -> by congruence.
    rewrite (exact_match_value color_palette r g b q0 q1 q2 [q3])
      by (done || apply Hnone; lia).
    rewrite bind_Ok_l, set_pixel_in_range by lia. rewrite bind_Ok_l.
    replace (Z.to_nat (4 * Z.of_nat k)) with (4 * k)%nat by lia.
    rewrite Forall_lookup in Hu8.
    rewrite !clamp_uint8_num by eauto.
    rewrite get_quant_error_4, bind_Ok_l.
    edestruct (diffuse_zero_error (width im) (height im) (4 * Z.of_nat k)
                 (q0 - num r) (q1 - num g) (q2 - num b) (q3 - num 255)
                 (get_diffusion_map (errorDiffusionMatrix (merge_options options)))
                 (samples im))
      as (data2 & -> & Hl2 & Ha2).
    + unfold n in Hk. nia.
    + by apply Forall_lookup.
    + rewrite Q0. ring.
    + rewrite Q1. ring.
    + rewrite Q2. ring.
    + rewrite Q3. ring.
    + rewrite write4_length, Hdl. unfold n. nia.
    + eapply approx_write4; done.
    + rewrite bind_Ok_l. eexists. split; [done|]. cbn [fst snd].
      split; [|done]. by rewrite Hl2, write4_length.
  - split; [done|]. apply approx_num.
  - exists final. done.
Qed.

(** X25. Error diffusion is idempotent: dithering the image an
    error-diffusion call returned, with the same options, returns that
    image again (every pixel is already a palette colour, so no error is
    left to hand on). *)
Theorem error_diffusion_is_idempotent
    (PALETTES : gmap string (list string)) (rand : nat -> Z)
    (im out : image) (options : option user_options) :
  wf_image im ->
  ditheringType (merge_options options) = "errorDiffusion"%string ->
  dither_image PALETTES rand (Some im) options = Ok (Some out) ->
  dither_image PALETTES rand (Some out) options = Ok (Some out).
Proof.
  intros Hwf Hmode Hrun.
  assert (Hq : quantizing (ditheringType (merge_options options)))
    by (right; right; by right).
  destruct (quantizing_pixels _ _ _ _ _ Hwf Hq Hrun)
    as (cp & Hcp & Hw & Hh & Hsl & Hall).
  pose proof (set_color_palette_hex _ _ _ Hcp) as Hpal.
  set (n := Z.to_nat (height im * width im)) in *.
  assert (Hn : Z.to_nat (height out * width out) = n) by (by rewrite Hw, Hh).
  assert (Hwfo : wf_image out).
  { pose proof Hwf as [Hw0 Hh0 Hlen0 _].
    split; [lia|lia|rewrite Hsl, Hw, Hh; done|].
    apply (samples_of_pixels (samples out) n); [rewrite Hsl; unfold n; nia|].
    intros k Hk. destruct (Hall k Hk) as (r & g & b & _ & ? & ? & ? & Hpx).
    exists r, g, b, 255. done. }
  apply (error_diffusion_fixed_point PALETTES rand out options cp Hwfo Hmode Hcp).
  - rewrite Hn. intros Hpos Hnone.
    destruct (dither_image_Ok _ _ _ _ _ Hwf Hrun)
      as (cp' & tm & final & Hcp' & _ & Hl & Hloop & _).
    rewrite Hcp in Hcp'. injection Hcp' as <-. fold n in Hloop.
    destruct n as [|n']; [lia|]. cbn [seq fmap list_fmap for_each] in Hloop.
    apply bind_Ok in Hloop as (st1 & Hbody & _).
    rewrite dither_pixel_error_diffusion in Hbody by done.
    apply bind_Ok in Hbody as (old & Hold & Hbody).
    apply bind_Ok in Hbody as (new & Hnew & _).
    apply get_pixel_Ok in Hold as (a & b & c & o & -> & _); [|lia].
    rewrite find_closest_raises in Hnew; [done|simpl; lia|done|done].
  - rewrite Hn. intros k Hk.
    destruct (Hall k Hk) as (r & g & b & Hin & _ & _ & _ & Hpx). eauto.
Qed.

(** Witness for X25: Floyd-Steinberg on a 3x2 grey image, twice. *)
Lemma error_diffusion_is_idempotent_witness :
  let out := {| width := 3; height := 2;
                samples := [0; 0; 0; 255; 255; 255; 255; 255; 0; 0; 0; 255;
                            0; 0; 0; 255; 255; 255; 255; 255;
                            255; 255; 255; 255] |} in
  dither_image sample_PALETTES (fun _ => 0) (Some out) None = Ok (Some out).
Proof.
  intros out.
  apply (error_diffusion_is_idempotent sample_PALETTES (fun _ => 0)
           {| width := 3; height := 2;
              samples := [100; 100; 100; 255; 128; 128; 128; 255;
                          140; 140; 140; 255; 90; 100; 100; 255;
                          128; 128; 128; 255; 130; 140; 140; 255] |} out None).
  - split; simpl; [lia|lia|reflexivity|]. repeat (constructor; [lia|]). constructor.
  - reflexivity.
  - vm_compute. reflexivity.
Defined.

(** ** Ordered dithering with a degenerate matrix size *)

Lemma create_bayer_matrix_no_rows_table :
  forallb (fun w =>
    match create_bayer_matrix (w, 0) with
    | Ok [] => true
    | _ => false
    end) (py_range 9) = true.
Proof. vm_compute. reflexivity. Qed.

Lemma create_bayer_matrix_empty_rows_table :
  forallb (fun h =>
    match create_bayer_matrix (0, h) with
    | Ok ([] :: _) => true
    | _ => false
    end) (Z.succ <$> py_range 8) = true.
Proof. vm_compute. reflexivity. Qed.

Lemma create_bayer_matrix_no_rows (size : Z * Z) :
  size.2 <= 0 -> create_bayer_matrix size = Ok [].
Proof.
  intros Hh. rewrite create_bayer_matrix_clamped.
  replace (Z.max 0 (Z.min size.2 8)) with 0 by lia.
  set (w := Z.max 0 (Z.min size.1 8)).
  pose proof create_bayer_matrix_no_rows_table as T.
  rewrite forallb_forall in T.
  specialize (T w ltac:(apply list_elem_of_In, elem_of_py_range; lia)).
  by destruct (create_bayer_matrix (w, 0)) as [[|]|].
Qed.

Lemma create_bayer_matrix_empty_rows (size : Z * Z) :
  size.1 <= 0 -> 1 <= size.2 ->
  exists rows, create_bayer_matrix size = Ok ([] :: rows).
Proof.
  intros Hw Hh. rewrite create_bayer_matrix_clamped.
  replace (Z.max 0 (Z.min size.1 8)) with 0 by lia.
  set (h := Z.max 0 (Z.min size.2 8)).
  pose proof create_bayer_matrix_empty_rows_table as T.
  rewrite forallb_forall in T.
  assert (Hin : In h (Z.succ <$> py_range 8)).
  { apply list_elem_of_In, list_elem_of_fmap. exists (h - 1).
    split; [lia|]. apply elem_of_py_range. lia. }
  specialize (T h Hin).
  destruct (create_bayer_matrix (0, h)) as [[|[|] rows]|]; try done.
  by exists rows.
Qed.

(** X26. Ordered dithering of an image with at least one pixel, with a
    threshold matrix size that is not positive: a height of zero or less
    gives a matrix without rows and the call raises [IndexError]; a
    positive height with a width of zero or less gives rows without cells
    and the call raises [ZeroDivisionError].  Either way it raises at the
    first pixel, before the palette is consulted. *)
Theorem ordered_with_degenerate_matrix_raises
    (PALETTES : gmap string (list string)) (rand : nat -> Z)
    (im : image) (options : option user_options)
    (color_palette : list (option color)) :
  wf_image im -> 0 < width im -> 0 < height im ->
  ditheringType (merge_options options) = "ordered"%string ->
  set_color_palette PALETTES (palette (merge_options options)) = Ok color_palette ->
  ((orderedDitheringMatrix (merge_options options)).2 <= 0 ->
   dither_image PALETTES rand (Some im) options = Raise IndexError) /\
  (1 <= (orderedDitheringMatrix (merge_options options)).2 ->
   (orderedDitheringMatrix (merge_options options)).1 <= 0 ->
   dither_image PALETTES rand (Some im) options = Raise ZeroDivisionError).
Proof.
  intros Hwf Hw Hh Hmode Hcp.
  pose proof Hwf as [_ _ Hlen _].
  set (opts := merge_options options) in *.
  set (n := Z.to_nat (height im * width im)).
  assert (Hl : length (num <$> samples im) = (4 * n)%nat).
  { rewrite length_fmap. unfold n. nia. }
  assert (Hn : (0 < n)%nat) by (unfold n; nia).
  destruct (get_pixel_at_total (num <$> samples im) 0) as [Hget Hlen4]; [lia|].
  assert (Hcall : forall tm e,
    create_bayer_matrix (orderedDitheringMatrix opts) = Ok tm ->
    (forall pixel xy, ordered_dither_pixel_value pixel xy tm (num 256 / num 4)%Q
                      = Raise e) ->
    dither_image PALETTES rand (Some im) options = Raise e).
  { intros tm e Htm Hraise.
    unfold dither_image. fold opts. rewrite Hcp, bind_Ok_l, Htm, bind_Ok_l.
    rewrite Hl, py_range4_pixels.
    destruct n as [|n']; [lia|]. cbn [seq fmap list_fmap for_each].
    rewrite dither_pixel_ordered by done. rewrite Hget, bind_Ok_l.
    unfold pixel_xy. destruct (width im =? 0) eqn:E; [apply Z.eqb_eq in E; lia|].
    by rewrite bind_Ok_l, Hraise. }
  split.
  - intros Hsize. apply (Hcall []); [by apply create_bayer_matrix_no_rows|done].
  - intros Hrows Hcols.
    destruct (create_bayer_matrix_empty_rows (orderedDitheringMatrix opts))
      as [rows Htm]; [done..|].
    apply (Hcall ([] :: rows)); [done|].
    intros pixel [x y]. unfold ordered_dither_pixel_value. cbn [fst snd].
    change (py_index ([] :: rows) 0) with (Ok (@nil Z) : result (list Z)).
    rewrite bind_Ok_l.
    set (mh := Z.of_nat (length (@nil Z :: rows))).
    assert (Hmh : 0 < mh) by (unfold mh; simpl; lia).
    destruct (mh =? 0) eqn:E; [apply Z.eqb_eq in E; lia|].
    pose proof (Z.mod_pos_bound y mh Hmh) as Hy.
    destruct (lookup_lt_is_Some_2 ([] :: rows) (Z.to_nat (y mod mh))) as [row Hrow];
      [fold mh; unfold mh in *; lia|].
    rewrite (py_index_in_range _ _ row) by (lia || done).
    by rewrite bind_Ok_l.
Qed.

(** Witness for X26: a matrix size of 4x0. *)
Lemma ordered_with_degenerate_matrix_raises_witness :
  dither_image sample_PALETTES (fun _ => 0) (Some (one_pixel 10 10 10 255))
    (Some {| u_ditheringType := Some "ordered"%string;
             u_errorDiffusionMatrix := None;
             u_orderedDitheringMatrix := Some (4, 0);
             u_randomDitheringType := None;
             u_palette := None |}) = Raise IndexError.
Proof.
  refine (proj1 (ordered_with_degenerate_matrix_raises sample_PALETTES
                   (fun _ => 0) (one_pixel 10 10 10 255) _ _ _ _ _ _ _) _).
  - split; simpl; [lia|lia|reflexivity|]. repeat (constructor; [lia|]). constructor.
  - simpl. lia.
  - simpl. lia.
  - reflexivity.
  - reflexivity.
  - simpl. lia.
Defined.
